(** * Path autocomplete field of the download / upload node widgets

    A shallow embedding of the destination-folder field that
    [js/aria2_downloader.js], [js/hf_hub_downloader.js] and the
    PathUploader widget each carry a copy of, and the properties of its
    specification checked against it.

    - JavaScript strings are [string]s of code units (restricted to the
      8-bit range), [length] is [String.length];
    - the closure variables [items], [active], [debounceTimer], the input
      element and the dropdown element are the fields of one [State];
    - the host (timers, pending HTTP requests, the clock) is part of the
      state, an [async] function is split at its [await] into the part
      that issues the request and the continuation run on the response;
    - browser events are the constructors of [Event], a handler is a
      function [State -> State]. *)

From Stdlib Require Import ZArith Lia List Bool Ascii String DecimalString.
From Stdlib Require QArith Qround Lqa.
Import ListNotations.

Set Warnings "-register-all".
Local Open Scope string_scope.
Local Open Scope Z_scope.

(** ** Strings *)

Module Str.

Definition slash : ascii := ascii_of_nat 47.
Definition backslash : ascii := ascii_of_nat 92.

Definition is_slash (c : ascii) : bool := Ascii.eqb c slash.
Definition is_backslash (c : ascii) : bool := Ascii.eqb c backslash.

(** [s.length] *)
Definition len (s : string) : Z := Z.of_nat (String.length s).

(** [!s] for a string: the empty string is the only falsy one. *)
Definition blank (s : string) : bool :=
  match s with EmptyString => true | String _ _ => false end.

(** [s.replace(/\\/g, "/")] *)
Fixpoint replaceBackslashes (s : string) : string :=
  match s with
  | EmptyString => EmptyString
  | String c rest =>
      String (if is_backslash c then slash else c) (replaceBackslashes rest)
  end.

(** [s.replace(/\/{2,}/g, "/")]: every maximal run of two or more slashes
    becomes one slash.  A slash that is followed by a slash is dropped, so
    the last slash of a run is the one that stays. *)
Fixpoint collapseSlashes (s : string) : string :=
  match s with
  | EmptyString => EmptyString
  | String c rest =>
      if is_slash c then
        match rest with
        | String c' _ =>
            if is_slash c' then collapseSlashes rest
            else String c (collapseSlashes rest)
        | EmptyString => String c EmptyString
        end
      else String c (collapseSlashes rest)
  end.

(** The same replacement read off the regular expression: at a position
    where [/{2,}] matches, the greedy match takes the whole run and is
    replaced by one slash; elsewhere the character is copied. *)
Fixpoint skipSlashes (s : string) : string :=
  match s with
  | String c rest => if is_slash c then skipSlashes rest else s
  | EmptyString => EmptyString
  end.

Fixpoint replaceSlashRuns (fuel : nat) (s : string) : string :=
  match fuel with
  | O => s
  | S fuel' =>
      match s with
      | EmptyString => EmptyString
      | String c rest =>
          if is_slash c then
            match rest with
            | String c' _ =>
                if is_slash c'
                then String slash (replaceSlashRuns fuel' (skipSlashes rest))
                else String c (replaceSlashRuns fuel' rest)
            | EmptyString => String c EmptyString
            end
          else String c (replaceSlashRuns fuel' rest)
      end
  end.

(** White space of [String.prototype.trim] among the 8-bit code units:
    TAB, LF, VT, FF, CR, SP and NBSP. *)
Definition isWhite (c : ascii) : bool :=
  let n := nat_of_ascii c in
  ((9 <=? n) && (n <=? 13))%nat || (n =? 32)%nat || (n =? 160)%nat.

Fixpoint trimStart (s : string) : string :=
  match s with
  | EmptyString => EmptyString
  | String c rest => if isWhite c then trimStart rest else s
  end.

Fixpoint trimEnd (s : string) : string :=
  match s with
  | EmptyString => EmptyString
  | String c rest =>
      let rest' := trimEnd rest in
      if isWhite c && blank rest' then EmptyString else String c rest'
  end.

(** [s.trim()] *)
Definition trim (s : string) : string := trimEnd (trimStart s).

(** [s.endsWith("/")] *)
Fixpoint endsWithSlash (s : string) : bool :=
  match s with
  | EmptyString => false
  | String c EmptyString => is_slash c
  | String _ rest => endsWithSlash rest
  end.

(** Occurrence tests used to state the properties of the results. *)
Fixpoint hasBackslash (s : string) : bool :=
  match s with
  | EmptyString => false
  | String c rest => is_backslash c || hasBackslash rest
  end.

Fixpoint hasDoubleSlash (s : string) : bool :=
  match s with
  | EmptyString => false
  | String c rest =>
      match rest with
      | String c' _ => (is_slash c && is_slash c') || hasDoubleSlash rest
      | EmptyString => false
      end
  end.

End Str.

(** ** JavaScript values of a parsed response *)

Module Js.

(** The integers a JSON number holds exactly, those of absolute value
    below 2^53; they print in decimal. *)
Definition safeInteger (n : Z) : bool := Z.abs n <? 2 ^ 53.

(** The result of [resp.json()]: a JSON value.  Numbers are the integers
    a number holds exactly; a response with another number is outside the
    model.  An object is the list of its own properties. *)
Inductive json : Type :=
| JNull
| JBool (b : bool)
| JNum (n : Z) (safe : safeInteger n = true)
| JStr (s : string)
| JArr (elems : list json)
| JObj (props : list (string * json)).

(** A JavaScript value met by the field: [None] is [undefined]. *)
Definition value : Type := option json.

(** Thrown exceptions; only their presence matters to the handlers. *)
Inductive exn : Type := TypeError | FetchError | SyntaxError.

(** Computations of a [try] block. *)
Definition result (A : Type) : Type := (exn + A)%type.

Definition ret {A : Type} (a : A) : result A := inr a.
Definition throw {A : Type} (e : exn) : result A := inl e.
Definition bind {A B : Type} (m : result A) (k : A -> result B) : result B :=
  match m with
  | inl e => inl e
  | inr a => k a
  end.

(** [try { m } catch (e) { h }] *)
Definition try_catch {A : Type} (m : result A) (h : A) : A :=
  match m with
  | inl _ => h
  | inr a => a
  end.

Fixpoint mapM {A B : Type} (f : A -> result B) (l : list A) : result (list B) :=
  match l with
  | [] => ret []
  | x :: rest =>
      bind (f x) (fun y => bind (mapM f rest) (fun ys => ret (y :: ys)))
  end.

Fixpoint lookup (k : string) (props : list (string * json)) : value :=
  match props with
  | [] => None
  | (k', v) :: rest => if String.eqb k k' then Some v else lookup k rest
  end.

(** [v.k] on a value that is neither [null] nor [undefined]: an own
    property of an object, [undefined] on anything else (none of the keys
    read here, [ok], [root], [folders], [name], is inherited). *)
Definition prop (v : json) (k : string) : value :=
  match v with
  | JObj props => lookup k props
  | _ => None
  end.

(** [v.k] as a member access: it throws on [null] and [undefined]. *)
Definition member (v : value) (k : string) : result value :=
  match v with
  | None | Some JNull => throw TypeError
  | Some j => ret (prop j k)
  end.

(** [v?.k] *)
Definition optMember (v : value) (k : string) : value :=
  match v with
  | None | Some JNull => None
  | Some j => prop j k
  end.

(** ToBoolean *)
Definition truthy (v : value) : bool :=
  match v with
  | None | Some JNull => false
  | Some (JBool b) => b
  | Some (JNum n _) => negb (n =? 0)
  | Some (JStr s) => negb (Str.blank s)
  | Some (JArr _) | Some (JObj _) => true
  end.

(** [Array.isArray(v)] *)
Definition isArray (v : value) : bool :=
  match v with
  | Some (JArr _) => true
  | _ => false
  end.

Definition showZ (n : Z) : string := NilZero.string_of_int (Z.to_int n).

(** ToString of a JSON value, as string concatenation, a template, a
    DOM string property and [encodeURIComponent] apply it.  An array joins
    its elements with commas, [null] elements printing as the empty string.
    An object prints as [[object Object]] through the method it inherits,
    unless it has an own property [toString]: that one is looked up first,
    is no function in a value read from JSON, and [valueOf] gives no
    primitive either, so the conversion throws a TypeError. *)
Fixpoint jsonToString (j : json) : result string :=
  match j with
  | JNull => ret "null"
  | JBool true => ret "true"
  | JBool false => ret "false"
  | JNum n _ => ret (showZ n)
  | JStr s => ret s
  | JArr elems =>
      (fix join (l : list json) : result string :=
         match l with
         | [] => ret EmptyString
         | x :: rest =>
             bind (match x with JNull => ret EmptyString | _ => jsonToString x end)
               (fun first =>
                  match rest with
                  | [] => ret first
                  | _ :: _ =>
                      bind (join rest) (fun others => ret (first ++ "," ++ others))
                  end)
         end) elems
  | JObj props =>
      match lookup "toString" props with
      | Some _ => throw TypeError
      | None => ret "[object Object]"
      end
  end.

Definition toString (v : value) : result string :=
  match v with
  | None => ret "undefined"
  | Some j => jsonToString j
  end.

(** [v.replace(...)] and the other string methods exist on strings only:
    on another non-nullish value the method is [undefined] and the call
    throws, on a nullish one the member access throws. *)
Definition asString (v : value) : result string :=
  match v with
  | Some (JStr s) => ret s
  | _ => throw TypeError
  end.

(** [a || b] *)
Definition or_else (a : value) (b : value) : value :=
  if truthy a then a else b.

Module Notations.
Notation "x <- m ;; k" := (bind m (fun x => k))
  (at level 61, m at next level, right associativity).
End Notations.

End Js.

(** ** The field, its dropdown and the host around them *)

Module Dom.

(** An entry of [items]: [{ name: f.name, path: ... }].  The name is
    whatever the response carried, the path is always a string. *)
Record Item : Type := mkItem {
  name : Js.value;
  path : string
}.

(** What a timer runs when it fires. *)
Inductive Callback : Type :=
| CbFetchChildren    (* setTimeout(fetchChildren, _) *)
| CbDispatchInput.   (* setTimeout(() => destInput.dispatchEvent(new Event("input")), 50) *)

(** An entry of the host's timer table. *)
Record Timer : Type := mkTimer {
  tid : nat;
  due : nat;
  cb : Callback
}.

(** [GET /az/listdir] ([None]) or [GET /az/listdir?path=<val>]. *)
Inductive Request : Type :=
| Listdir (path : option string).

(** What comes back: [fetchApi] rejects, or resolves to a response with a
    status and a body that parses as JSON or does not. *)
Inductive HttpResult : Type :=
| NetworkError
| Http (status : nat) (body : option Js.json).

Inductive Key : Type := ArrowDown | ArrowUp | Enter | Escape | OtherKey.

(** The state of one field.  [K] is the type of the continuations of the
    suspended [async] functions, one per request in flight. *)
Record State {K : Type} : Type := mkState {
  (* the input element and the node *)
  value : string;                 (* destInput.value *)
  caret : Z;                      (* destInput.selectionStart *)
  dest_dir : string;              (* this.properties.dest_dir *)
  focused : bool;                 (* document.activeElement === destInput *)
  (* the closure variables *)
  items : list Item;
  active : Z;
  debounceTimer : option nat;     (* null or a timer id *)
  (* the dropdown element *)
  display : bool;                 (* dropdown.style.display === "block" *)
  rows : list Item;               (* dropdown.children, each row with its [it] *)
  (* the host *)
  timers : list Timer;            (* armed and not yet fired or cleared *)
  nextTimer : nat;                (* the id the next setTimeout returns *)
  now : nat;                      (* the clock, in milliseconds *)
  inflight : list K;              (* requests awaiting their response *)
  sent : list Request             (* every request issued so far *)
}.
Arguments State K : clear implicits.
Arguments mkState {K}.

Section Updates.
Context {K : Type}.
Implicit Type s : State K.

Definition set_value v s : State K :=
  mkState v (caret s) (dest_dir s) (focused s) (items s) (active s)
    (debounceTimer s) (display s) (rows s) (timers s) (nextTimer s) (now s)
    (inflight s) (sent s).
Definition set_caret v s : State K :=
  mkState (value s) v (dest_dir s) (focused s) (items s) (active s)
    (debounceTimer s) (display s) (rows s) (timers s) (nextTimer s) (now s)
    (inflight s) (sent s).
Definition set_dest_dir v s : State K :=
  mkState (value s) (caret s) v (focused s) (items s) (active s)
    (debounceTimer s) (display s) (rows s) (timers s) (nextTimer s) (now s)
    (inflight s) (sent s).
Definition set_focused v s : State K :=
  mkState (value s) (caret s) (dest_dir s) v (items s) (active s)
    (debounceTimer s) (display s) (rows s) (timers s) (nextTimer s) (now s)
    (inflight s) (sent s).
Definition set_items v s : State K :=
  mkState (value s) (caret s) (dest_dir s) (focused s) v (active s)
    (debounceTimer s) (display s) (rows s) (timers s) (nextTimer s) (now s)
    (inflight s) (sent s).
Definition set_active v s : State K :=
  mkState (value s) (caret s) (dest_dir s) (focused s) (items s) v
    (debounceTimer s) (display s) (rows s) (timers s) (nextTimer s) (now s)
    (inflight s) (sent s).
Definition set_debounceTimer v s : State K :=
  mkState (value s) (caret s) (dest_dir s) (focused s) (items s) (active s)
    v (display s) (rows s) (timers s) (nextTimer s) (now s)
    (inflight s) (sent s).
Definition set_display v s : State K :=
  mkState (value s) (caret s) (dest_dir s) (focused s) (items s) (active s)
    (debounceTimer s) v (rows s) (timers s) (nextTimer s) (now s)
    (inflight s) (sent s).
Definition set_rows v s : State K :=
  mkState (value s) (caret s) (dest_dir s) (focused s) (items s) (active s)
    (debounceTimer s) (display s) v (timers s) (nextTimer s) (now s)
    (inflight s) (sent s).
Definition set_timers v s : State K :=
  mkState (value s) (caret s) (dest_dir s) (focused s) (items s) (active s)
    (debounceTimer s) (display s) (rows s) v (nextTimer s) (now s)
    (inflight s) (sent s).
Definition set_nextTimer v s : State K :=
  mkState (value s) (caret s) (dest_dir s) (focused s) (items s) (active s)
    (debounceTimer s) (display s) (rows s) (timers s) v (now s)
    (inflight s) (sent s).
Definition set_now v s : State K :=
  mkState (value s) (caret s) (dest_dir s) (focused s) (items s) (active s)
    (debounceTimer s) (display s) (rows s) (timers s) (nextTimer s) v
    (inflight s) (sent s).
Definition set_inflight v s : State K :=
  mkState (value s) (caret s) (dest_dir s) (focused s) (items s) (active s)
    (debounceTimer s) (display s) (rows s) (timers s) (nextTimer s) (now s)
    v (sent s).
Definition set_sent v s : State K :=
  mkState (value s) (caret s) (dest_dir s) (focused s) (items s) (active s)
    (debounceTimer s) (display s) (rows s) (timers s) (nextTimer s) (now s)
    (inflight s) v.

(** [destInput.value = v]: a value that differs from the present one
    moves the caret to its end. *)
Definition assign_value (v : string) s : State K :=
  if String.eqb v (value s) then s
  else set_caret (Str.len v) (set_value v s).

(** [destInput.setSelectionRange(pos, pos)]: a position past the end of
    the text is the end of the text. *)
Definition setSelectionRange (pos : Z) s : State K :=
  set_caret (Z.min pos (Str.len (value s))) s.

(** [setTimeout(f, delay)]: a new entry of the timer table, due [delay]
    from now; the id returned is new and positive. *)
Definition setTimeout (f : Callback) (delay : nat) s : nat * State K :=
  let id := nextTimer s in
  (id, set_nextTimer (S id) (set_timers (timers s ++ [mkTimer id (now s + delay) f]) s)).

(** [clearTimeout(id)]: the entry leaves the table; an id that is not
    armed (any more) is ignored. *)
Definition clearTimeout (id : nat) s : State K :=
  set_timers (filter (fun t => negb (Nat.eqb (tid t) id)) (timers s)) s.

(** [if (debounceTimer) clearTimeout(debounceTimer)]: an id is never 0. *)
Definition clearDebounce s : State K :=
  match debounceTimer s with
  | Some id => clearTimeout id s
  | None => s
  end.

(** [if (debounceTimer) clearTimeout(debounceTimer);
    debounceTimer = setTimeout(fetchChildren, delay);] *)
Definition arm (delay : nat) s : State K :=
  let s := clearDebounce s in
  let '(id, s) := setTimeout CbFetchChildren delay s in
  set_debounceTimer (Some id) s.

(** [if (debounceTimer) { clearTimeout(debounceTimer); debounceTimer = null; }] *)
Definition cancelDebounce s : State K :=
  match debounceTimer s with
  | Some id => set_debounceTimer None (clearTimeout id s)
  | None => s
  end.

(** [api.fetchApi(url)] up to its [await]: the request leaves, the caller
    is suspended as [k]. *)
Definition fetchApi (rq : Request) (k : K) s : State K :=
  set_sent (sent s ++ [rq]) (set_inflight (inflight s ++ [k]) s).

(** The armed timer with a given id that is due. *)
Definition dueTimer (id : nat) s : option Timer :=
  find (fun t => Nat.eqb (tid t) id && Nat.leb (due t) (now s)) (timers s).

End Updates.

(** [await api.fetchApi(...)] resumed: a rejected fetch throws. *)
Definition awaitFetch (r : HttpResult) : Js.result (nat * option Js.json) :=
  match r with
  | NetworkError => Js.throw Js.FetchError
  | Http status body => Js.ret (status, body)
  end.

(** [await resp.json()]: a body that is not JSON throws; the status of
    the response is not looked at. *)
Definition awaitJson (resp : nat * option Js.json) : Js.result Js.json :=
  match snd resp with
  | None => Js.throw Js.SyntaxError
  | Some data => Js.ret data
  end.

(** [l[i]] at an index known to be in range. *)
Definition nth_item (l : list Item) (i : Z) : option Item :=
  if i <? 0 then None else nth_error l (Z.to_nat i).

Definition length_Z {A : Type} (l : list A) : Z := Z.of_nat (List.length l).

(** What the user does and what the host delivers. *)
Inductive Event : Type :=
| Input (raw : string) (sel : Z)  (* an edit left [raw] in the box, caret at [sel] *)
| Focus                           (* the box takes focus *)
| Blur                            (* focus leaves for another element *)
| KeyDown (k : Key)
| RowPointerDown (idx : nat)      (* pointerdown / mousedown on a row *)
| RowMouseEnter (idx : nat)
| PointerDownOutside              (* pointerdown outside the container *)
| HostSetProperty (p : string)    (* the host writes properties.dest_dir *)
| Elapse (d : nat)                (* [d] milliseconds pass *)
| TimerFire (id : nat)
| Response (n : nat) (r : HttpResult).  (* the [n]-th request in flight settles *)

(** Removing the [n]-th element. *)
Fixpoint remove_nth {A : Type} (n : nat) (l : list A) : list A :=
  match l, n with
  | [], _ => []
  | _ :: rest, O => rest
  | x :: rest, S n' => x :: remove_nth n' rest
  end.

End Dom.

(** ** The field of the Aria2 and Hugging Face downloader widgets

    [js/aria2_downloader.js] (node [Aria2Downloader]) and
    [js/hf_hub_downloader.js] carry the same code for the destination
    field, statement for statement (the second writes the new caret
    position out twice where the first names it [pos]); this module embeds
    both. *)

Module Downloader.
Import Dom Js.Notations.

(** [x.replace(/\\/g, "/").replace(/\/{2,}/g, "/")], written out at each
    use in the source. *)
Definition normalize (s : string) : string :=
  Str.collapseSlashes (Str.replaceBackslashes s).

(** Where an [async] function of the field is suspended. *)
Inductive Cont : Type :=
| FetchChildrenK (val : string)   (* fetchChildren, at [await api.fetchApi] *)
| FocusK                          (* the focus handler, at its [await] *)
| PrefillK.                       (* the prefill run on creation *)

Definition State : Type := Dom.State Cont.

Definition renderDropdown (s : State) : State :=
  let s := set_rows [] s in                       (* dropdown.innerHTML = "" *)
  match items s with
  | [] => set_active (-1) (set_display false s)
  | _ :: _ => set_display true (set_rows (items s) s)
  end.

(** The [try] block of [fetchChildren] after the request was issued. *)
Definition listing (val : string) (r : HttpResult) : Js.result (list Item) :=
  resp <- awaitFetch r ;;
  data <- awaitJson resp ;;
  if Js.truthy (Some data) && Js.truthy (Js.prop data "ok")
     && Js.isArray (Js.prop data "folders")
  then
    match Js.prop data "folders" with
    | Some (Js.JArr folders) =>
        Js.mapM (fun f =>
          n <- Js.member (Some f) "name" ;;
          parent <- Js.toString (Js.or_else (Js.prop data "root") (Some (Js.JStr val))) ;;
          name <- Js.toString n ;;
          Js.ret (mkItem n (normalize (parent ++ "/" ++ name)))) folders
    | _ => Js.ret []
    end
  else Js.ret [].

(** [fetchChildren] up to its [await]. *)
Definition fetchChildren (s : State) : State :=
  let raw := Str.trim (value s) in
  if Str.blank raw then renderDropdown (set_items [] s)
  else
    let val := normalize raw in
    fetchApi (Listdir (Some val)) (FetchChildrenK val) s.

(** [fetchChildren] from the response on. *)
Definition fetchChildren_resume (val : string) (r : HttpResult) (s : State) : State :=
  let s := set_items (Js.try_catch (listing val r) []) s in
  let s := set_active (match items s with [] => -1 | _ :: _ => 0 end) s in
  if focused s then renderDropdown s else set_display false s.

Definition scheduleFetch (s : State) : State := arm 180 s.

(** The "input" listener; the edit itself is already in [value] and
    [caret]. *)
Definition onInput (s : State) : State :=
  let raw := value s in
  let prevStart := caret s in
  let normalized := normalize raw in
  let s :=
    if negb (String.eqb normalized raw) then
      let delta := Str.len normalized - Str.len raw in
      let s := assign_value normalized s in
      let pos := Z.max 0 (prevStart + delta) in
      setSelectionRange pos s
    else s in
  let s := set_dest_dir (value s) s in
  scheduleFetch s.

(** The [try] block shared by the focus listener and the prefill, up to
    the test of the property: the root to seed, if the response has one. *)
Definition serverRoot (r : HttpResult) : Js.result (option string) :=
  resp <- awaitFetch r ;;
  data <- awaitJson resp ;;
  if Js.truthy (Js.optMember (Some data) "ok") && Js.truthy (Js.prop data "root")
  then
    root <- Js.asString (Js.or_else (Js.prop data "root") (Some (Js.JStr EmptyString))) ;;
    Js.ret (Some (Str.replaceBackslashes root))
  else Js.ret None.

Definition seed (root : string) (s : State) : State :=
  let s := assign_value root s in
  let s := set_dest_dir root s in
  arm 50 s.

(** The "focus" listener up to its [await]. *)
Definition onFocus (s : State) : State :=
  if Str.blank (value s) || Str.blank (Str.trim (value s))
  then fetchApi (Listdir None) FocusK s
  else scheduleFetch s.

(** The "focus" listener from the response on. *)
Definition onFocus_resume (r : HttpResult) (s : State) : State :=
  match Js.try_catch (serverRoot r) None with
  | Some root =>
      if Str.blank (dest_dir s) then seed root s else scheduleFetch s
  | None => scheduleFetch s
  end.

(** The prefill on creation, from the response on. *)
Definition prefill_resume (r : HttpResult) (s : State) : State :=
  match Js.try_catch (serverRoot r) None with
  | Some root => if Str.blank (dest_dir s) then seed root s else s
  | None => s
  end.

(** Choosing a row, by mouse or by Enter. *)
Definition choose (it : Item) (s : State) : State :=
  let chosen := normalize (path it) in
  let s := assign_value chosen s in
  let s := set_dest_dir chosen s in
  let s := set_active (-1) (set_items [] s) in
  let s := set_display false s in
  scheduleFetch s.

(** The "keydown" listener.  [items[active]] out of range is [undefined]
    and reading its [path] throws before anything is changed. *)
Definition onKeyDown (k : Key) (s : State) : State :=
  if negb (display s) || (length_Z (items s) =? 0) then s
  else
    match k with
    | ArrowDown =>
        renderDropdown (set_active (Z.rem (active s + 1) (length_Z (items s))) s)
    | ArrowUp =>
        renderDropdown
          (set_active (Z.rem (active s - 1 + length_Z (items s)) (length_Z (items s))) s)
    | Enter =>
        if 0 <=? active s then
          match nth_item (items s) (active s) with
          | Some it => choose it s
          | None => s
          end
        else s
    | Escape => set_active (-1) (set_items [] (set_display false s))
    | OtherKey => s
    end.

(** The "blur" listener. *)
Definition onBlur (s : State) : State :=
  let s := cancelDebounce s in
  let s := set_active (-1) (set_items [] s) in
  set_display false s.

(** [docHandler], for a pointerdown outside container and dropdown. *)
Definition docHandler (s : State) : State :=
  let s := cancelDebounce s in
  let s := set_active (-1) (set_items [] s) in
  set_display false s.

(** [row.onmouseenter] of the row [idx]. *)
Definition onMouseEnter (idx : nat) (s : State) : State :=
  renderDropdown (set_active (Z.of_nat idx) s).

Definition resume (k : Cont) (r : HttpResult) (s : State) : State :=
  match k with
  | FetchChildrenK val => fetchChildren_resume val r s
  | FocusK => onFocus_resume r s
  | PrefillK => prefill_resume r s
  end.

(** This widget arms timers for [fetchChildren] only. *)
Definition runCallback (f : Callback) (s : State) : State :=
  match f with
  | CbFetchChildren => fetchChildren s
  | CbDispatchInput => s
  end.

(** One event.  A row takes pointer events only while the dropdown is
    shown; a timer fires once it is armed and due; a response settles a
    request in flight.  Anything else leaves the state as it is. *)
Definition step (s : State) (e : Event) : State :=
  match e with
  | Input raw sel => onInput (set_caret sel (set_value raw s))
  | Focus => onFocus (set_focused true s)
  | Blur => onBlur (set_focused false s)
  | KeyDown k => onKeyDown k s
  | RowPointerDown idx =>
      if display s then
        match nth_error (rows s) idx with
        | Some it => choose it s
        | None => s
        end
      else s
  | RowMouseEnter idx =>
      if display s && (idx <? List.length (rows s))%nat then onMouseEnter idx s else s
  | PointerDownOutside => docHandler s
  | HostSetProperty p => set_dest_dir p s
  | Elapse d => set_now (now s + d)%nat s
  | TimerFire id =>
      match dueTimer id s with
      | Some t => runCallback (cb t) (clearTimeout id s)
      | None => s
      end
  | Response n r =>
      match nth_error (inflight s) n with
      | Some k => resume k r (set_inflight (remove_nth n (inflight s)) s)
      | None => s
      end
  end.

Definition run (s : State) (es : list Event) : State := fold_left step es s.

(** [onNodeCreated] with [p] the persisted [properties.dest_dir || ""]:
    the field is built and the prefill request is on its way. *)
Definition init (p : string) : State :=
  fetchApi (Listdir None) PrefillK
    (mkState p (Str.len p) p false [] (-1) None false [] [] 1%nat 0%nat [] []).

Inductive reachable (p : string) : State -> Prop :=
| reach_init : reachable p (init p)
| reach_step s e : reachable p s -> reachable p (step s e).

(** The path [fetchChildren] asks for when the box holds the text an
    edit [raw] leaves in it. *)
Definition lookupOf (raw : string) : option string :=
  let v := normalize raw in
  if Str.blank (Str.trim v) then None else Some (normalize (Str.trim v)).

End Downloader.

(** ** The field of the PathUploader widget

    The second file of [js/aria2_downloader.js] (node [PathUploader]).
    It differs from the downloaders' copy in its normalization, in how a
    suggestion's path is joined, and in its "keydown" listener. *)

Module PathUploader.
Import Dom Js.Notations.

(** [const normalizePath = (p) => (p || "").replace(/\\/g, "/")] on a
    string. *)
Definition normalizePath (p : string) : string := Str.replaceBackslashes p.

(** [normalizePath] on a value taken from a response. *)
Definition normalizePath_js (p : Js.value) : Js.result string :=
  s <- Js.asString (Js.or_else p (Some (Js.JStr EmptyString))) ;;
  Js.ret (Str.replaceBackslashes s).

Definition joinPath (base seg : Js.value) : Js.result string :=
  base <- normalizePath_js (Js.or_else base (Some (Js.JStr EmptyString))) ;;
  seg <- normalizePath_js (Js.or_else seg (Some (Js.JStr EmptyString))) ;;
  if Str.blank base then Js.ret seg
  else if Str.blank seg then Js.ret base
  else
    let trailing := Str.endsWithSlash base in
    Js.ret (if trailing then base ++ seg else base ++ "/" ++ seg).

(** [joinPath] on two strings. *)
Definition joinPath_str (base seg : string) : string :=
  let base := normalizePath base in
  let seg := normalizePath seg in
  if Str.blank base then seg
  else if Str.blank seg then base
  else if Str.endsWithSlash base then base ++ seg else base ++ "/" ++ seg.

Inductive Cont : Type :=
| FetchChildrenK (val : string)           (* fetchChildren run by the timer *)
| KeyDownK (k : Key) (val : string)       (* keydown, at [await fetchChildren()] *)
| FocusK
| PrefillK.

Definition State : Type := Dom.State Cont.

Definition renderDropdown (s : State) : State :=
  let s := set_rows [] s in
  match items s with
  | [] => set_active (-1) (set_display false s)
  | _ :: _ => set_display true (set_rows (items s) s)
  end.

(** The [try] block of [fetchChildren] after the request was issued.
    [data.folders.map] on a truthy value that is not an array throws. *)
Definition listing (val : string) (r : HttpResult) : Js.result (list Item) :=
  resp <- awaitFetch r ;;
  data <- awaitJson resp ;;
  if Js.truthy (Js.optMember (Some data) "ok") && Js.truthy (Js.prop data "folders")
  then
    match Js.prop data "folders" with
    | Some (Js.JArr folders) =>
        Js.mapM (fun f =>
          n <- Js.member (Some f) "name" ;;
          p <- joinPath (Js.or_else (Js.prop data "root") (Some (Js.JStr val))) n ;;
          Js.ret (mkItem n p)) folders
    | _ => Js.throw Js.TypeError
    end
  else Js.ret [].

Definition fetchChildren_resume (val : string) (r : HttpResult) (s : State) : State :=
  let s := set_items (Js.try_catch (listing val r) []) s in
  let s := set_active (match items s with [] => -1 | _ :: _ => 0 end) s in
  if focused s then renderDropdown s else set_display false s.

(** [fetchChildren] up to its [await]; [k] is what awaits it.  Without a
    text to look up it finishes at once and the result says so. *)
Definition fetchChildren (k : string -> Cont) (s : State) : bool * State :=
  if Str.blank (value s) || Str.blank (Str.trim (value s))
  then (true, renderDropdown (set_items [] s))
  else
    let raw := Str.trim (value s) in
    let val := normalizePath raw in
    (false, fetchApi (Listdir (Some val)) (k val) s).

Definition scheduleFetch (s : State) : State := arm 200 s.

Definition choose (it : Item) (s : State) : State :=
  let chosen := normalizePath (path it) in
  let s := assign_value chosen s in
  let s := set_dest_dir chosen s in
  let s := set_active (-1) (set_items [] s) in
  let s := set_display false s in
  scheduleFetch s.

(** The "keydown" listener after its first [if]: nothing without items,
    shown or not. *)
Definition onKeyDown_rest (k : Key) (s : State) : State :=
  if length_Z (items s) =? 0 then s
  else
    match k with
    | ArrowDown =>
        renderDropdown (set_active (Z.rem (active s + 1) (length_Z (items s))) s)
    | ArrowUp =>
        renderDropdown
          (set_active (Z.rem (active s - 1 + length_Z (items s)) (length_Z (items s))) s)
    | Enter =>
        match nth_item (items s) (if 0 <=? active s then active s else 0) with
        | Some it => choose it s
        | None => s
        end
    | Escape => set_active (-1) (set_items [] (set_display false s))
    | OtherKey => s
    end.

Definition isArrow (k : Key) : bool :=
  match k with
  | ArrowDown | ArrowUp => true
  | _ => false
  end.

(** The "keydown" listener up to its [await]. *)
Definition onKeyDown (k : Key) (s : State) : State :=
  if isArrow k && negb (display s) then
    let s := clearDebounce s in
    let '(done, s) := fetchChildren (KeyDownK k) s in
    if done then onKeyDown_rest k s else s
  else onKeyDown_rest k s.

(** The "input" listener. *)
Definition onInput (s : State) : State :=
  let prevStart := caret s in
  let before := value s in
  let normalized := normalizePath before in
  let s :=
    if negb (String.eqb normalized before) then
      let s := assign_value normalized s in
      let delta := Str.len normalized - Str.len before in
      let pos := Z.max 0 (prevStart + delta) in
      setSelectionRange pos s
    else s in
  let s := set_dest_dir normalized s in
  scheduleFetch s.

Definition serverRoot (r : HttpResult) : Js.result (option string) :=
  resp <- awaitFetch r ;;
  data <- awaitJson resp ;;
  if Js.truthy (Js.optMember (Some data) "ok") && Js.truthy (Js.prop data "root")
  then
    root <- normalizePath_js (Js.prop data "root") ;;
    Js.ret (Some root)
  else Js.ret None.

Definition seed (root : string) (s : State) : State :=
  let s := assign_value root s in
  let s := set_dest_dir root s in
  arm 50 s.

Definition onFocus (s : State) : State :=
  if Str.blank (value s) || Str.blank (Str.trim (value s))
  then fetchApi (Listdir None) FocusK s
  else scheduleFetch s.

Definition onFocus_resume (r : HttpResult) (s : State) : State :=
  match Js.try_catch (serverRoot r) None with
  | Some root =>
      if Str.blank (dest_dir s) then seed root s else scheduleFetch s
  | None => scheduleFetch s
  end.

Definition prefill_resume (r : HttpResult) (s : State) : State :=
  match Js.try_catch (serverRoot r) None with
  | Some root => if Str.blank (dest_dir s) then seed root s else s
  | None => s
  end.

Definition onBlur (s : State) : State :=
  let s := cancelDebounce s in
  let s := set_active (-1) (set_items [] s) in
  set_display false s.

Definition docHandler (s : State) : State :=
  let s := cancelDebounce s in
  let s := set_active (-1) (set_items [] s) in
  set_display false s.

Definition onMouseEnter (idx : nat) (s : State) : State :=
  renderDropdown (set_active (Z.of_nat idx) s).

Definition resume (k : Cont) (r : HttpResult) (s : State) : State :=
  match k with
  | FetchChildrenK val => fetchChildren_resume val r s
  | KeyDownK key val => onKeyDown_rest key (fetchChildren_resume val r s)
  | FocusK => onFocus_resume r s
  | PrefillK => prefill_resume r s
  end.

Definition runCallback (f : Callback) (s : State) : State :=
  match f with
  | CbFetchChildren => snd (fetchChildren FetchChildrenK s)
  | CbDispatchInput => onInput s
  end.

Definition step (s : State) (e : Event) : State :=
  match e with
  | Input raw sel => onInput (set_caret sel (set_value raw s))
  | Focus => onFocus (set_focused true s)
  | Blur => onBlur (set_focused false s)
  | KeyDown k => onKeyDown k s
  | RowPointerDown idx =>
      if display s then
        match nth_error (rows s) idx with
        | Some it => choose it s
        | None => s
        end
      else s
  | RowMouseEnter idx =>
      if display s && (idx <? List.length (rows s))%nat then onMouseEnter idx s else s
  | PointerDownOutside => docHandler s
  | HostSetProperty p => set_dest_dir p s
  | Elapse d => set_now (now s + d)%nat s
  | TimerFire id =>
      match dueTimer id s with
      | Some t => runCallback (cb t) (clearTimeout id s)
      | None => s
      end
  | Response n r =>
      match nth_error (inflight s) n with
      | Some k => resume k r (set_inflight (remove_nth n (inflight s)) s)
      | None => s
      end
  end.

Definition run (s : State) (es : list Event) : State := fold_left step es s.

(** [onNodeCreated] with [p] the persisted [properties.dest_dir || ""]:
    the property is normalized, the prefill request leaves, and a text
    that is there gets its "input" event 50 ms later. *)
Definition init (p : string) : State :=
  let v := normalizePath p in
  let s := fetchApi (Listdir None) PrefillK
             (mkState v (Str.len v) v false [] (-1) None false [] [] 1%nat 0%nat [] []) in
  if Str.blank (value s) then s
  else snd (setTimeout CbDispatchInput 50 s).

Inductive reachable (p : string) : State -> Prop :=
| reach_init : reachable p (init p)
| reach_step s e : reachable p s -> reachable p (step s e).

(** The path [fetchChildren] asks for when the box holds the text an
    edit [raw] leaves in it. *)
Definition lookupOf (raw : string) : option string :=
  let v := normalizePath raw in
  if Str.blank (Str.trim v) then None else Some (normalizePath (Str.trim v)).

End PathUploader.

(** ** The properties, as predicates on the embedding *)

Module Spec.
Import Dom.

(** A normalization leaves no backslash and no doubled slash, and doing
    it twice is doing it once. *)
Definition normalizes (f : string -> string) : Prop :=
  forall s,
    Str.hasBackslash (f s) = false /\
    Str.hasDoubleSlash (f s) = false /\
    f (f s) = f s.

(** [active] is [-1] exactly when [items] is empty, and an index into
    [items] otherwise. *)
Definition active_ok {K : Type} (s : State K) : Prop :=
  (items s = [] <-> active s = -1) /\
  (items s <> [] -> 0 <= active s < length_Z (items s)).

(** The rows on screen are the rows of [items]. *)
Definition rows_ok {K : Type} (s : State K) : Prop :=
  display s = true -> rows s = items s /\ items s <> [].

(** The timers that run [fetchChildren]. *)
Definition isFetch (t : Timer) : bool :=
  match cb t with
  | CbFetchChildren => true
  | CbDispatchInput => false
  end.

Definition fetchTimers {K : Type} (s : State K) : list Timer :=
  filter isFetch (timers s).

(** Timer ids are used once, and an armed [fetchChildren] timer is the
    one [debounceTimer] holds. *)
Definition timers_ok {K : Type} (s : State K) : Prop :=
  NoDup (map tid (timers s)) /\
  (forall t, In t (timers s) -> (tid t < nextTimer s)%nat) /\
  (forall t, In t (timers s) -> isFetch t = true -> debounceTimer s = Some (tid t)).

(** What the invariant of the dropdown is made of. *)
Definition Inv {K : Type} (s : State K) : Prop := active_ok s /\ rows_ok s.

(** Two states with the same dropdown and suggestions. *)
Definition same_dropdown {K : Type} (s s' : State K) : Prop :=
  items s' = items s /\ active s' = active s /\
  display s' = display s /\ rows s' = rows s.

(** Two states with the same timers. *)
Definition same_timers {K : Type} (s s' : State K) : Prop :=
  timers s' = timers s /\ nextTimer s' = nextTimer s /\
  debounceTimer s' = debounceTimer s.

(** The suggestions are gone and the overlay is hidden. *)
Definition hidden {K : Type} (s : State K) : Prop :=
  items s = [] /\ active s = -1 /\ display s = false.

(** A response whose [ok] is truthy, whose [folders] is the array
    [folders] of objects named [names], in this order, and whose [root], or
    the path asked for when it has none, is the string [parent]. *)
Definition lists (val : string) (data : Js.json) (parent : string)
    (folders : list Js.json) (names : list string) : Prop :=
  Js.truthy (Js.prop data "ok") = true /\
  Js.prop data "folders" = Some (Js.JArr folders) /\
  Forall2 (fun f n => Js.prop f "name" = Some (Js.JStr n)) folders names /\
  Js.or_else (Js.prop data "root") (Some (Js.JStr val)) = Some (Js.JStr parent).

(** A response the directory service sends on success:
    [{ ok: true, root: ..., folders: [{ name: ... }, ...] }], the root
    left out when [root] is [None]. *)
Definition folderOf (n : string) : Js.json := Js.JObj [("name", Js.JStr n)].

Definition listdirOk (root : option string) (names : list string) : Js.json :=
  Js.JObj
    (("ok", Js.JBool true)
     :: match root with
        | Some r => [("root", Js.JStr r)]
        | None => []
        end
     ++ [("folders", Js.JArr (map folderOf names))]).

(** White space only. *)
Fixpoint allWhite (s : string) : bool :=
  match s with
  | EmptyString => true
  | String c rest => Str.isWhite c && allWhite rest
  end.

Definition startsWhite (s : string) : bool :=
  match s with
  | String c _ => Str.isWhite c
  | EmptyString => false
  end.

Fixpoint endsWhite (s : string) : bool :=
  match s with
  | EmptyString => false
  | String c EmptyString => Str.isWhite c
  | String _ rest => endsWhite rest
  end.

(** [t] is [raw] trimmed, in the words of the specification of
    [String.prototype.trim] and not by the way [Str.trim] computes it:
    [raw] is white space, then [t], then white space, and [t] neither
    begins nor ends with white space. *)
Definition trims (raw t : string) : Prop :=
  exists l r,
    raw = (l ++ t ++ r)%string /\ allWhite l = true /\ allWhite r = true /\
    startsWhite t = false /\ endsWhite t = false.

(** A text that trimming and both normalizations leave as it is: not
    empty, without white space at its ends, without a backslash or a
    doubled slash. *)
Definition plainText (t : string) : bool :=
  negb (Str.blank t) && negb (startsWhite t) && negb (endsWhite t)
  && negb (Str.hasBackslash t) && negb (Str.hasDoubleSlash t).

(** Two edits [d] apart, before the first timer is due.  The first edit
    arms the timer [t1], the second arms [t2] in its place: [t1] does not
    fire in between and cannot fire afterwards, [t2] is due [delay] after
    the second edit, and when it fires no such timer is left and the
    requests sent since the state [s] are the one lookup for the text of
    the second edit: for that text normalized by [norm], trimmed, and
    normalized again (none if nothing is left of it), which is the text
    itself when it is plain. *)
Definition debounced {K : Type} (step : State K -> Event -> State K)
    (delay : nat) (norm : string -> string)
    (s : State K) (raw1 : string) (sel1 : Z) (d : nat) (raw2 : string) (sel2 : Z) : Prop :=
  let s1 := step s (Input raw1 sel1) in
  let s1' := step s1 (Elapse d) in
  let s2 := step s1' (Input raw2 sel2) in
  let t1 := nextTimer s in
  let t2 := S (nextTimer s) in
  fetchTimers s1 = [mkTimer t1 (now s + delay) CbFetchChildren] /\
  fetchTimers s2 = [mkTimer t2 (now s + d + delay) CbFetchChildren] /\
  step s1' (TimerFire t1) = s1' /\
  (forall d', step (step s2 (Elapse d')) (TimerFire t1) = step s2 (Elapse d')) /\
  (forall d', (delay <= d')%nat ->
     let s3 := step (step s2 (Elapse d')) (TimerFire t2) in
     fetchTimers s3 = [] /\
     (exists t, trims (norm raw2) t /\
        sent s3 = if Str.blank t then sent s
                  else (sent s ++ [Listdir (Some (norm t))])%list) /\
     (plainText raw2 = true ->
      sent s3 = (sent s ++ [Listdir (Some raw2)])%list)).

(** A timer that fires looks up the text the box holds at that moment:
    it sends nothing, or the one lookup for that text, trimmed and
    normalized by [norm]. *)
Definition fires_for_current_text {K : Type} (step : State K -> Event -> State K)
    (norm : string -> string) (s : State K) (id : nat) : Prop :=
  exists t, trims (value s) t /\
    (sent (step s (TimerFire id)) = sent s \/
     (Str.blank t = false /\
      sent (step s (TimerFire id)) = (sent s ++ [Listdir (Some (norm t))])%list)).


(** A lookup that failed, as the field sees it: the fetch was rejected,
    the body is not JSON, or the body lacks a truthy [ok] or an array
    [folders].  The status is no part of it. *)
Definition failedBody (d : Js.json) : bool :=
  negb (Js.truthy (Js.prop d "ok")) || negb (Js.isArray (Js.prop d "folders")).

Definition failed (r : HttpResult) : bool :=
  match r with
  | NetworkError => true
  | Http _ None => true
  | Http _ (Some d) => failedBody d
  end.

(** A status outside 200..299. *)
Definition non2xx (r : HttpResult) : bool :=
  match r with
  | NetworkError => false
  | Http status _ => (status <? 200)%nat || (299 <? status)%nat
  end.

End Spec.

(** ** Formatting of speeds and durations

    [fmtBytes] and [fmtETA] of [js/aria2_downloader.js], [fmtDuration] of
    [js/hf_hub_downloader.js].  A finite JavaScript number is the rational
    it stands for; dividing it by 1024 is exact in binary floating point,
    so the loop of [fmtBytes] is followed with exact rationals. *)

Module Format.
Import Stdlib.QArith.QArith Stdlib.QArith.Qround.
Local Open Scope Z_scope.

(** Truncation toward zero, the first step of [x | 0]. *)
Definition truncQ (x : Q) : Z := Z.quot (Qnum x) (Z.pos (Qden x)).

(** ToInt32 of an integer: modulo 2^32, into [-2^31, 2^31). *)
Definition toInt32 (n : Z) : Z :=
  (n + 2147483648) mod 4294967296 - 2147483648.

(** [Math.max(0, sec | 0)] *)
Definition wholeSeconds (sec : Q) : Z := Z.max 0 (toInt32 (truncQ sec)).

(** [fmtETA(sec)]; [None] is a [sec] that is [null], [undefined] or not
    finite. *)
Definition fmtETA (sec : option Q) : string :=
  match sec with
  | None => "--"
  | Some sec =>
      let sec := wholeSeconds sec in
      let h := sec / 3600 in
      let m := Z.rem sec 3600 / 60 in
      let s := Z.rem sec 60 in
      if negb (h =? 0) then Js.showZ h ++ "h " ++ Js.showZ m ++ "m"
      else if negb (m =? 0) then Js.showZ m ++ "m " ++ Js.showZ s ++ "s"
      else Js.showZ s ++ "s"
  end.

(** [fmtDuration(sec)] of the Hugging Face widget, the same statements. *)
Definition fmtDuration (sec : option Q) : string :=
  match sec with
  | None => "--"
  | Some sec =>
      let sec := wholeSeconds sec in
      let h := sec / 3600 in
      let m := Z.rem sec 3600 / 60 in
      let s := Z.rem sec 60 in
      if negb (h =? 0) then Js.showZ h ++ "h " ++ Js.showZ m ++ "m"
      else if negb (m =? 0) then Js.showZ m ++ "m " ++ Js.showZ s ++ "s"
      else Js.showZ s ++ "s"
  end.

Definition units : list string := ["B"; "KB"; "MB"; "GB"; "TB"].

(** [while (v >= 1024 && i < units.length - 1) { v /= 1024; i++; }]: the
    body runs at most [units.length - 1] times, which is the fuel given. *)
Fixpoint scale (fuel : nat) (v : Q) (i : nat) : Q * nat :=
  match fuel with
  | O => (v, i)
  | S fuel' =>
      if Qle_bool (1024 # 1) v && (i <? List.length units - 1)%nat
      then scale fuel' (v / (1024 # 1))%Q (S i)
      else (v, i)
  end.

(** The string of [n] left-padded with zeros to [width] digits. *)
Fixpoint zeros (k : nat) : string :=
  match k with
  | O => EmptyString
  | S k' => String "0" (zeros k')
  end.

Definition padded (width : nat) (n : Z) : string :=
  let d := Js.showZ n in
  zeros (width - String.length d) ++ d.

(** [x.toFixed(f)] for [0 <= x < 10^21]: the integer nearest to
    [x * 10^f], the larger one of two, printed with a point before its last
    [f] digits. *)
Definition toFixed (x : Q) (f : nat) : string :=
  let n := Qfloor (x * inject_Z (10 ^ Z.of_nat f) + (1 # 2))%Q in
  match f with
  | O => Js.showZ n
  | S _ =>
      Js.showZ (n / 10 ^ Z.of_nat f) ++ "." ++ padded f (n mod 10 ^ Z.of_nat f)
  end.

(** [fmtBytes(bytes)] for a finite [bytes]; zero is the finite number for
    which [!bytes] holds. *)
Definition fmtBytes (bytes : Q) : string :=
  if Qle_bool bytes 0 then "0 B"
  else
    let '(v, i) := scale (List.length units - 1) bytes 0 in
    let decimals :=
      if negb (Qle_bool (10 # 1) v) && (0 <? i)%nat then 1%nat else 0%nat in
    toFixed v decimals ++ " " ++ nth i units EmptyString.

(** [1024^i], the size of the [i]-th unit. *)
Fixpoint kibi (i : nat) : Q :=
  match i with
  | O => 1%Q
  | S k => ((1024 # 1) * kibi k)%Q
  end.

End Format.

(** ** Keeping the highlighted row in view

    [ensureActiveVisible] of both downloader files; the PathUploader has
    the same statements inline in [renderDropdown]. *)

Module Scroll.

(** A row of the dropdown: [offsetTop] and [offsetHeight]. *)
Record Row : Type := mkRow {
  offsetTop : Z;
  offsetHeight : Z
}.

(** The dropdown as a scroll container. *)
Record Box : Type := mkBox {
  children : list Row;
  scrollTop : Z;
  clientHeight : Z;
  scrollHeight : Z
}.

(** [dropdown.scrollTop = v]: the element keeps the nearest position it
    can scroll to, between 0 and [scrollHeight - clientHeight]. *)
Definition set_scrollTop (v : Z) (d : Box) : Box :=
  mkBox (children d)
    (Z.max 0 (Z.min v (scrollHeight d - clientHeight d)))
    (clientHeight d) (scrollHeight d).

Definition ensureActiveVisible (dropdown : Box) (activeIndex : Z) : Box :=
  if (activeIndex <? 0) || (Dom.length_Z (children dropdown) <=? activeIndex)
  then dropdown
  else
    match nth_error (children dropdown) (Z.to_nat activeIndex) with
    | None => dropdown
    | Some el =>
        let top := offsetTop el in
        let bottom := top + offsetHeight el in
        let viewTop := scrollTop dropdown in
        let viewBottom := viewTop + clientHeight dropdown in
        if top <? viewTop then set_scrollTop top dropdown
        else if viewBottom <? bottom
             then set_scrollTop (bottom - clientHeight dropdown) dropdown
             else dropdown
    end.

(** A row lies within what the box shows. *)
Definition inView (el : Row) (d : Box) : Prop :=
  scrollTop d <= offsetTop el /\
  offsetTop el + offsetHeight el <= scrollTop d + clientHeight d.

(** The geometry a laid-out dropdown has: rows inside the content, the
    scroll position one the box can be at. *)
Definition laidOut (d : Box) : Prop :=
  0 <= clientHeight d <= scrollHeight d /\
  0 <= scrollTop d <= scrollHeight d - clientHeight d /\
  Forall (fun el => 0 <= offsetTop el /\ 0 <= offsetHeight el /\
                    offsetTop el + offsetHeight el <= scrollHeight d)
         (children d).

End Scroll.

(** ** The token box

    The token input of the downloaders and the automatic token:
    [resolveAndApplyToken] and the "input" listener of
    [js/aria2_downloader.js], the [/hf/token] callback and the listener of
    [js/hf_hub_downloader.js]; both test and assign the same way. *)

Module Token.
Import Dom Js.Notations.

Record State : Type := mkState {
  tokenValue : string;      (* tokenInput.value *)
  propToken : Js.json;      (* this.properties.token *)
  autoToken : bool          (* this._autoToken *)
}.

(** [onNodeCreated] with the persisted [properties.token || ""]. *)
Definition init (p : string) : State :=
  mkState p (Js.JStr p) (Str.blank (Str.trim p)).

(** The "input" listener of the token box, the edit being [v]. *)
Definition onInput (v : string) (s : State) : State :=
  mkState v (Js.JStr v) false.

(** [(data && data.token) ? data.token : ""] of the response. *)
Definition tokenOf (r : HttpResult) : Js.result Js.value :=
  resp <- awaitFetch r ;;
  data <- awaitJson resp ;;
  Js.ret (if Js.truthy (Some data) && Js.truthy (Js.prop data "token")
          then Js.prop data "token"
          else Some (Js.JStr EmptyString)).

(** The rest of [resolveAndApplyToken], from the response on; what is
    thrown is swallowed.  [tokenInput.value = tok] converts [tok] to a
    string, and when that throws the property and the flag are not
    reached.  The box drops the line breaks of a text assigned to it:
    what is stated of this function is stated for a token without line
    breaks ([singleLine] below). *)
Definition applyToken (r : HttpResult) (s : State) : State :=
  match Js.try_catch (tokenOf r) None with
  | Some tok =>
      if Js.truthy (Some tok)
         && (autoToken s || Str.blank (Str.trim (tokenValue s)))
      then
        match Js.jsonToString tok with
        | inr text => mkState text tok true
        | inl _ => s
        end
      else s
  | None => s
  end.

(** A text without CR or LF, as an input element holds it. *)
Fixpoint singleLine (s : string) : bool :=
  match s with
  | EmptyString => true
  | String c rest =>
      negb ((nat_of_ascii c =? 10)%nat || (nat_of_ascii c =? 13)%nat)
      && singleLine rest
  end.

End Token.

(** ** More predicates on the field *)

Module Props.
Import Dom.

(** The host writing the property, the one event that is not the
    field's own doing. *)
Definition isHostWrite (e : Event) : bool :=
  match e with
  | HostSetProperty _ => true
  | _ => false
  end.

(** A request the field may send: the one for the root, or a lookup of a
    path that is not empty and has no backslash, nor, where runs of slashes
    are collapsed, a doubled slash. *)
Definition cleanRequest (collapsed : bool) (rq : Request) : Prop :=
  match rq with
  | Listdir None => True
  | Listdir (Some v) =>
      Str.blank v = false /\ Str.hasBackslash v = false /\
      (collapsed = true -> Str.hasDoubleSlash v = false)
  end.

(** [s.startsWith("/")] *)
Definition startsWithSlash (s : string) : bool :=
  match s with
  | String c _ => Str.is_slash c
  | EmptyString => false
  end.


(** The overlay is shown only to a field that has focus. *)
Definition shown_with_focus {K : Type} (s : State K) : Prop :=
  display s = true -> focused s = true.

(** What an arrow key makes of [active] among [n] rows. *)
Definition next (n a : Z) : Z := if a =? n - 1 then 0 else a + 1.
Definition prev (n a : Z) : Z := if a =? 0 then n - 1 else a - 1.



End Props.

(** ** Starting, polling and stopping a download

    The control state of a download in the two downloader widgets, the
    listeners of the Download and Stop buttons and [poll]:
    [js/aria2_downloader.js] and [js/hf_hub_downloader.js].  The state is
    [this.gid], the two buttons, the poll timers, and the requests.  The
    status line, the elapsed time and the numbers the canvas draws are
    written by the same listeners and read by none of their tests: they
    are no part of the state, but where writing them converts a value of
    the response to a string the conversion is made, since it can throw
    inside the [try].  The node stays on the canvas: [onRemoved], which
    clears the poll timer armed last, is not among the events. *)

Module Transfer.
Import Dom.

(** Where an [async] function of the buttons is suspended. *)
Inductive Cont : Type :=
| StartK    (* the click listener of Download, at [await api.fetchApi] *)
| PollK     (* poll, at [await api.fetchApi] *)
| StopK.    (* the click listener of Stop, at [await api.fetchApi] *)

Inductive Request : Type :=
| Start (body : list (string * string))  (* POST .../start, the JSON body *)
| Status (gid : string)                  (* GET .../status?gid=<gid> *)
| Stop (gid : Js.value).                 (* POST .../stop with the body {gid} *)

Record State : Type := mkState {
  gid : Js.value;                 (* this.gid *)
  downloadDisabled : bool;        (* downloadBtn.disabled *)
  stopDisabled : bool;            (* stopBtn.disabled *)
  pollTimer : option nat;         (* this._pollTimer *)
  timers : list (nat * nat);      (* armed poll timers: id and due time *)
  nextTimer : nat;
  now : nat;
  inflight : list Cont;
  sent : list Request
}.

(** What the user does and what the host delivers; [B] holds the texts
    of the boxes the Download listener reads. *)
Inductive Event (B : Type) : Type :=
| DownloadClick (boxes : B)
| StopClick
| Elapse (d : nat)
| TimerFire (id : nat)
| Response (n : nat) (r : HttpResult).
Arguments DownloadClick {B}.
Arguments StopClick {B}.
Arguments Elapse {B}.
Arguments TimerFire {B}.
Arguments Response {B}.

Definition set_gid (g : Js.value) (s : State) : State :=
  mkState g (downloadDisabled s) (stopDisabled s) (pollTimer s) (timers s)
    (nextTimer s) (now s) (inflight s) (sent s).

Definition set_now (t : nat) (s : State) : State :=
  mkState (gid s) (downloadDisabled s) (stopDisabled s) (pollTimer s) (timers s)
    (nextTimer s) t (inflight s) (sent s).

Definition set_inflight (l : list Cont) (s : State) : State :=
  mkState (gid s) (downloadDisabled s) (stopDisabled s) (pollTimer s) (timers s)
    (nextTimer s) (now s) l (sent s).

(** [setDownloading(on)] *)
Definition setDownloading (on : bool) (s : State) : State :=
  mkState (gid s) on (negb on) (pollTimer s) (timers s)
    (nextTimer s) (now s) (inflight s) (sent s).

(** [api.fetchApi(...)] up to the [await]. *)
Definition fetchApi (rq : Request) (k : Cont) (s : State) : State :=
  mkState (gid s) (downloadDisabled s) (stopDisabled s) (pollTimer s) (timers s)
    (nextTimer s) (now s) (inflight s ++ [k]) (sent s ++ [rq]).

(** [this._pollTimer = setTimeout(poll, delay)] *)
Definition armPoll (delay : nat) (s : State) : State :=
  mkState (gid s) (downloadDisabled s) (stopDisabled s) (Some (nextTimer s))
    (timers s ++ [(nextTimer s, now s + delay)%nat])
    (S (nextTimer s)) (now s) (inflight s) (sent s).

(** The armed timer with a given id that is due. *)
Definition dueTimer (id : nat) (s : State) : option (nat * nat) :=
  find (fun t => Nat.eqb (fst t) id && Nat.leb (snd t) (now s)) (timers s).

(** A timer that fires leaves the table. *)
Definition fired (id : nat) (s : State) : State :=
  mkState (gid s) (downloadDisabled s) (stopDisabled s) (pollTimer s)
    (filter (fun t => negb (Nat.eqb (fst t) id)) (timers s))
    (nextTimer s) (now s) (inflight s) (sent s).

(** [resp.ok]: a status from 200 to 299. *)
Definition respOk (resp : nat * option Js.json) : bool :=
  ((200 <=? fst resp) && (fst resp <=? 299))%nat.

(** [poll] up to its [await]: [if (!this.gid) return;], then, inside the
    [try], the status request for [encodeURIComponent(this.gid)]; when the
    conversion of [this.gid] to a string throws, no request is made and the
    [catch] arms the timer, [retry] ms ahead.  The strings of the model
    hold no surrogate, so the encoding itself does not throw; the request
    is recorded with the text before encoding. *)
Definition poll (retry : nat) (s : State) : State :=
  if Js.truthy (gid s) then
    match Js.toString (gid s) with
    | inr g => fetchApi (Status g) PollK s
    | inl _ => armPoll retry s
    end
  else s.

(** The Stop listener up to its [await]; [JSON.stringify] of a value read
    from JSON does not throw. *)
Definition onStopClick (s : State) : State :=
  if Js.truthy (gid s) then fetchApi (Stop (gid s)) StopK s
  else setDownloading false s.

(** The Stop listener from the response on: [try], [catch] and
    [finally] differ in the status line only. *)
Definition onStopResponse (r : HttpResult) (s : State) : State :=
  setDownloading false (set_gid (Some Js.JNull) s).

(** [onNodeCreated]: no download, Download enabled, Stop disabled. *)
Definition init : State :=
  mkState (Some Js.JNull) false true None [] 1%nat 0%nat [] [].

End Transfer.

(** *** The Aria2 widget *)

Module Aria2.
Import Dom Transfer Js.Notations.

(** The texts of the boxes the Download listener reads. *)
Record Boxes : Type := mkBoxes {
  url : string;      (* urlInput.value *)
  dest : string;     (* destInput.value *)
  token : string     (* tokenInput.value *)
}.

(** The [catch] of [poll] arms it again 500 ms ahead. *)
Definition poll (s : State) : State := Transfer.poll 500 s.

(** The Download listener up to its [await]. *)
Definition onDownloadClick (b : Boxes) (s : State) : State :=
  if Js.truthy (gid s) then s
  else
    let url := Str.trim (url b) in
    let dest := Str.trim (dest b) in
    let token := Str.trim (token b) in
    if Str.blank url then s
    else
      fetchApi (Start [("url", url); ("dest_dir", dest); ("token", token)]) StartK
        (setDownloading true s).

(** The [try] block of the Download listener from the response on, up to
    the test [!resp.ok || data.error]: the body of a response that starts
    a download, or [None] for the branch of the test.  That branch may
    throw while it builds the status line; the [catch] then calls
    [setDownloading(false)] as the branch would have. *)
Definition started (r : HttpResult) : Js.result (option Js.json) :=
  resp <- awaitFetch r ;;
  data <- awaitJson resp ;;
  failed <- (if negb (respOk resp) then Js.ret true
             else e <- Js.member (Some data) "error" ;; Js.ret (Js.truthy e)) ;;
  if failed then Js.ret None else Js.ret (Some data).

(** ["Active" + (data.strategy ? " (" + data.strategy + ")" : "")], the
    status line written after [this.gid = data.gid]. *)
Definition activeLine (data : Js.json) : Js.result string :=
  if Js.truthy (Js.prop data "strategy")
  then
    strategy <- Js.toString (Js.prop data "strategy") ;;
    Js.ret ("Active (" ++ strategy ++ ")")
  else Js.ret "Active".

(** The Download listener from the response on.  When the status line
    throws, [this.gid] is set already and [poll()] is not reached: the
    [catch] calls [setDownloading(false)] and that is all. *)
Definition onStartResponse (r : HttpResult) (s : State) : State :=
  match started r with
  | inr (Some data) =>
      let s := set_gid (Js.prop data "gid") s in
      match activeLine data with
      | inr _ => poll s
      | inl _ => setDownloading false s
      end
  | inr None => setDownloading false s
  | inl _ => setDownloading false s
  end.

(** [["complete", "error", "removed"].includes(status)] *)
Definition isFinal (status : Js.value) : bool :=
  match status with
  | Some (Js.JStr t) =>
      String.eqb t "complete" || String.eqb t "error" || String.eqb t "removed"
  | _ => false
  end.

(** The [try] block of [poll] from the response on: whether the download
    is over, by [s.error] or by a final [s.status || "active"].  Both
    status lines, ["Error: " + s.error] and ["Status: " + this._status],
    are built before [this.gid] is touched. *)
Definition polled (r : HttpResult) : Js.result bool :=
  resp <- awaitFetch r ;;
  st <- awaitJson resp ;;
  e <- Js.member (Some st) "error" ;;
  if Js.truthy e then
    line <- Js.toString e ;;
    Js.ret true
  else
    let status := Js.or_else (Js.prop st "status") (Some (Js.JStr "active")) in
    line <- Js.toString status ;;
    Js.ret (isFinal status).

Definition onPollResponse (r : HttpResult) (s : State) : State :=
  match polled r with
  | inr true => setDownloading false (set_gid (Some Js.JNull) s)
  | inr false => armPoll 500 s
  | inl _ => armPoll 500 s
  end.

Definition resume (k : Cont) (r : HttpResult) (s : State) : State :=
  match k with
  | StartK => onStartResponse r s
  | PollK => onPollResponse r s
  | StopK => onStopResponse r s
  end.

(** One event.  A disabled button takes no click; a timer fires once it
    is armed and due; a response settles a request in flight. *)
Definition step (s : State) (e : Event Boxes) : State :=
  match e with
  | DownloadClick b => if downloadDisabled s then s else onDownloadClick b s
  | StopClick => if stopDisabled s then s else onStopClick s
  | Elapse d => set_now (now s + d)%nat s
  | TimerFire id =>
      match dueTimer id s with
      | Some _ => poll (fired id s)
      | None => s
      end
  | Response n r =>
      match nth_error (inflight s) n with
      | Some k => resume k r (set_inflight (remove_nth n (inflight s)) s)
      | None => s
      end
  end.

Definition run (s : State) (es : list (Event Boxes)) : State := fold_left step es s.

Inductive reachable : State -> Prop :=
| reach_init : reachable init
| reach_step s e : reachable s -> reachable (step s e).

End Aria2.

(** *** The Hugging Face widget *)

Module HfHub.
Import Dom Transfer Js.Notations.

Record Boxes : Type := mkBoxes {
  repo_id : string;     (* repoInput.value *)
  filename : string;    (* fileInput.value *)
  dest_dir : string;    (* destInput.value *)
  token : string        (* tokenInput.value *)
}.

(** The [catch] of [poll] arms it again 1100 ms ahead. *)
Definition poll (s : State) : State := Transfer.poll 1100 s.

Definition onDownloadClick (b : Boxes) (s : State) : State :=
  if Js.truthy (gid s) then s
  else
    let repo_id := Str.trim (repo_id b) in
    let filename := Str.trim (filename b) in
    let dest_dir := Str.trim (dest_dir b) in
    let token := Str.trim (token b) in
    if Str.blank repo_id || Str.blank filename || Str.blank dest_dir then s
    else
      fetchApi (Start [("repo_id", repo_id); ("filename", filename);
                       ("dest_dir", dest_dir); ("token_input", token)]) StartK
        (setDownloading true s).

(** The [try] block of the Download listener from the response on, up to
    [this.gid = out.gid]; [None] is the branch of [!res.ok || !out.ok],
    which the [catch] agrees with on the buttons.  The status line written
    after the assignment is a constant. *)
Definition started (r : HttpResult) : Js.result (option Js.value) :=
  res <- awaitFetch r ;;
  out <- awaitJson res ;;
  failed <- (if negb (respOk res) then Js.ret true
             else ok <- Js.member (Some out) "ok" ;; Js.ret (negb (Js.truthy ok))) ;;
  if failed then Js.ret None
  else g <- Js.member (Some out) "gid" ;; Js.ret (Some g).

Definition onStartResponse (r : HttpResult) (s : State) : State :=
  match Js.try_catch (started r) None with
  | Some g => poll (set_gid g s)
  | None => setDownloading false s
  end.

(** [s.state === "done" || s.state === "error" || s.state === "stopped"] *)
Definition isFinal (state : Js.value) : bool :=
  match state with
  | Some (Js.JStr t) =>
      String.eqb t "done" || String.eqb t "error" || String.eqb t "stopped"
  | _ => false
  end.

(** The [try] block of [poll] from the response on: whether the download
    is over, by [!s.ok] or by a final [s.state].  The status line,
    ["Error: " + (s.error || "Unknown")] or [s.msg || s.state || "running"],
    is written before [this.gid] is touched. *)
Definition polled (r : HttpResult) : Js.result bool :=
  res <- awaitFetch r ;;
  st <- awaitJson res ;;
  ok <- Js.member (Some st) "ok" ;;
  if negb (Js.truthy ok) then
    line <- Js.toString (Js.or_else (Js.prop st "error") (Some (Js.JStr "Unknown"))) ;;
    Js.ret true
  else
    line <- Js.toString
              (Js.or_else (Js.or_else (Js.prop st "msg") (Js.prop st "state"))
                 (Some (Js.JStr "running"))) ;;
    Js.ret (isFinal (Js.prop st "state")).

Definition onPollResponse (r : HttpResult) (s : State) : State :=
  match polled r with
  | inr true => setDownloading false (set_gid (Some Js.JNull) s)
  | inr false => armPoll 900 s
  | inl _ => armPoll 1100 s
  end.

Definition resume (k : Cont) (r : HttpResult) (s : State) : State :=
  match k with
  | StartK => onStartResponse r s
  | PollK => onPollResponse r s
  | StopK => onStopResponse r s
  end.

Definition step (s : State) (e : Event Boxes) : State :=
  match e with
  | DownloadClick b => if downloadDisabled s then s else onDownloadClick b s
  | StopClick => if stopDisabled s then s else onStopClick s
  | Elapse d => set_now (now s + d)%nat s
  | TimerFire id =>
      match dueTimer id s with
      | Some _ => poll (fired id s)
      | None => s
      end
  | Response n r =>
      match nth_error (inflight s) n with
      | Some k => resume k r (set_inflight (remove_nth n (inflight s)) s)
      | None => s
      end
  end.

Definition run (s : State) (es : list (Event Boxes)) : State := fold_left step es s.

Inductive reachable : State -> Prop :=
| reach_init : reachable init
| reach_step s e : reachable s -> reachable (step s e).

End HfHub.

(** *** Predicates on the control state *)

Module TransferProps.
Import Dom Transfer.

(** A poll is pending: its request is in flight or its timer is armed. *)
Definition polling (s : State) : Prop :=
  In PollK (inflight s) \/ timers s <> [].

(** Nothing goes on: no download and no start request under way. *)
Definition idle (s : State) : Prop :=
  Js.truthy (gid s) = false /\ ~ In StartK (inflight s).

(** A download that is on is polled, and one button is enabled. *)
Definition alive (s : State) : Prop :=
  (Js.truthy (gid s) = true -> polling s) /\
  stopDisabled s = negb (downloadDisabled s).

(** Timer ids are used once. *)
Definition fresh (s : State) : Prop :=
  forall t, In t (timers s) -> (fst t < nextTimer s)%nat.

(** An event other than a click on Download. *)
Definition noDownload {B : Type} (e : Event B) : bool :=
  match e with
  | DownloadClick _ => false
  | _ => true
  end.

(** A value that converts to a string. *)
Definition printable (v : Js.value) : bool :=
  match Js.toString v with
  | inr _ => true
  | inl _ => false
  end.

(** A response whose [strategy], if it has one, converts to a string:
    what the Aria2 start answer needs for its status line. *)
Definition plainStrategy (r : HttpResult) : bool :=
  match r with
  | Http _ (Some data) => printable (Js.prop data "strategy")
  | _ => true
  end.

Definition plainEvent {B : Type} (e : Event B) : bool :=
  match e with
  | Response _ r => plainStrategy r
  | _ => true
  end.

(** A response [poll] cannot read: the fetch was rejected, the body is
    not JSON, or it is [null]. *)
Definition unreadable (r : HttpResult) : bool :=
  match r with
  | NetworkError => true
  | Http _ None => true
  | Http _ (Some Js.JNull) => true
  | Http _ (Some _) => false
  end.

End TransferProps.

(** * Facts about the string functions *)

Module StrFacts.
Import Str.

Lemma slash_not_backslash : is_backslash slash = false.
Proof. reflexivity. Qed.

Lemma is_slash_eq c : is_slash c = true -> c = slash.
Proof. unfold is_slash. apply Ascii.eqb_eq. Qed.

Lemma replaceBackslashes_clean s : hasBackslash (replaceBackslashes s) = false.
Proof.
  induction s as [|c rest IH]; simpl; [reflexivity|].
  rewrite IH, orb_false_r.
  destruct (is_backslash c) eqn:E; [apply slash_not_backslash | exact E].
Qed.

Lemma replaceBackslashes_fix s :
  hasBackslash s = false -> replaceBackslashes s = s.
Proof.
  induction s as [|c rest IH]; simpl; [reflexivity|].
  intros H. apply orb_false_iff in H as [Hc Hr].
  rewrite Hc, IH by assumption. reflexivity.
Qed.

Lemma replaceBackslashes_length s :
  String.length (replaceBackslashes s) = String.length s.
Proof. induction s; simpl; congruence. Qed.

Lemma collapseSlashes_cons c rest :
  collapseSlashes (String c rest) =
  if is_slash c then
    match rest with
    | String c' _ =>
        if is_slash c' then collapseSlashes rest
        else String c (collapseSlashes rest)
    | EmptyString => String c EmptyString
    end
  else String c (collapseSlashes rest).
Proof. reflexivity. Qed.

Lemma hasBackslash_cons c rest :
  hasBackslash (String c rest) = is_backslash c || hasBackslash rest.
Proof. reflexivity. Qed.

Lemma hasDoubleSlash_cons2 c c' rest :
  hasDoubleSlash (String c (String c' rest)) =
  (is_slash c && is_slash c') || hasDoubleSlash (String c' rest).
Proof. reflexivity. Qed.

Lemma collapseSlashes_keeps_clean s :
  hasBackslash s = false -> hasBackslash (collapseSlashes s) = false.
Proof.
  induction s as [|c rest IH]; [reflexivity|].
  rewrite hasBackslash_cons, collapseSlashes_cons.
  intros H. apply orb_false_iff in H as [Hc Hr].
  specialize (IH Hr).
  destruct (is_slash c); [destruct rest as [|c' r']; cbv beta match|].
  - rewrite hasBackslash_cons, Hc. reflexivity.
  - destruct (is_slash c'); [exact IH|].
    rewrite hasBackslash_cons, Hc. exact IH.
  - rewrite hasBackslash_cons, Hc. exact IH.
Qed.

(** The head of a collapsed string is the head of the string, unless the
    string starts with a run of slashes, and then it is a slash. *)
Lemma collapseSlashes_head c rest :
  exists tail, collapseSlashes (String c rest) = String c tail.
Proof.
  revert c. induction rest as [|c' r' IH]; intros c; simpl.
  - destruct (is_slash c); eexists; reflexivity.
  - destruct (is_slash c) eqn:Ec; [destruct (is_slash c') eqn:Ec'|].
    + destruct (IH c') as [tail Ht].
      apply is_slash_eq in Ec, Ec'. subst.
      exists tail. exact Ht.
    + eexists; reflexivity.
    + eexists; reflexivity.
Qed.

Lemma collapseSlashes_single s : hasDoubleSlash (collapseSlashes s) = false.
Proof.
  induction s as [|c rest IH]; [reflexivity|].
  rewrite collapseSlashes_cons.
  destruct rest as [|c' r']; cbv beta match.
  - destruct (is_slash c); reflexivity.
  - destruct (collapseSlashes_head c' r') as [tail Ht].
    destruct (is_slash c) eqn:Ec; [destruct (is_slash c') eqn:Ec'|].
    + exact IH.
    + rewrite Ht in *. rewrite hasDoubleSlash_cons2, Ec', andb_false_r. exact IH.
    + rewrite Ht in *. rewrite hasDoubleSlash_cons2, Ec. exact IH.
Qed.

Lemma collapseSlashes_fix s :
  hasDoubleSlash s = false -> collapseSlashes s = s.
Proof.
  induction s as [|c rest IH]; [reflexivity|].
  rewrite collapseSlashes_cons.
  destruct rest as [|c' r']; cbv beta match.
  - destruct (is_slash c); reflexivity.
  - rewrite hasDoubleSlash_cons2. intros H.
    apply orb_false_iff in H as [Hcc Hr].
    rewrite (IH Hr).
    destruct (is_slash c); [|reflexivity].
    simpl in Hcc. now rewrite Hcc.
Qed.

Lemma collapseSlashes_length s :
  (String.length (collapseSlashes s) <= String.length s)%nat.
Proof.
  induction s as [|c rest IH]; [simpl; lia|].
  rewrite collapseSlashes_cons.
  destruct (is_slash c); [destruct rest as [|c' r']; cbv beta match|].
  - simpl; lia.
  - destruct (is_slash c'); cbn [String.length] in *; lia.
  - cbn [String.length]; lia.
Qed.

(** The structural definition is the replacement the regular expression
    describes. *)
Lemma skipSlashes_length s : (String.length (skipSlashes s) <= String.length s)%nat.
Proof.
  induction s as [|c rest IH]; simpl; [lia|].
  destruct (is_slash c); simpl; lia.
Qed.

Lemma skipSlashes_cons c rest :
  skipSlashes (String c rest) = if is_slash c then skipSlashes rest else String c rest.
Proof. reflexivity. Qed.

Lemma collapse_skip c rest :
  is_slash c = true ->
  collapseSlashes (String c rest) = String slash (collapseSlashes (skipSlashes rest)).
Proof.
  intros Hc. revert c Hc. induction rest as [|c' r' IH]; intros c Hc.
  - simpl. rewrite Hc. apply is_slash_eq in Hc. now subst.
  - rewrite collapseSlashes_cons, skipSlashes_cons, Hc.
    destruct (is_slash c') eqn:Ec'.
    + apply (IH c' Ec').
    + apply is_slash_eq in Hc. subst c. reflexivity.
Qed.

Lemma replaceSlashRuns_succ fuel c rest :
  replaceSlashRuns (S fuel) (String c rest) =
  if is_slash c then
    match rest with
    | String c' _ =>
        if is_slash c'
        then String slash (replaceSlashRuns fuel (skipSlashes rest))
        else String c (replaceSlashRuns fuel rest)
    | EmptyString => String c EmptyString
    end
  else String c (replaceSlashRuns fuel rest).
Proof. reflexivity. Qed.

Lemma replaceSlashRuns_collapse fuel s :
  (String.length s <= fuel)%nat -> replaceSlashRuns fuel s = collapseSlashes s.
Proof.
  revert s. induction fuel as [|fuel IH]; intros s Hlen.
  - destruct s; [reflexivity | simpl in Hlen; lia].
  - destruct s as [|c rest]; [reflexivity|].
    cbn [String.length] in Hlen.
    rewrite replaceSlashRuns_succ.
    destruct (is_slash c) eqn:Ec.
    + destruct rest as [|c' r']; cbv beta match; [simpl; now rewrite Ec|].
      destruct (is_slash c') eqn:Ec'.
      * rewrite IH.
        -- now rewrite (collapse_skip c (String c' r') Ec).
        -- pose proof (skipSlashes_length (String c' r')). lia.
      * rewrite IH by lia.
        rewrite (collapseSlashes_cons c), Ec. cbv beta match. now rewrite Ec'.
    + rewrite IH by lia.
      rewrite (collapseSlashes_cons c), Ec. reflexivity.
Qed.

End StrFacts.

(** * Trimming *)

Module TrimFacts.
Import Str Spec.

Lemma trimStart_parts s :
  exists l, s = (l ++ trimStart s)%string /\ allWhite l = true /\
            startsWhite (trimStart s) = false.
Proof.
  induction s as [|c rest IH].
  - exists EmptyString. repeat split.
  - cbn [trimStart]. destruct (isWhite c) eqn:E.
    + destruct IH as (l & Hl & Hw & Hs). exists (String c l).
      cbn [append allWhite]. rewrite E, Hw, <- Hl. repeat split. exact Hs.
    + exists EmptyString. cbn. rewrite E. repeat split.
Qed.

Lemma trimEnd_parts u :
  exists r, u = (trimEnd u ++ r)%string /\ allWhite r = true /\
            endsWhite (trimEnd u) = false /\
            (startsWhite u = false -> startsWhite (trimEnd u) = false).
Proof.
  induction u as [|c rest IH].
  - exists EmptyString. repeat split.
  - destruct IH as (r & Hr & Hw & He & _). cbn [trimEnd].
    destruct (isWhite c && blank (trimEnd rest)) eqn:E.
    + apply andb_true_iff in E as [Ec Eb].
      destruct (trimEnd rest) as [|c' t]; [|discriminate].
      cbn [append] in Hr. subst rest.
      exists (String c r). cbn [append allWhite startsWhite endsWhite]. rewrite Ec, Hw.
      split; [reflexivity|]. split; [reflexivity|]. split; [reflexivity|].
      discriminate.
    + exists r. cbn [append]. rewrite <- Hr. split; [reflexivity|].
      split; [exact Hw|]. split; [|intros H; exact H].
      destruct (trimEnd rest) as [|c' t] eqn:Et.
      * cbn. cbn in E. now rewrite andb_true_r in E.
      * rewrite <- He. reflexivity.
Qed.

(** [Str.trim] is the trimming of the specification. *)
Lemma trim_trims raw : trims raw (trim raw).
Proof.
  unfold trim, trims.
  destruct (trimStart_parts raw) as (l & Hl & Hwl & Hs).
  destruct (trimEnd_parts (trimStart raw)) as (r & Hr & Hwr & He & Hs').
  exists l, r. rewrite <- Hr. repeat split; auto.
Qed.

Lemma trimEnd_fix t : endsWhite t = false -> trimEnd t = t.
Proof.
  induction t as [|c rest IH]; [reflexivity|].
  intros H. cbn [trimEnd]. destruct rest as [|c' r'].
  - cbn in *. now rewrite H.
  - rewrite IH by exact H. cbn [blank]. now rewrite andb_false_r.
Qed.

Lemma trim_fix t : startsWhite t = false -> endsWhite t = false -> trim t = t.
Proof.
  intros Hs He. unfold trim.
  assert (E : trimStart t = t) by (destruct t; [reflexivity | cbn in *; now rewrite Hs]).
  rewrite E. now apply trimEnd_fix.
Qed.

End TrimFacts.

(** * The definitions on small inputs *)

Module Checks.
Import Dom.

Example normalize_windows :
  Downloader.normalize "C:\Users\\me//x" = "C:/Users/me/x".
Proof. reflexivity. Qed.

Example normalize_run : Downloader.normalize "a////b/" = "a/b/".
Proof. reflexivity. Qed.

Example normalizePath_keeps_runs :
  PathUploader.normalizePath "C:\Users\\me" = "C:/Users//me".
Proof. reflexivity. Qed.

Example replaceSlashRuns_run :
  Str.replaceSlashRuns 7 "a////b/" = Str.collapseSlashes "a////b/".
Proof. reflexivity. Qed.

Example trim_both : Str.trim "  /srv/app  " = "/srv/app".
Proof. reflexivity. Qed.

Example trim_blank : Str.trim "   " = EmptyString.
Proof. reflexivity. Qed.

Example joinPath_plain :
  PathUploader.joinPath (Some (Js.JStr "C:\Users")) (Some (Js.JStr "me"))
  = inr "C:/Users/me".
Proof. reflexivity. Qed.

Example joinPath_trailing :
  PathUploader.joinPath (Some (Js.JStr "/")) (Some (Js.JStr "usr")) = inr "/usr".
Proof. reflexivity. Qed.

Example joinPath_no_name :
  PathUploader.joinPath (Some (Js.JStr "/srv")) None = inr "/srv".
Proof. reflexivity. Qed.

Example joinPath_number :
  PathUploader.joinPath (Some (Js.JStr "/srv")) (Some (Js.JNum 7 eq_refl)) = inl Js.TypeError.
Proof. reflexivity. Qed.

Example toString_array :
  Js.toString
    (Some (Js.JArr [Js.JNum 1 eq_refl; Js.JNull; Js.JStr "a"; Js.JArr [Js.JBool true]]))
  = inr "1,,a,true".
Proof. reflexivity. Qed.

Example toString_object : Js.toString (Some (Js.JObj [("name", Js.JStr "a")]))
  = inr "[object Object]".
Proof. reflexivity. Qed.

Example toString_own_toString :
  Js.toString (Some (Js.JArr [Js.JStr "a"; Js.JObj [("toString", Js.JNum 5 eq_refl)]]))
  = inl Js.TypeError.
Proof. reflexivity. Qed.

Example listing_null_folder :
  Downloader.listing "/srv"
    (Http 200 (Some (Js.JObj [("ok", Js.JBool true); ("folders", Js.JArr [Js.JNull])])))
  = inl Js.TypeError.
Proof. reflexivity. Qed.

Example listing_nameless_folder :
  Downloader.listing "/srv"
    (Http 200 (Some (Js.JObj [("ok", Js.JNum 1 eq_refl);
                              ("folders", Js.JArr [Js.JObj []])])))
  = inr [mkItem None "/srv/undefined"].
Proof. reflexivity. Qed.

(** A folder whose name does not convert to a string: building the path
    throws, and [fetchChildren] ends with no suggestions. *)
Example listing_unprintable_name :
  Downloader.listing "/srv"
    (Http 200
       (Some (Js.JObj
                [("ok", Js.JBool true);
                 ("folders",
                  Js.JArr [Js.JObj [("name", Js.JObj [("toString", Js.JNum 5 eq_refl)])]])])))
  = inl Js.TypeError.
Proof. reflexivity. Qed.

(** In the PathUploader an arrow key pressed while the overlay is hidden
    awaits [fetchChildren] and then goes on to [renderDropdown] without
    looking at the focus: the overlay opens although the field was blurred
    in between. *)
Example arrow_key_opens_after_blur :
  let s := PathUploader.run (PathUploader.init "/srv")
             [Focus; KeyDown ArrowDown; Blur;
              Response 1 (Http 200 (Some (Spec.listdirOk None ["a"; "b"])))] in
  focused s = false /\ display s = true /\ active s = 1.
Proof. vm_compute. repeat split; reflexivity. Qed.

(** The Aria2 start answer whose [strategy] has a [toString] of its own:
    [this.gid] is set, the status line throws, [poll()] is not reached. *)
Example start_with_unprintable_strategy :
  Aria2.run Transfer.init
    [Transfer.DownloadClick (Aria2.mkBoxes "https://example.org/f.bin" "/data" EmptyString);
     Transfer.Response 0
       (Http 200 (Some (Js.JObj [("gid", Js.JStr "abc");
                                 ("strategy", Js.JObj [("toString", Js.JNull)])])))]
  = Transfer.mkState (Some (Js.JStr "abc")) false true None [] 1%nat 0%nat []
      [Transfer.Start [("url", "https://example.org/f.bin"); ("dest_dir", "/data");
                       ("token", EmptyString)]].
Proof. reflexivity. Qed.

(** A status answer of the Hugging Face widget whose [msg] cannot be
    written to the status line, although its [state] is final. *)
Example hf_polled_unprintable_msg :
  HfHub.polled
    (Http 200 (Some (Js.JObj [("ok", Js.JBool true);
                              ("msg", Js.JObj [("toString", Js.JNull)]);
                              ("state", Js.JStr "done")])))
  = inl Js.TypeError.
Proof. reflexivity. Qed.

Example aria2_polled_complete :
  Aria2.polled (Http 200 (Some (Js.JObj [("status", Js.JStr "complete")]))) = inr true.
Proof. reflexivity. Qed.

End Checks.

(** * The invariant of the dropdown *)

Module DomFacts.
Import Dom Spec.

Ltac destruct_state s :=
  let v := fresh "v" in let c := fresh "c" in let dd := fresh "dd" in
  let f := fresh "f" in let its := fresh "its" in let a := fresh "a" in
  let dt := fresh "dt" in let disp := fresh "disp" in let rws := fresh "rws" in
  let tms := fresh "tms" in let nt := fresh "nt" in let nw := fresh "nw" in
  let inf := fresh "inf" in let snt := fresh "snt" in
  destruct s as [v c dd f its a dt disp rws tms nt nw inf snt].

(** Case analysis on whatever a handler branches on. *)
Ltac branch :=
  repeat match goal with
  | |- context [match ?x with _ => _ end] =>
      match type of x with
      | option _ => destruct x eqn:?
      | bool => destruct x eqn:?
      | list _ => destruct x eqn:?
      | sum _ _ => destruct x eqn:?
      | Js.result _ => destruct x eqn:?
      | prod _ _ => destruct x eqn:?
      end; cbn in *
  end.

Ltac finish :=
  unfold Inv, active_ok, rows_ok, same_dropdown, hidden, length_Z in *;
  cbn in *;
  repeat split; intros;
  try discriminate; try congruence; try lia; auto.

Section Generic.
Context {K : Type}.
Implicit Type s : State K.

Lemma Inv_same s s' : same_dropdown s s' -> Inv s -> Inv s'.
Proof.
  unfold same_dropdown, Inv, active_ok, rows_ok, length_Z.
  intros (Hi & Ha & Hd & Hr) H. rewrite Hi, Ha, Hd, Hr. exact H.
Qed.

Lemma same_refl s : same_dropdown s s.
Proof. finish. Qed.

Lemma same_trans s1 s2 s3 :
  same_dropdown s1 s2 -> same_dropdown s2 s3 -> same_dropdown s1 s3.
Proof. unfold same_dropdown. intuition congruence. Qed.

Lemma same_assign_value v s : same_dropdown s (assign_value v s).
Proof. unfold assign_value. destruct (String.eqb v (value s)); finish. Qed.

Lemma same_setSelectionRange pos s : same_dropdown s (setSelectionRange pos s).
Proof. finish. Qed.

Lemma same_clearTimeout id s : same_dropdown s (clearTimeout id s).
Proof. finish. Qed.

Lemma same_clearDebounce s : same_dropdown s (clearDebounce s).
Proof. unfold clearDebounce. destruct (debounceTimer s); finish. Qed.

Lemma same_arm d s : same_dropdown s (arm d s).
Proof. unfold arm, clearDebounce. destruct (debounceTimer s); finish. Qed.

Lemma same_cancelDebounce s : same_dropdown s (cancelDebounce s).
Proof. unfold cancelDebounce. destruct (debounceTimer s); finish. Qed.

Lemma same_fetchApi rq (k : K) s : same_dropdown s (fetchApi rq k s).
Proof. finish. Qed.

Lemma Inv_hidden s : hidden s -> Inv s.
Proof.
  unfold hidden, Inv, active_ok, rows_ok. intros (Hi & Ha & Hd).
  rewrite Hi, Ha, Hd. repeat split; intros; try discriminate; congruence.
Qed.

Lemma rem_next a n : 0 <= a < n -> 0 <= Z.rem (a + 1) n < n.
Proof. intros H. apply Z.rem_bound_pos; lia. Qed.

Lemma rem_prev a n : 0 <= a < n -> 0 <= Z.rem (a - 1 + n) n < n.
Proof. intros H. apply Z.rem_bound_pos; lia. Qed.

End Generic.

End DomFacts.

Module DownloaderFacts.
Import Dom Spec DomFacts Downloader.

Lemma dl_renderDropdown_Inv (s : State) :
  (items s <> [] -> 0 <= active s < length_Z (items s)) -> Inv (renderDropdown s).
Proof.
  destruct_state s. unfold renderDropdown. cbn. intros H.
  destruct its as [|it its']; [finish|].
  assert (Hb := H ltac:(discriminate)). clear H.
  finish.
Qed.

Lemma dl_fetchChildren_resume_Inv val r (s : State) : Inv (fetchChildren_resume val r s).
Proof.
  destruct_state s. unfold fetchChildren_resume, renderDropdown. cbn.
  destruct (Js.try_catch (listing val r) []) as [|it its']; destruct f; finish.
Qed.

Lemma dl_choose_Inv it (s : State) : Inv (choose it s).
Proof.
  unfold choose, scheduleFetch.
  eapply Inv_same; [apply same_arm|].
  apply Inv_hidden. finish.
Qed.

Lemma dl_onInput_same (s : State) : same_dropdown s (onInput s).
Proof.
  unfold onInput, scheduleFetch.
  eapply same_trans; [|apply same_arm].
  unfold assign_value, setSelectionRange.
  destruct (negb _); [destruct (String.eqb _ _)|]; finish.
Qed.

Lemma dl_seed_same root (s : State) : same_dropdown s (seed root s).
Proof.
  unfold seed. eapply same_trans; [|apply same_arm].
  unfold assign_value. destruct (String.eqb _ _); finish.
Qed.

Lemma dl_onFocus_same (s : State) : same_dropdown s (onFocus s).
Proof.
  unfold onFocus, scheduleFetch.
  destruct (_ || _); [apply same_fetchApi | apply same_arm].
Qed.

Lemma dl_onFocus_resume_same r (s : State) : same_dropdown s (onFocus_resume r s).
Proof.
  unfold onFocus_resume, scheduleFetch.
  destruct (Js.try_catch _ _); [destruct (Str.blank _)|];
    auto using dl_seed_same, same_arm.
Qed.

Lemma dl_prefill_resume_same r (s : State) : same_dropdown s (prefill_resume r s).
Proof.
  unfold prefill_resume.
  destruct (Js.try_catch _ _); [destruct (Str.blank _)|];
    auto using dl_seed_same, same_refl.
Qed.

Lemma dl_fetchChildren_Inv (s : State) : Inv s -> Inv (fetchChildren s).
Proof.
  intros H. unfold fetchChildren.
  destruct (Str.blank _).
  - apply dl_renderDropdown_Inv. cbn. congruence.
  - eapply Inv_same; [apply same_fetchApi | exact H].
Qed.

Lemma dl_onKeyDown_Inv k (s : State) : Inv s -> Inv (onKeyDown k s).
Proof.
  intros H. unfold onKeyDown.
  destruct (negb (display s) || (length_Z (items s) =? 0)) eqn:G; [exact H|].
  apply orb_false_iff in G as [_ G]. apply Z.eqb_neq in G.
  assert (Hne : items s <> []) by (intros E; rewrite E in G; now apply G).
  assert (Hidx := proj2 (proj1 H) Hne).
  destruct k.
  - apply dl_renderDropdown_Inv. cbn. intros _. now apply rem_next.
  - apply dl_renderDropdown_Inv. cbn. intros _. now apply rem_prev.
  - destruct (0 <=? active s); [destruct (nth_item _ _)|];
      try apply dl_choose_Inv; exact H.
  - apply Inv_hidden. finish.
  - exact H.
Qed.

Lemma dl_onBlur_Inv (s : State) : Inv (onBlur s).
Proof.
  apply Inv_hidden. unfold onBlur, cancelDebounce.
  destruct (debounceTimer _); finish.
Qed.

Lemma dl_docHandler_Inv (s : State) : Inv (docHandler s).
Proof.
  apply Inv_hidden. unfold docHandler, cancelDebounce.
  destruct (debounceTimer _); finish.
Qed.

Lemma dl_onMouseEnter_Inv idx (s : State) :
  Inv s -> display s = true -> (idx < List.length (rows s))%nat ->
  Inv (onMouseEnter idx s).
Proof.
  intros [_ Hrows] Hd Hidx. destruct (Hrows Hd) as [Hr _].
  apply dl_renderDropdown_Inv. cbn. intros _.
  rewrite Hr in Hidx. unfold length_Z. lia.
Qed.

Lemma dl_step_Inv (s : State) e : Inv s -> Inv (step s e).
Proof.
  intros H. destruct e; cbn [step].
  - eapply Inv_same; [apply dl_onInput_same|]. exact H.
  - eapply Inv_same; [apply dl_onFocus_same|]. exact H.
  - apply dl_onBlur_Inv.
  - now apply dl_onKeyDown_Inv.
  - destruct (display s); [destruct (nth_error _ _)|]; auto using dl_choose_Inv.
  - destruct (display s && _) eqn:G; [|exact H].
    apply andb_true_iff in G as [Hd Hi]. apply Nat.ltb_lt in Hi.
    now apply dl_onMouseEnter_Inv.
  - apply dl_docHandler_Inv.
  - exact H.
  - exact H.
  - destruct (dueTimer id s) as [t|]; [|exact H].
    destruct (cb t); cbn [runCallback].
    + apply dl_fetchChildren_Inv. eapply Inv_same; [apply same_clearTimeout | exact H].
    + eapply Inv_same; [apply same_clearTimeout | exact H].
  - destruct (nth_error _ _) as [k|]; [|exact H].
    destruct k; cbn [resume].
    + apply dl_fetchChildren_resume_Inv.
    + eapply Inv_same; [apply dl_onFocus_resume_same|]. exact H.
    + eapply Inv_same; [apply dl_prefill_resume_same|]. exact H.
Qed.

Lemma dl_init_Inv p : Inv (init p).
Proof. apply Inv_hidden. finish. Qed.

Lemma dl_reachable_Inv p s : reachable p s -> Inv s.
Proof. induction 1; auto using dl_init_Inv, dl_step_Inv. Qed.

End DownloaderFacts.

Module PathUploaderFacts.
Import Dom Spec DomFacts PathUploader.

Lemma pu_renderDropdown_Inv (s : State) :
  (items s <> [] -> 0 <= active s < length_Z (items s)) -> Inv (renderDropdown s).
Proof.
  destruct_state s. unfold renderDropdown. cbn. intros H.
  destruct its as [|it its']; [finish|].
  assert (Hb := H ltac:(discriminate)). clear H.
  finish.
Qed.

Lemma pu_fetchChildren_resume_Inv val r (s : State) : Inv (fetchChildren_resume val r s).
Proof.
  destruct_state s. unfold fetchChildren_resume, renderDropdown. cbn.
  destruct (Js.try_catch (listing val r) []) as [|it its']; destruct f; finish.
Qed.

Lemma pu_choose_Inv it (s : State) : Inv (choose it s).
Proof.
  unfold choose, scheduleFetch.
  eapply Inv_same; [apply same_arm|].
  apply Inv_hidden. finish.
Qed.

Lemma pu_onInput_same (s : State) : same_dropdown s (onInput s).
Proof.
  unfold onInput, scheduleFetch.
  eapply same_trans; [|apply same_arm].
  unfold assign_value, setSelectionRange.
  destruct (negb _); [destruct (String.eqb _ _)|]; finish.
Qed.

Lemma pu_seed_same root (s : State) : same_dropdown s (seed root s).
Proof.
  unfold seed. eapply same_trans; [|apply same_arm].
  unfold assign_value. destruct (String.eqb _ _); finish.
Qed.

Lemma pu_onFocus_same (s : State) : same_dropdown s (onFocus s).
Proof.
  unfold onFocus, scheduleFetch.
  destruct (_ || _); [apply same_fetchApi | apply same_arm].
Qed.

Lemma pu_onFocus_resume_same r (s : State) : same_dropdown s (onFocus_resume r s).
Proof.
  unfold onFocus_resume, scheduleFetch.
  destruct (Js.try_catch _ _); [destruct (Str.blank _)|];
    auto using pu_seed_same, same_arm.
Qed.

Lemma pu_prefill_resume_same r (s : State) : same_dropdown s (prefill_resume r s).
Proof.
  unfold prefill_resume.
  destruct (Js.try_catch _ _); [destruct (Str.blank _)|];
    auto using pu_seed_same, same_refl.
Qed.

Lemma pu_fetchChildren_Inv k (s : State) : Inv s -> Inv (snd (fetchChildren k s)).
Proof.
  intros H. unfold fetchChildren.
  destruct (_ || _); cbn [snd].
  - apply pu_renderDropdown_Inv. cbn. congruence.
  - eapply Inv_same; [apply same_fetchApi | exact H].
Qed.

Lemma pu_onKeyDown_rest_Inv k (s : State) : Inv s -> Inv (onKeyDown_rest k s).
Proof.
  intros H. unfold onKeyDown_rest.
  destruct (length_Z (items s) =? 0) eqn:G; [exact H|].
  apply Z.eqb_neq in G.
  assert (Hne : items s <> []) by (intros E; rewrite E in G; now apply G).
  assert (Hidx := proj2 (proj1 H) Hne).
  destruct k.
  - apply pu_renderDropdown_Inv. cbn. intros _. now apply rem_next.
  - apply pu_renderDropdown_Inv. cbn. intros _. now apply rem_prev.
  - destruct (nth_item _ _); [apply pu_choose_Inv | exact H].
  - apply Inv_hidden. finish.
  - exact H.
Qed.

Lemma pu_onKeyDown_Inv k (s : State) : Inv s -> Inv (onKeyDown k s).
Proof.
  intros H. unfold onKeyDown.
  destruct (isArrow k && negb (display s)); [|now apply pu_onKeyDown_rest_Inv].
  assert (H' : Inv (clearDebounce s))
    by (eapply Inv_same; [apply same_clearDebounce | exact H]).
  pose proof (pu_fetchChildren_Inv (KeyDownK k) _ H') as Hf.
  destruct (fetchChildren (KeyDownK k) (clearDebounce s)) as [done s'].
  cbn [snd] in Hf.
  destruct done; [now apply pu_onKeyDown_rest_Inv | exact Hf].
Qed.

Lemma pu_onBlur_Inv (s : State) : Inv (onBlur s).
Proof.
  apply Inv_hidden. unfold onBlur, cancelDebounce.
  destruct (debounceTimer _); finish.
Qed.

Lemma pu_docHandler_Inv (s : State) : Inv (docHandler s).
Proof.
  apply Inv_hidden. unfold docHandler, cancelDebounce.
  destruct (debounceTimer _); finish.
Qed.

Lemma pu_onMouseEnter_Inv idx (s : State) :
  Inv s -> display s = true -> (idx < List.length (rows s))%nat ->
  Inv (onMouseEnter idx s).
Proof.
  intros [_ Hrows] Hd Hidx. destruct (Hrows Hd) as [Hr _].
  apply pu_renderDropdown_Inv. cbn. intros _.
  rewrite Hr in Hidx. unfold length_Z. lia.
Qed.

Lemma pu_step_Inv (s : State) e : Inv s -> Inv (step s e).
Proof.
  intros H. destruct e; cbn [step].
  - eapply Inv_same; [apply pu_onInput_same|]. exact H.
  - eapply Inv_same; [apply pu_onFocus_same|]. exact H.
  - apply pu_onBlur_Inv.
  - now apply pu_onKeyDown_Inv.
  - destruct (display s); [destruct (nth_error _ _)|]; auto using pu_choose_Inv.
  - destruct (display s && _) eqn:G; [|exact H].
    apply andb_true_iff in G as [Hd Hi]. apply Nat.ltb_lt in Hi.
    now apply pu_onMouseEnter_Inv.
  - apply pu_docHandler_Inv.
  - exact H.
  - exact H.
  - destruct (dueTimer id s) as [t|]; [|exact H].
    assert (H' : Inv (clearTimeout id s))
      by (eapply Inv_same; [apply same_clearTimeout | exact H]).
    destruct (cb t); cbn [runCallback].
    + now apply pu_fetchChildren_Inv.
    + eapply Inv_same; [apply pu_onInput_same | exact H'].
  - destruct (nth_error _ _) as [k|]; [|exact H].
    destruct k; cbn [resume].
    + apply pu_fetchChildren_resume_Inv.
    + apply pu_onKeyDown_rest_Inv, pu_fetchChildren_resume_Inv.
    + eapply Inv_same; [apply pu_onFocus_resume_same|]. exact H.
    + eapply Inv_same; [apply pu_prefill_resume_same|]. exact H.
Qed.

Lemma pu_init_Inv p : Inv (init p).
Proof.
  apply Inv_hidden. unfold init. destruct (Str.blank _); finish.
Qed.

Lemma pu_reachable_Inv p s : reachable p s -> Inv s.
Proof. induction 1; auto using pu_init_Inv, pu_step_Inv. Qed.

End PathUploaderFacts.

(** * The debounce timer *)

Module TimerFacts.
Import Dom Spec DomFacts.

Section Generic.
Context {K : Type}.
Implicit Type s : State K.

Lemma timers_ok_same s s' : same_timers s s' -> timers_ok s -> timers_ok s'.
Proof.
  unfold same_timers, timers_ok. intros (Ht & Hn & Hd) H.
  rewrite Ht, Hn, Hd. exact H.
Qed.

Lemma sameT_refl s : same_timers s s.
Proof. unfold same_timers. auto. Qed.

Lemma sameT_trans s1 s2 s3 :
  same_timers s1 s2 -> same_timers s2 s3 -> same_timers s1 s3.
Proof. unfold same_timers. intuition congruence. Qed.

Lemma sameT_assign_value v s : same_timers s (assign_value v s).
Proof. unfold assign_value, same_timers. destruct (String.eqb _ _); auto. Qed.

Lemma sameT_fetchApi rq (k : K) s : same_timers s (fetchApi rq k s).
Proof. unfold same_timers. auto. Qed.

(** Clearing timers keeps the ids of the remaining ones distinct. *)
Lemma ids_distinct_filter (keep : Timer -> bool) (tms : list Timer) :
  NoDup (map tid tms) -> NoDup (map tid (filter keep tms)).
Proof.
  intros Hnd. induction tms as [|t tms IH]; [constructor|].
  cbn [map] in Hnd. apply NoDup_cons_iff in Hnd as [Hfresh Hrest].
  cbn [filter]. destruct (keep t); [|now apply IH].
  cbn [map]. apply NoDup_cons; [|now apply IH].
  intros Hin. apply Hfresh.
  apply in_map_iff in Hin as (t' & Hid & Hin).
  apply filter_In in Hin as [Hin _].
  rewrite <- Hid. now apply in_map.
Qed.

Lemma timers_ok_clearTimeout id s : timers_ok s -> timers_ok (clearTimeout id s).
Proof.
  unfold timers_ok, clearTimeout. cbn. intros (Hnd & Hlt & Hf).
  split; [now apply ids_distinct_filter|].
  split; intros t Hin; apply filter_In in Hin as [Hin _]; auto.
Qed.

Lemma timers_ok_clearDebounce s : timers_ok s -> timers_ok (clearDebounce s).
Proof.
  unfold clearDebounce. destruct (debounceTimer s); auto.
  apply timers_ok_clearTimeout.
Qed.

(** Once the timer [debounceTimer] holds is cleared, no timer is left
    that would run [fetchChildren]. *)
Lemma clearDebounce_fetchTimers s :
  timers_ok s -> fetchTimers (clearDebounce s) = [].
Proof.
  unfold timers_ok, fetchTimers, clearDebounce, clearTimeout.
  intros (_ & _ & Hf).
  destruct (debounceTimer s) as [id|] eqn:Hd; cbn.
  - induction (timers s) as [|t l IH]; [reflexivity|]. simpl.
    destruct (Nat.eqb (tid t) id) eqn:E; simpl.
    + apply IH. intros t' Hin. apply Hf. now right.
    + destruct (isFetch t) eqn:Et.
      * specialize (Hf t (or_introl eq_refl) Et).
        injection Hf as Hf. apply Nat.eqb_neq in E. congruence.
      * apply IH. intros t' Hin. apply Hf. now right.
  - induction (timers s) as [|t l IH]; [reflexivity|]. simpl.
    destruct (isFetch t) eqn:Et.
    + specialize (Hf t (or_introl eq_refl) Et). discriminate.
    + apply IH. intros t' Hin. apply Hf. now right.
Qed.

Lemma arm_timers d s :
  timers (arm d s) =
  (timers (clearDebounce s) ++ [mkTimer (nextTimer s) (now s + d) CbFetchChildren])%list /\
  nextTimer (arm d s) = S (nextTimer s) /\
  debounceTimer (arm d s) = Some (nextTimer s) /\
  now (arm d s) = now s.
Proof.
  unfold arm, clearDebounce. destruct (debounceTimer s); cbn; auto.
Qed.

(** Arming leaves exactly one timer that runs [fetchChildren]: the new
    one. *)
Lemma arm_fetchTimers d s :
  timers_ok s ->
  fetchTimers (arm d s) = [mkTimer (nextTimer s) (now s + d) CbFetchChildren].
Proof.
  intros H. unfold fetchTimers.
  destruct (arm_timers d s) as (Ht & _). rewrite Ht.
  rewrite filter_app. fold (fetchTimers (clearDebounce s)).
  now rewrite clearDebounce_fetchTimers.
Qed.

Lemma clearDebounce_nextTimer s : nextTimer (clearDebounce s) = nextTimer s.
Proof. unfold clearDebounce. destruct (debounceTimer s); reflexivity. Qed.

Lemma timers_ok_arm d s : timers_ok s -> timers_ok (arm d s).
Proof.
  intros H. pose proof (clearDebounce_fetchTimers s H) as Hnone.
  pose proof (timers_ok_clearDebounce s H) as (Hnd & Hlt & _).
  rewrite clearDebounce_nextTimer in Hlt.
  destruct (arm_timers d s) as (Ht & Hn & Hd & _).
  unfold timers_ok. rewrite Ht, Hn, Hd.
  split; [|split].
  - rewrite map_app. cbn.
    apply NoDup_app; [exact Hnd | repeat constructor; intros [] |].
    intros x Hin [Hx|[]]. subst x.
    apply in_map_iff in Hin as (t & Ht' & Hin).
    specialize (Hlt t Hin). lia.
  - intros t Hin. apply in_app_or in Hin as [Hin|[Hin|[]]].
    + specialize (Hlt t Hin). lia.
    + subst t. cbn. lia.
  - intros t Hin Hfetch. apply in_app_or in Hin as [Hin|[Hin|[]]].
    + exfalso.
      assert (Hin' : In t (fetchTimers (clearDebounce s)))
        by (apply filter_In; auto).
      rewrite Hnone in Hin'. exact Hin'.
    + now subst t.
Qed.

Lemma timers_ok_cancelDebounce s : timers_ok s -> timers_ok (cancelDebounce s).
Proof.
  intros H. pose proof (clearDebounce_fetchTimers s H) as Hnone.
  pose proof (timers_ok_clearDebounce s H) as (Hnd & Hlt & _).
  revert Hnone Hnd Hlt.
  unfold cancelDebounce, clearDebounce, timers_ok, fetchTimers.
  destruct (debounceTimer s) as [id|] eqn:Hd; cbn; [|intros; exact H].
  intros Hnone Hnd Hlt. repeat split; auto.
  intros t Hin Hfetch. exfalso.
  assert (Hin' : In t []) by (rewrite <- Hnone; apply filter_In; auto).
  exact Hin'.
Qed.

Lemma cancelDebounce_fetchTimers s :
  timers_ok s -> fetchTimers (cancelDebounce s) = [].
Proof.
  intros H. rewrite <- (clearDebounce_fetchTimers s H).
  unfold cancelDebounce, clearDebounce, fetchTimers.
  destruct (debounceTimer s); reflexivity.
Qed.

(** With ids used once, the timer found under an id is the timer armed
    under it. *)
Lemma dueTimer_In id s t : dueTimer id s = Some t -> In t (timers s) /\ tid t = id.
Proof.
  unfold dueTimer. intros H. apply find_some in H as [Hin Hb].
  apply andb_true_iff in Hb as [Hid _]. apply Nat.eqb_eq in Hid. auto.
Qed.

Lemma dueTimer_absent id s :
  (forall t, In t (timers s) -> tid t <> id) -> dueTimer id s = None.
Proof.
  intros H. destruct (dueTimer id s) as [t|] eqn:E; [|reflexivity].
  apply dueTimer_In in E as [Hin Hid]. now apply H in Hin.
Qed.

End Generic.

End TimerFacts.

Module DownloaderTimers.
Import Dom Spec DomFacts TimerFacts Downloader.

Ltac sameT := unfold same_timers; cbn; auto.

Lemma dl_sameT_renderDropdown (s : State) : same_timers s (renderDropdown s).
Proof. unfold renderDropdown. cbn. destruct (items s); sameT. Qed.

Lemma dl_sameT_fetchChildren (s : State) : same_timers s (fetchChildren s).
Proof.
  unfold fetchChildren. destruct (Str.blank _); [|sameT].
  unfold renderDropdown. cbn. sameT.
Qed.

Lemma dl_sameT_fetchChildren_resume val r (s : State) :
  same_timers s (fetchChildren_resume val r s).
Proof.
  unfold fetchChildren_resume, renderDropdown. cbn.
  destruct (Js.try_catch _ _); destruct (focused s); sameT.
Qed.

Lemma dl_timers_ok_onInput (s : State) : timers_ok s -> timers_ok (onInput s).
Proof.
  intros H. unfold onInput, scheduleFetch. apply timers_ok_arm.
  eapply timers_ok_same; [|exact H].
  unfold assign_value, setSelectionRange.
  destruct (negb _); [destruct (String.eqb _ _)|]; sameT.
Qed.

Lemma dl_timers_ok_seed root (s : State) : timers_ok s -> timers_ok (seed root s).
Proof.
  intros H. unfold seed. apply timers_ok_arm.
  eapply timers_ok_same; [|exact H].
  unfold assign_value. destruct (String.eqb _ _); sameT.
Qed.

Lemma dl_timers_ok_choose it (s : State) : timers_ok s -> timers_ok (choose it s).
Proof.
  intros H. unfold choose, scheduleFetch. apply timers_ok_arm.
  eapply timers_ok_same; [|exact H].
  unfold assign_value. destruct (String.eqb _ _); sameT.
Qed.

Lemma dl_timers_ok_hide (s : State) :
  timers_ok s ->
  timers_ok (set_display false (set_active (-1) (set_items [] (cancelDebounce s)))).
Proof.
  intros H. eapply timers_ok_same; [|apply timers_ok_cancelDebounce, H]. sameT.
Qed.

Lemma dl_timers_ok_onKeyDown k (s : State) : timers_ok s -> timers_ok (onKeyDown k s).
Proof.
  intros H. unfold onKeyDown.
  destruct (_ || _); [exact H|].
  destruct k; try exact H.
  - eapply timers_ok_same; [|exact H].
    eapply sameT_trans; [|apply dl_sameT_renderDropdown]. sameT.
  - eapply timers_ok_same; [|exact H].
    eapply sameT_trans; [|apply dl_sameT_renderDropdown]. sameT.
  - destruct (0 <=? active s); [destruct (nth_item _ _)|];
      auto using dl_timers_ok_choose.
Qed.

Lemma dl_timers_ok_step (s : State) e : timers_ok s -> timers_ok (step s e).
Proof.
  intros H. destruct e; cbn [step].
  - apply dl_timers_ok_onInput. exact H.
  - unfold onFocus, scheduleFetch.
    destruct (_ || _); [exact H | apply timers_ok_arm, H].
  - apply (dl_timers_ok_hide (set_focused false s)). exact H.
  - now apply dl_timers_ok_onKeyDown.
  - destruct (display s); [destruct (nth_error _ _)|];
      auto using dl_timers_ok_choose.
  - destruct (_ && _); [|exact H].
    eapply timers_ok_same; [|exact H].
    eapply sameT_trans; [|apply dl_sameT_renderDropdown]. sameT.
  - now apply dl_timers_ok_hide.
  - exact H.
  - exact H.
  - destruct (dueTimer id s) as [t|]; [|exact H].
    pose proof (timers_ok_clearTimeout id s H) as H'.
    destruct (cb t); cbn [runCallback]; [|exact H'].
    eapply timers_ok_same; [apply dl_sameT_fetchChildren | exact H'].
  - destruct (nth_error _ _) as [k|]; [|exact H].
    assert (H' : timers_ok (set_inflight (remove_nth n (inflight s)) s)) by exact H.
    destruct k; cbn [resume].
    + eapply timers_ok_same; [apply dl_sameT_fetchChildren_resume | exact H'].
    + unfold onFocus_resume, scheduleFetch.
      destruct (Js.try_catch _ _); [destruct (Str.blank _)|];
        auto using dl_timers_ok_seed, timers_ok_arm.
    + unfold prefill_resume.
      destruct (Js.try_catch _ _); [destruct (Str.blank _)|];
        auto using dl_timers_ok_seed.
Qed.

Lemma dl_timers_ok_init p : timers_ok (init p).
Proof.
  unfold timers_ok. cbn. split; [constructor|]. split; intros t [].
Qed.

Lemma dl_reachable_timers_ok p s : reachable p s -> timers_ok s.
Proof. induction 1; auto using dl_timers_ok_init, dl_timers_ok_step. Qed.

End DownloaderTimers.

Module PathUploaderTimers.
Import Dom Spec DomFacts TimerFacts PathUploader.

Ltac sameT := unfold same_timers; cbn; auto.

Lemma pu_sameT_renderDropdown (s : State) : same_timers s (renderDropdown s).
Proof. unfold renderDropdown. cbn. destruct (items s); sameT. Qed.

Lemma pu_sameT_fetchChildren k (s : State) : same_timers s (snd (fetchChildren k s)).
Proof.
  unfold fetchChildren. destruct (_ || _); cbn [snd]; [|sameT].
  unfold renderDropdown. cbn. sameT.
Qed.

Lemma pu_sameT_fetchChildren_resume val r (s : State) :
  same_timers s (fetchChildren_resume val r s).
Proof.
  unfold fetchChildren_resume, renderDropdown. cbn.
  destruct (Js.try_catch _ _); destruct (focused s); sameT.
Qed.

Lemma pu_timers_ok_onInput (s : State) : timers_ok s -> timers_ok (onInput s).
Proof.
  intros H. unfold onInput, scheduleFetch. apply timers_ok_arm.
  eapply timers_ok_same; [|exact H].
  unfold assign_value, setSelectionRange.
  destruct (negb _); [destruct (String.eqb _ _)|]; sameT.
Qed.

Lemma pu_timers_ok_seed root (s : State) : timers_ok s -> timers_ok (seed root s).
Proof.
  intros H. unfold seed. apply timers_ok_arm.
  eapply timers_ok_same; [|exact H].
  unfold assign_value. destruct (String.eqb _ _); sameT.
Qed.

Lemma pu_timers_ok_choose it (s : State) : timers_ok s -> timers_ok (choose it s).
Proof.
  intros H. unfold choose, scheduleFetch. apply timers_ok_arm.
  eapply timers_ok_same; [|exact H].
  unfold assign_value. destruct (String.eqb _ _); sameT.
Qed.

Lemma pu_timers_ok_hide (s : State) :
  timers_ok s ->
  timers_ok (set_display false (set_active (-1) (set_items [] (cancelDebounce s)))).
Proof.
  intros H. eapply timers_ok_same; [|apply timers_ok_cancelDebounce, H]. sameT.
Qed.

Lemma pu_timers_ok_onKeyDown_rest k (s : State) :
  timers_ok s -> timers_ok (onKeyDown_rest k s).
Proof.
  intros H. unfold onKeyDown_rest.
  destruct (_ =? _); [exact H|].
  destruct k; try exact H.
  - eapply timers_ok_same; [|exact H].
    eapply sameT_trans; [|apply pu_sameT_renderDropdown]. sameT.
  - eapply timers_ok_same; [|exact H].
    eapply sameT_trans; [|apply pu_sameT_renderDropdown]. sameT.
  - destruct (nth_item _ _); auto using pu_timers_ok_choose.
Qed.

Lemma pu_timers_ok_onKeyDown k (s : State) : timers_ok s -> timers_ok (onKeyDown k s).
Proof.
  intros H. unfold onKeyDown.
  destruct (_ && _); [|now apply pu_timers_ok_onKeyDown_rest].
  pose proof (timers_ok_clearDebounce s H) as H'.
  pose proof (pu_sameT_fetchChildren (KeyDownK k) (clearDebounce s)) as Hs.
  destruct (fetchChildren (KeyDownK k) (clearDebounce s)) as [done s'].
  cbn [snd] in Hs.
  assert (H'' : timers_ok s') by (eapply timers_ok_same; eauto).
  destruct done; [now apply pu_timers_ok_onKeyDown_rest | exact H''].
Qed.

Lemma pu_timers_ok_step (s : State) e : timers_ok s -> timers_ok (step s e).
Proof.
  intros H. destruct e; cbn [step].
  - apply pu_timers_ok_onInput. exact H.
  - unfold onFocus, scheduleFetch.
    destruct (_ || _); [exact H | apply timers_ok_arm, H].
  - apply (pu_timers_ok_hide (set_focused false s)). exact H.
  - now apply pu_timers_ok_onKeyDown.
  - destruct (display s); [destruct (nth_error _ _)|];
      auto using pu_timers_ok_choose.
  - destruct (_ && _); [|exact H].
    eapply timers_ok_same; [|exact H].
    eapply sameT_trans; [|apply pu_sameT_renderDropdown]. sameT.
  - now apply pu_timers_ok_hide.
  - exact H.
  - exact H.
  - destruct (dueTimer id s) as [t|]; [|exact H].
    pose proof (timers_ok_clearTimeout id s H) as H'.
    destruct (cb t); cbn [runCallback].
    + eapply timers_ok_same; [apply pu_sameT_fetchChildren | exact H'].
    + now apply pu_timers_ok_onInput.
  - destruct (nth_error _ _) as [k|]; [|exact H].
    assert (H' : timers_ok (set_inflight (remove_nth n (inflight s)) s)) by exact H.
    destruct k; cbn [resume].
    + eapply timers_ok_same; [apply pu_sameT_fetchChildren_resume | exact H'].
    + apply pu_timers_ok_onKeyDown_rest.
      eapply timers_ok_same; [apply pu_sameT_fetchChildren_resume | exact H'].
    + unfold onFocus_resume, scheduleFetch.
      destruct (Js.try_catch _ _); [destruct (Str.blank _)|];
        auto using pu_timers_ok_seed, timers_ok_arm.
    + unfold prefill_resume.
      destruct (Js.try_catch _ _); [destruct (Str.blank _)|];
        auto using pu_timers_ok_seed.
Qed.

Lemma pu_timers_ok_init p : timers_ok (init p).
Proof.
  unfold init. destruct (Str.blank _).
  - unfold timers_ok. cbn. split; [constructor|]. split; intros t [].
  - unfold timers_ok. cbn. split; [|split].
    + repeat constructor. intros [].
    + intros t [Ht|[]]. subst t. cbn. lia.
    + intros t [Ht|[]]. subst t. cbn. discriminate.
Qed.

Lemma pu_reachable_timers_ok p s : reachable p s -> timers_ok s.
Proof. induction 1; auto using pu_timers_ok_init, pu_timers_ok_step. Qed.

End PathUploaderTimers.

(** * The properties of the specification *)

Import Dom.

(** ** Normalization *)

(** C3 (as amended).  In the downloaders' copy the normalized path holds
    no backslash and no doubled slash and normalizing is idempotent; in the
    PathUploader copy the normalized path holds no backslash and normalizing
    is idempotent, doubled slashes being kept. *)
Theorem C3_normalization :
  Spec.normalizes Downloader.normalize /\
  (forall s,
     Str.hasBackslash (PathUploader.normalizePath s) = false /\
     PathUploader.normalizePath (PathUploader.normalizePath s)
     = PathUploader.normalizePath s).
Proof.
  split.
  - intros s. unfold Downloader.normalize.
    assert (Hb : Str.hasBackslash (Str.collapseSlashes (Str.replaceBackslashes s)) = false)
      by apply StrFacts.collapseSlashes_keeps_clean, StrFacts.replaceBackslashes_clean.
    split; [exact Hb|]. split; [apply StrFacts.collapseSlashes_single|].
    rewrite (StrFacts.replaceBackslashes_fix _ Hb).
    apply StrFacts.collapseSlashes_fix, StrFacts.collapseSlashes_single.
  - intros s. unfold PathUploader.normalizePath.
    split; [apply StrFacts.replaceBackslashes_clean|].
    apply StrFacts.replaceBackslashes_fix, StrFacts.replaceBackslashes_clean.
Qed.

(** C3, as stated, fails in the PathUploader copy: its normalization
    keeps the doubled slash of [a//b]. *)
Lemma C3_counterexample : ~ Spec.normalizes PathUploader.normalizePath.
Proof.
  intros H. destruct (H "a//b") as (_ & Hd & _).
  vm_compute in Hd. discriminate.
Qed.

(** ** The caret *)

(** C7.  When normalization changes the text of an edit, the field holds
    the normalized text and the caret is the caret of the edit plus the
    change of length, not below 0; in each copy. *)
Theorem C7_caret_after_normalization (raw : string) (sel : Z) :
  0 <= sel <= Str.len raw ->
  (forall s : Downloader.State,
     String.eqb (Downloader.normalize raw) raw = false ->
     let s' := Downloader.step s (Input raw sel) in
     value s' = Downloader.normalize raw /\
     caret s' = Z.max 0 (sel + (Str.len (Downloader.normalize raw) - Str.len raw))) /\
  (forall s : PathUploader.State,
     String.eqb (PathUploader.normalizePath raw) raw = false ->
     let s' := PathUploader.step s (Input raw sel) in
     value s' = PathUploader.normalizePath raw /\
     caret s' = Z.max 0 (sel + (Str.len (PathUploader.normalizePath raw) - Str.len raw))).
Proof.
  intros Hsel. split.
  - intros s Hneq. cbn [Downloader.step].
    unfold Downloader.onInput, Downloader.scheduleFetch. cbn [value caret set_caret set_value].
    rewrite Hneq. cbn [negb].
    unfold assign_value. cbn [value set_caret set_value]. rewrite Hneq.
    unfold arm, clearDebounce. cbn.
    assert (Hlen : Str.len (Downloader.normalize raw) <= Str.len raw).
    { unfold Str.len, Downloader.normalize.
      pose proof (StrFacts.collapseSlashes_length (Str.replaceBackslashes raw)) as H.
      rewrite StrFacts.replaceBackslashes_length in H. lia. }
    assert (H0 : 0 <= Str.len (Downloader.normalize raw)) by (unfold Str.len; lia).
    destruct (debounceTimer s); cbn; (split; [reflexivity | lia]).
  - intros s Hneq. cbn [PathUploader.step].
    unfold PathUploader.onInput, PathUploader.scheduleFetch.
    cbn [value caret set_caret set_value].
    rewrite Hneq. cbn [negb].
    unfold assign_value. cbn [value set_caret set_value]. rewrite Hneq.
    unfold arm, clearDebounce. cbn.
    assert (Hlen : Str.len (PathUploader.normalizePath raw) = Str.len raw).
    { unfold Str.len, PathUploader.normalizePath.
      now rewrite StrFacts.replaceBackslashes_length. }
    destruct (debounceTimer s); cbn; (split; [reflexivity | lia]).
Qed.

(** C7 at the edit [a//b] with the caret at its end: the text becomes
    [a/b], the caret 3. *)
Lemma C7_witness :
  caret (Downloader.step (Downloader.init EmptyString) (Input "a//b" 4)) = 3.
Proof.
  pose proof (proj1 (C7_caret_after_normalization "a//b" 4 ltac:(vm_compute; split; discriminate))
                (Downloader.init EmptyString) eq_refl) as [_ H].
  exact H.
Defined.

(** ** The highlighted suggestion *)

(** C1.  In every reachable state of the field, of either copy, [active]
    is [-1] exactly when [items] is empty and an index into [items]
    otherwise; and every event (a response, an arrow key, a selection,
    Escape, an outside click, a blur, any other) keeps the invariant this
    rests on: [active] as said, and the rows on screen those of [items]. *)
Theorem C1_active_index_invariant :
  ((forall p s, Downloader.reachable p s -> Spec.active_ok s) /\
   (forall s e, Spec.Inv s -> Spec.Inv (Downloader.step s e))) /\
  ((forall p s, PathUploader.reachable p s -> Spec.active_ok s) /\
   (forall s e, Spec.Inv s -> Spec.Inv (PathUploader.step s e))).
Proof.
  split; split.
  - intros p s H. exact (proj1 (DownloaderFacts.dl_reachable_Inv p s H)).
  - exact DownloaderFacts.dl_step_Inv.
  - intros p s H. exact (proj1 (PathUploaderFacts.pu_reachable_Inv p s H)).
  - exact PathUploaderFacts.pu_step_Inv.
Qed.

(** C1 on a run of the Aria2 field: focus, the debounced lookup, two
    folders listed, one step down. *)
Lemma C1_witness :
  Spec.active_ok
    (Downloader.run (Downloader.init "/srv")
       [Focus; Elapse 180; TimerFire 1;
        Response 1 (Http 200 (Some (Spec.listdirOk None ["a"; "b"])));
        KeyDown ArrowDown]).
Proof.
  apply (proj1 (proj1 C1_active_index_invariant) "/srv").
  cbn [Downloader.run fold_left].
  repeat apply Downloader.reach_step. apply Downloader.reach_init.
Defined.

(** ** A response that comes late *)

(** C2 (as amended).  For a lookup that the debounce timer started (in
    the two downloaders every lookup is one; in the PathUploader the
    lookup an arrow key starts is not, and is left out): a response that
    arrives while the field is without focus leaves the overlay hidden;
    the suggestions are replaced by what the response lists all the same,
    by nothing when reading it throws.  While the field has focus (also
    after Escape) the result is shown when it is not empty. *)
Theorem C2_response_without_focus :
  (forall (s : Downloader.State) n val r,
     nth_error (inflight s) n = Some (Downloader.FetchChildrenK val) ->
     let s' := Downloader.step s (Response n r) in
     items s' = Js.try_catch (Downloader.listing val r) [] /\
     (focused s = false -> display s' = false) /\
     (focused s = true -> display s' = negb (length_Z (items s') =? 0))) /\
  (forall (s : PathUploader.State) n val r,
     nth_error (inflight s) n = Some (PathUploader.FetchChildrenK val) ->
     let s' := PathUploader.step s (Response n r) in
     items s' = Js.try_catch (PathUploader.listing val r) [] /\
     (focused s = false -> display s' = false) /\
     (focused s = true -> display s' = negb (length_Z (items s') =? 0))).
Proof.
  split; intros s n val r Hn; cbn [Downloader.step PathUploader.step];
    rewrite Hn; cbn [Downloader.resume PathUploader.resume];
    unfold Downloader.fetchChildren_resume, PathUploader.fetchChildren_resume,
      Downloader.renderDropdown, PathUploader.renderDropdown; cbn;
    destruct (Js.try_catch _ _); destruct (focused s); cbn;
    repeat split; intros; try reflexivity; discriminate.
Qed.

(** C2 on the Aria2 field: the lookup is under way when the field is
    blurred, and its response leaves the overlay hidden. *)
Lemma C2_witness :
  display
    (Downloader.step
       (Downloader.run (Downloader.init "/srv") [Focus; Elapse 180; TimerFire 1; Blur])
       (Response 1 (Http 200 (Some (Spec.listdirOk None ["a"]))))) = false.
Proof.
  apply (proj1 C2_response_without_focus
           (Downloader.run (Downloader.init "/srv") [Focus; Elapse 180; TimerFire 1; Blur])
           1%nat "/srv" (Http 200 (Some (Spec.listdirOk None ["a"]))) eq_refl).
  reflexivity.
Defined.

(** C2, as stated, fails: after a blur the late response fills [items]
    again, and after Escape, the field keeping focus, it opens the
    overlay again. *)
Lemma C2_counterexample :
  items
    (Downloader.run (Downloader.init "/srv")
       [Focus; Elapse 180; TimerFire 1; Blur;
        Response 1 (Http 200 (Some (Spec.listdirOk None ["a"])))]) <> [] /\
  display
    (Downloader.run (Downloader.init "/srv")
       [Focus; Elapse 180; TimerFire 1;
        Response 1 (Http 200 (Some (Spec.listdirOk None ["a"])));
        Input "/srv/a" 6; Elapse 180; TimerFire 2; KeyDown Escape;
        Response 1 (Http 200 (Some (Spec.listdirOk None ["b"])))]) = true.
Proof. split; [vm_compute; discriminate | vm_compute; reflexivity]. Qed.

(** ** A lookup that fails *)

Lemma dl_failed_listing val r :
  Spec.failed r = true -> Js.try_catch (Downloader.listing val r) [] = [].
Proof.
  destruct r as [|st [d|]]; [reflexivity | | reflexivity].
  cbn. unfold Spec.failedBody. intros H.
  destruct (Js.truthy (Js.prop d "ok")); cbn in *;
    [|now rewrite andb_false_r].
  apply negb_true_iff in H. rewrite H. now rewrite andb_false_r.
Qed.

Lemma pu_failed_listing val r :
  Spec.failed r = true -> Js.try_catch (PathUploader.listing val r) [] = [].
Proof.
  destruct r as [|st [d|]]; [reflexivity | | reflexivity].
  destruct d as [| | | | |props]; try reflexivity.
  cbn. unfold Spec.failedBody. cbn. intros H.
  destruct (Js.truthy (Js.lookup "ok" props)); cbn in *; [|reflexivity].
  destruct (Js.lookup "folders" props) as [[| | | | |]|]; cbn in *;
    try reflexivity; try discriminate;
    match goal with |- context [if ?b then _ else _] => destruct b end; reflexivity.
Qed.

(** Building the entries throws as soon as one of them does. *)
Lemma mapM_throws {A B : Type} (g : A -> Js.result B) (l : list A) x :
  In x l -> (exists e, g x = inl e) -> exists e, Js.mapM g l = inl e.
Proof.
  intros Hin (e & He). induction l as [|a l IH]; [destruct Hin|].
  cbn [Js.mapM]. destruct Hin as [->|Hin].
  - rewrite He. eexists; reflexivity.
  - destruct (g a) as [e'|b]; [eexists; reflexivity|].
    destruct (IH Hin) as (e' & ->). eexists; reflexivity.
Qed.

(** A folder whose [name] does not convert to a string. *)
Lemma dl_listing_throws val st data folders f n e :
  Js.truthy (Js.prop data "ok") = true ->
  Js.prop data "folders" = Some (Js.JArr folders) ->
  In f folders -> Js.member (Some f) "name" = inr n -> Js.toString n = inl e ->
  exists e', Downloader.listing val (Http st (Some data)) = inl e'.
Proof.
  intros Hok Hf Hin Hn He. unfold Downloader.listing.
  cbn [awaitFetch awaitJson Js.bind Js.ret snd].
  rewrite Hok, Hf.
  assert (Ht : Js.truthy (Some data) = true).
  { destruct data; try reflexivity; discriminate Hf. }
  rewrite Ht. cbn [andb Js.isArray].
  apply (mapM_throws _ folders f Hin).
  rewrite Hn. cbn [Js.bind].
  destruct (Js.toString (Js.or_else _ _)); [eexists; reflexivity|].
  cbn [Js.bind]. rewrite He. eexists; reflexivity.
Qed.

(** C4 (as amended).  A lookup whose fetch is rejected, whose body is not
    JSON, whose body lacks a truthy [ok] or an array [folders], or in
    which building the entries throws, ends with no suggestions, [active]
    at [-1] and the overlay hidden, whatever the state and the focus; the
    handler catches what is thrown.  The HTTP status is not consulted.
    Building the entries throws, among others, for a listed folder whose
    [name] does not convert to a string. *)
Theorem C4_failed_lookup :
  (forall (s : Downloader.State) val r,
     Spec.failed r = true \/ (exists e, Downloader.listing val r = inl e) ->
     Spec.hidden (Downloader.fetchChildren_resume val r s)) /\
  (forall (s : PathUploader.State) val r,
     Spec.failed r = true \/ (exists e, PathUploader.listing val r = inl e) ->
     Spec.hidden (PathUploader.fetchChildren_resume val r s)) /\
  (forall (s : Downloader.State) val st data folders f n e,
     Js.truthy (Js.prop data "ok") = true ->
     Js.prop data "folders" = Some (Js.JArr folders) ->
     In f folders -> Js.member (Some f) "name" = inr n -> Js.toString n = inl e ->
     (exists e', Downloader.listing val (Http st (Some data)) = inl e') /\
     Spec.hidden (Downloader.fetchChildren_resume val (Http st (Some data)) s)).
Proof.
  assert (Hdl : forall (s : Downloader.State) val r,
            Spec.failed r = true \/ (exists e, Downloader.listing val r = inl e) ->
            Spec.hidden (Downloader.fetchChildren_resume val r s)).
  { intros s val r H.
    assert (E : Js.try_catch (Downloader.listing val r) [] = []).
    { destruct H as [H|[e H]]; [now apply dl_failed_listing | now rewrite H]. }
    unfold Downloader.fetchChildren_resume, Downloader.renderDropdown. cbn.
    rewrite E. destruct (focused s); repeat split. }
  split; [exact Hdl | split].
  - intros s val r H.
    assert (E : Js.try_catch (PathUploader.listing val r) [] = []).
    { destruct H as [H|[e H]]; [now apply pu_failed_listing | now rewrite H]. }
    unfold PathUploader.fetchChildren_resume, PathUploader.renderDropdown. cbn.
    rewrite E. destruct (focused s); repeat split.
  - intros s val st data folders f n e Hok Hf Hin Hn He.
    pose proof (dl_listing_throws val st data folders f n e Hok Hf Hin Hn He) as Ht.
    split; [exact Ht | apply Hdl; now right].
Qed.

(** C4 on a rejected fetch. *)
Lemma C4_witness :
  Spec.hidden
    (Downloader.fetchChildren_resume "/srv" NetworkError
       (Downloader.run (Downloader.init "/srv") [Focus; Elapse 180; TimerFire 1])).
Proof.
  apply (proj1 C4_failed_lookup). left. reflexivity.
Defined.

(** C4, as stated, fails for a response whose status is not 2xx and
    whose body lists folders: the suggestions are filled and shown. *)
Lemma C4_counterexample :
  Spec.non2xx (Http 500 (Some (Spec.listdirOk None ["a"]))) = true /\
  ~ Spec.hidden
      (Downloader.run (Downloader.init "/srv")
         [Focus; Elapse 180; TimerFire 1;
          Response 1 (Http 500 (Some (Spec.listdirOk None ["a"])))]).
Proof.
  split; [reflexivity|].
  intros (H & _). vm_compute in H. discriminate.
Qed.

(** ** The debounce *)

Module DebounceFacts.
Import Spec DomFacts TimerFacts.

Section Generic.
Context {K : Type}.
Implicit Type s : State K.

Lemma same_id_same_timer s t t' :
  timers_ok s -> In t (timers s) -> In t' (timers s) -> tid t = tid t' -> t = t'.
Proof.
  intros (Hnd & _) Hin Hin' Hid.
  induction (timers s) as [|x l IH]; [contradiction|].
  cbn [map] in Hnd. apply NoDup_cons_iff in Hnd as [Hx Hl].
  destruct Hin as [->|Hin], Hin' as [->|Hin']; auto.
  - exfalso. apply Hx. rewrite Hid. now apply in_map.
  - exfalso. apply Hx. rewrite <- Hid. now apply in_map.
Qed.

(** An armed timer fires under its id once it is due, and not before. *)
Lemma dueTimer_found s t :
  timers_ok s -> In t (timers s) -> (due t <= now s)%nat ->
  dueTimer (tid t) s = Some t.
Proof.
  intros Hok Hin Hdue.
  destruct (dueTimer (tid t) s) as [t'|] eqn:E.
  - apply dueTimer_In in E as [Hin' Hid].
    f_equal. now apply (same_id_same_timer s).
  - unfold dueTimer in E.
    pose proof (find_none _ _ E t Hin) as Hn. cbn in Hn.
    rewrite Nat.eqb_refl in Hn. apply Nat.leb_gt in Hn. lia.
Qed.

Lemma dueTimer_early s t :
  timers_ok s -> In t (timers s) -> (now s < due t)%nat ->
  dueTimer (tid t) s = None.
Proof.
  intros Hok Hin Hdue.
  destruct (dueTimer (tid t) s) as [t'|] eqn:E; [|reflexivity].
  pose proof E as E'. apply dueTimer_In in E' as [Hin' Hid].
  assert (t' = t) by now apply (same_id_same_timer s). subst t'.
  unfold dueTimer in E. apply find_some in E as [_ Hb].
  apply andb_true_iff in Hb as [_ Hb]. apply Nat.leb_le in Hb. lia.
Qed.

Lemma fetchTimers_In s t :
  In t (fetchTimers s) -> In t (timers s) /\ isFetch t = true.
Proof. unfold fetchTimers. apply filter_In. Qed.

Lemma fetchTimers_clearTimeout id s :
  fetchTimers (clearTimeout id s) =
  filter (fun t => negb (Nat.eqb (tid t) id)) (fetchTimers s).
Proof.
  unfold fetchTimers, clearTimeout. cbn.
  induction (timers s) as [|t l IH]; [reflexivity|].
  cbn [filter].
  destruct (Nat.eqb (tid t) id) eqn:E; destruct (isFetch t) eqn:F;
    cbn [filter negb]; rewrite ?E, ?F; cbn [negb]; now rewrite IH.
Qed.

Lemma arm_frame d s :
  value (arm d s) = value s /\ sent (arm d s) = sent s /\
  inflight (arm d s) = inflight s /\ dest_dir (arm d s) = dest_dir s /\
  focused (arm d s) = focused s.
Proof. unfold arm, clearDebounce. destruct (debounceTimer s); cbn; auto. Qed.

(** Two calls in a row: the second timer is the only one left to run
    [fetchChildren], and the id of the first is armed no more. *)
Lemma arm_twice d s s' :
  timers_ok s -> same_timers (arm d s) s' ->
  fetchTimers (arm d s) = [mkTimer (nextTimer s) (now s + d) CbFetchChildren] /\
  fetchTimers (arm d s') = [mkTimer (S (nextTimer s)) (now s' + d) CbFetchChildren] /\
  (forall t, In t (timers (arm d s')) -> tid t <> nextTimer s) /\
  timers_ok (arm d s').
Proof.
  intros Hok Hsame.
  pose proof (timers_ok_arm d s Hok) as Hok1.
  pose proof (timers_ok_same _ _ Hsame Hok1) as Hok'.
  destruct (arm_timers d s) as (_ & Hn & Hd & _).
  destruct Hsame as (Ht' & Hn' & Hd').
  split; [now apply arm_fetchTimers|].
  split; [rewrite (arm_fetchTimers d s' Hok'); now rewrite Hn', Hn|].
  split; [|now apply timers_ok_arm].
  intros t Hin. destruct (arm_timers d s') as (Ht2 & _). rewrite Ht2 in Hin.
  apply in_app_or in Hin as [Hin|[<-|[]]].
  - unfold clearDebounce in Hin. rewrite Hd', Hd in Hin.
    unfold clearTimeout in Hin. cbn in Hin.
    apply filter_In in Hin as [_ Hne].
    apply negb_true_iff, Nat.eqb_neq in Hne. exact Hne.
  - cbn. rewrite Hn', Hn. lia.
Qed.

End Generic.

(** The "input" listener ends in arming the timer; before that it
    leaves timers, clock and requests alone and puts the normalized text
    into the box. *)
Lemma dl_onInput_shape (s : Downloader.State) :
  exists s0,
    Downloader.onInput s = arm 180 s0 /\ same_timers s s0 /\
    now s0 = now s /\ sent s0 = sent s /\
    value s0 = Downloader.normalize (value s).
Proof.
  unfold Downloader.onInput, Downloader.scheduleFetch.
  eexists. split; [reflexivity|].
  unfold assign_value, setSelectionRange.
  destruct (String.eqb (Downloader.normalize (value s)) (value s)) eqn:E; cbn.
  - apply String.eqb_eq in E. unfold same_timers. cbn. auto.
  - unfold same_timers. cbn. auto.
Qed.

Lemma pu_onInput_shape (s : PathUploader.State) :
  exists s0,
    PathUploader.onInput s = arm 200 s0 /\ same_timers s s0 /\
    now s0 = now s /\ sent s0 = sent s /\
    value s0 = PathUploader.normalizePath (value s).
Proof.
  unfold PathUploader.onInput, PathUploader.scheduleFetch.
  eexists. split; [reflexivity|].
  unfold assign_value, setSelectionRange.
  destruct (String.eqb (PathUploader.normalizePath (value s)) (value s)) eqn:E; cbn.
  - apply String.eqb_eq in E. unfold same_timers. cbn. auto.
  - unfold same_timers. cbn. auto.
Qed.

End DebounceFacts.

Lemma fetchTimers_same {K : Type} (s s' : State K) :
  Spec.same_timers s s' -> Spec.fetchTimers s' = Spec.fetchTimers s.
Proof. unfold Spec.fetchTimers. intros (Ht & _). now rewrite Ht. Qed.

Lemma dl_fetchChildren_sent (y : Downloader.State) :
  sent (Downloader.fetchChildren y) =
  if Str.blank (Str.trim (value y)) then sent y
  else (sent y ++ [Listdir (Some (Downloader.normalize (Str.trim (value y))))])%list.
Proof. unfold Downloader.fetchChildren. destruct (Str.blank _); reflexivity. Qed.

(** The downloaders' copy: two edits less than 180 ms apart. *)
Lemma dl_debounce p (s : Downloader.State) raw1 sel1 d raw2 sel2 :
  Downloader.reachable p s -> (d < 180)%nat ->
  Spec.debounced Downloader.step 180 Downloader.normalize s raw1 sel1 d raw2 sel2.
Proof.
  unfold Spec.debounced.
  intros Hreach Hd.
  pose proof (DownloaderTimers.dl_reachable_timers_ok p s Hreach) as Hok.
  cbn [Downloader.step]. cbn zeta.
  destruct (DebounceFacts.dl_onInput_shape (set_caret sel1 (set_value raw1 s)))
    as (a1 & E1 & Hs1 & Hn1 & Hsent1 & Hv1).
  rewrite E1.
  destruct (DebounceFacts.dl_onInput_shape
              (set_caret sel2 (set_value raw2 (set_now (now (arm 180 a1) + d) (arm 180 a1)))))
    as (a2 & E2 & Hs2 & Hn2 & Hsent2 & Hv2).
  rewrite E2.
  cbn [now sent value set_caret set_value set_now] in Hn1, Hsent1, Hv1, Hn2, Hsent2, Hv2.
  assert (Hok1 : Spec.timers_ok a1) by (eapply TimerFacts.timers_ok_same; [exact Hs1 | exact Hok]).
  assert (Hnext1 : nextTimer a1 = nextTimer s).
  { destruct Hs1 as (_ & B & _). exact B. }
  assert (Hsame : Spec.same_timers (arm 180 a1) a2).
  { destruct Hs2 as (A & B & C).
    cbn [timers nextTimer debounceTimer set_caret set_value set_now] in A, B, C.
    repeat split; assumption. }
  destruct (DebounceFacts.arm_twice 180 a1 a2 Hok1 Hsame) as (F1 & F2 & Hgone & Hok2).
  destruct (TimerFacts.arm_timers 180 a1) as (_ & _ & _ & Hnow1).
  destruct (TimerFacts.arm_timers 180 a2) as (_ & _ & _ & Hnow2).
  destruct (DebounceFacts.arm_frame 180 a1) as (_ & Hsa1 & _).
  destruct (DebounceFacts.arm_frame 180 a2) as (Hva2 & Hsa2 & _).
  rewrite Hnow1, Hn1 in Hn2. rewrite Hnext1, Hn1 in F1. rewrite Hnext1, Hn2 in F2.
  rewrite Hnext1 in Hgone.
  split; [exact F1|]. split; [exact F2|].
  split; [|split].
  - (* within the window the first timer is not due *)
    set (s1' := set_now (now (arm 180 a1) + d) (arm 180 a1)).
    assert (Hin : In (mkTimer (nextTimer s) (now s + 180) CbFetchChildren) (timers s1')).
    { apply (DebounceFacts.fetchTimers_In (arm 180 a1)). rewrite F1. now left. }
    pose proof (DebounceFacts.dueTimer_early s1' _
                  (TimerFacts.timers_ok_arm 180 a1 Hok1) Hin) as Hearly.
    cbn [tid due] in Hearly. rewrite Hearly; [reflexivity|].
    unfold s1'. cbn [now set_now]. rewrite Hnow1, Hn1. lia.
  - (* afterwards its id is armed no more *)
    intros d'. rewrite TimerFacts.dueTimer_absent; [reflexivity|]. exact Hgone.
  - intros d' Hd'.
    set (s2e := set_now (now (arm 180 a2) + d') (arm 180 a2)).
    set (t2 := mkTimer (S (nextTimer s)) (now s + d + 180) CbFetchChildren).
    assert (Hin : In t2 (timers s2e)).
    { apply (DebounceFacts.fetchTimers_In (arm 180 a2)). rewrite F2. now left. }
    pose proof (DebounceFacts.dueTimer_found s2e t2 Hok2 Hin) as Hfound.
    cbn [tid due t2] in Hfound.
    rewrite Hfound by (unfold s2e; cbn [now set_now]; rewrite Hnow2, Hn2; lia).
    cbn [cb t2 Downloader.runCallback].
    set (y := clearTimeout (S (nextTimer s)) s2e).
    assert (Hfy : Spec.fetchTimers y = []).
    { unfold y. rewrite DebounceFacts.fetchTimers_clearTimeout.
      change (Spec.fetchTimers s2e) with (Spec.fetchTimers (arm 180 a2)).
      rewrite F2. cbn. now rewrite Nat.eqb_refl. }
    assert (Hsent : sent (Downloader.fetchChildren y) =
                    if Str.blank (Str.trim (Downloader.normalize raw2)) then sent s
                    else (sent s ++ [Listdir (Some (Downloader.normalize (Str.trim (Downloader.normalize raw2))))])%list).
    { rewrite dl_fetchChildren_sent.
      change (value y) with (value (arm 180 a2)). rewrite Hva2, Hv2.
      change (sent y) with (sent (arm 180 a2)).
      rewrite Hsa2, Hsent2, Hsa1, Hsent1. reflexivity. }
    split; [|split].
    + rewrite (fetchTimers_same y); [exact Hfy|].
      apply DownloaderTimers.dl_sameT_fetchChildren.
    + exists (Str.trim (Downloader.normalize raw2)). split; [apply TrimFacts.trim_trims | exact Hsent].
    + intros Hplain. rewrite Hsent.
      unfold Spec.plainText in Hplain.
      apply andb_true_iff in Hplain as [Hplain Hds].
      apply andb_true_iff in Hplain as [Hplain Hbs].
      apply andb_true_iff in Hplain as [Hplain Hew].
      apply andb_true_iff in Hplain as [Hnb Hsw].
      apply negb_true_iff in Hds, Hbs, Hew, Hsw, Hnb.
      assert (Hnorm : Downloader.normalize raw2 = raw2).
      { unfold Downloader.normalize. rewrite (StrFacts.replaceBackslashes_fix raw2 Hbs).
        now apply StrFacts.collapseSlashes_fix. }
      rewrite Hnorm, (TrimFacts.trim_fix raw2 Hsw Hew), Hnb, Hnorm. reflexivity.
Qed.

Lemma blank_trim v : Str.blank v = true -> Str.blank (Str.trim v) = true.
Proof. destruct v; [reflexivity | discriminate]. Qed.

Lemma pu_fetchChildren_sent k (y : PathUploader.State) :
  sent (snd (PathUploader.fetchChildren k y)) =
  if Str.blank (Str.trim (value y)) then sent y
  else (sent y ++ [Listdir (Some (PathUploader.normalizePath (Str.trim (value y))))])%list.
Proof.
  unfold PathUploader.fetchChildren.
  destruct (Str.blank (value y)) eqn:B.
  - rewrite (blank_trim _ B). reflexivity.
  - cbn [orb]. destruct (Str.blank (Str.trim (value y))); reflexivity.
Qed.

(** The PathUploader copy: two edits less than 200 ms apart. *)
Lemma pu_debounce p (s : PathUploader.State) raw1 sel1 d raw2 sel2 :
  PathUploader.reachable p s -> (d < 200)%nat ->
  Spec.debounced PathUploader.step 200 PathUploader.normalizePath s raw1 sel1 d raw2 sel2.
Proof.
  unfold Spec.debounced.
  intros Hreach Hd.
  pose proof (PathUploaderTimers.pu_reachable_timers_ok p s Hreach) as Hok.
  cbn [PathUploader.step]. cbn zeta.
  destruct (DebounceFacts.pu_onInput_shape (set_caret sel1 (set_value raw1 s)))
    as (a1 & E1 & Hs1 & Hn1 & Hsent1 & Hv1).
  rewrite E1.
  destruct (DebounceFacts.pu_onInput_shape
              (set_caret sel2 (set_value raw2 (set_now (now (arm 200 a1) + d) (arm 200 a1)))))
    as (a2 & E2 & Hs2 & Hn2 & Hsent2 & Hv2).
  rewrite E2.
  cbn [now sent value set_caret set_value set_now] in Hn1, Hsent1, Hv1, Hn2, Hsent2, Hv2.
  assert (Hok1 : Spec.timers_ok a1) by (eapply TimerFacts.timers_ok_same; [exact Hs1 | exact Hok]).
  assert (Hnext1 : nextTimer a1 = nextTimer s).
  { destruct Hs1 as (_ & B & _). exact B. }
  assert (Hsame : Spec.same_timers (arm 200 a1) a2).
  { destruct Hs2 as (A & B & C).
    cbn [timers nextTimer debounceTimer set_caret set_value set_now] in A, B, C.
    repeat split; assumption. }
  destruct (DebounceFacts.arm_twice 200 a1 a2 Hok1 Hsame) as (F1 & F2 & Hgone & Hok2).
  destruct (TimerFacts.arm_timers 200 a1) as (_ & _ & _ & Hnow1).
  destruct (TimerFacts.arm_timers 200 a2) as (_ & _ & _ & Hnow2).
  destruct (DebounceFacts.arm_frame 200 a1) as (_ & Hsa1 & _).
  destruct (DebounceFacts.arm_frame 200 a2) as (Hva2 & Hsa2 & _).
  rewrite Hnow1, Hn1 in Hn2. rewrite Hnext1, Hn1 in F1. rewrite Hnext1, Hn2 in F2.
  rewrite Hnext1 in Hgone.
  split; [exact F1|]. split; [exact F2|].
  split; [|split].
  - (* within the window the first timer is not due *)
    set (s1' := set_now (now (arm 200 a1) + d) (arm 200 a1)).
    assert (Hin : In (mkTimer (nextTimer s) (now s + 200) CbFetchChildren) (timers s1')).
    { apply (DebounceFacts.fetchTimers_In (arm 200 a1)). rewrite F1. now left. }
    pose proof (DebounceFacts.dueTimer_early s1' _
                  (TimerFacts.timers_ok_arm 200 a1 Hok1) Hin) as Hearly.
    cbn [tid due] in Hearly. rewrite Hearly; [reflexivity|].
    unfold s1'. cbn [now set_now]. rewrite Hnow1, Hn1. lia.
  - (* afterwards its id is armed no more *)
    intros d'. rewrite TimerFacts.dueTimer_absent; [reflexivity|]. exact Hgone.
  - intros d' Hd'.
    set (s2e := set_now (now (arm 200 a2) + d') (arm 200 a2)).
    set (t2 := mkTimer (S (nextTimer s)) (now s + d + 200) CbFetchChildren).
    assert (Hin : In t2 (timers s2e)).
    { apply (DebounceFacts.fetchTimers_In (arm 200 a2)). rewrite F2. now left. }
    pose proof (DebounceFacts.dueTimer_found s2e t2 Hok2 Hin) as Hfound.
    cbn [tid due t2] in Hfound.
    rewrite Hfound by (unfold s2e; cbn [now set_now]; rewrite Hnow2, Hn2; lia).
    cbn [cb t2 PathUploader.runCallback].
    set (y := clearTimeout (S (nextTimer s)) s2e).
    assert (Hfy : Spec.fetchTimers y = []).
    { unfold y. rewrite DebounceFacts.fetchTimers_clearTimeout.
      change (Spec.fetchTimers s2e) with (Spec.fetchTimers (arm 200 a2)).
      rewrite F2. cbn. now rewrite Nat.eqb_refl. }
    assert (Hsent : sent (snd (PathUploader.fetchChildren PathUploader.FetchChildrenK y)) =
                    if Str.blank (Str.trim (PathUploader.normalizePath raw2)) then sent s
                    else (sent s ++ [Listdir (Some (PathUploader.normalizePath (Str.trim (PathUploader.normalizePath raw2))))])%list).
    { rewrite pu_fetchChildren_sent.
      change (value y) with (value (arm 200 a2)). rewrite Hva2, Hv2.
      change (sent y) with (sent (arm 200 a2)).
      rewrite Hsa2, Hsent2, Hsa1, Hsent1. reflexivity. }
    split; [|split].
    + rewrite (fetchTimers_same y); [exact Hfy|].
      apply PathUploaderTimers.pu_sameT_fetchChildren.
    + exists (Str.trim (PathUploader.normalizePath raw2)). split; [apply TrimFacts.trim_trims | exact Hsent].
    + intros Hplain. rewrite Hsent.
      unfold Spec.plainText in Hplain.
      apply andb_true_iff in Hplain as [Hplain Hds].
      apply andb_true_iff in Hplain as [Hplain Hbs].
      apply andb_true_iff in Hplain as [Hplain Hew].
      apply andb_true_iff in Hplain as [Hnb Hsw].
      apply negb_true_iff in Hds, Hbs, Hew, Hsw, Hnb.
      assert (Hnorm : PathUploader.normalizePath raw2 = raw2).
      { unfold PathUploader.normalizePath. now apply StrFacts.replaceBackslashes_fix. }
      rewrite Hnorm, (TrimFacts.trim_fix raw2 Hsw Hew), Hnb, Hnorm. reflexivity.
Qed.

(** In a reachable state at most one timer is armed for
    [fetchChildren]. *)
Lemma one_fetch_timer {K : Type} (s : State K) :
  Spec.timers_ok s -> (List.length (Spec.fetchTimers s) <= 1)%nat.
Proof.
  intros Hok.
  pose proof (TimerFacts.ids_distinct_filter Spec.isFetch (timers s) (proj1 Hok)) as Hnd.
  fold (Spec.fetchTimers s) in Hnd.
  destruct (Spec.fetchTimers s) as [|t [|t' l]] eqn:E; cbn; try lia.
  exfalso.
  assert (Ht : In t (Spec.fetchTimers s)) by (rewrite E; now left).
  assert (Ht' : In t' (Spec.fetchTimers s)) by (rewrite E; right; now left).
  apply DebounceFacts.fetchTimers_In in Ht as [Hin Hf].
  apply DebounceFacts.fetchTimers_In in Ht' as [Hin' Hf'].
  destruct Hok as (_ & _ & Hdeb).
  pose proof (Hdeb t Hin Hf) as H1. pose proof (Hdeb t' Hin' Hf') as H2.
  rewrite H1 in H2. injection H2 as H2.
  cbn [map] in Hnd. apply NoDup_cons_iff in Hnd as [Hnot _].
  apply Hnot. rewrite H2. now left.
Qed.

Lemma dl_timer_lookup (s : Downloader.State) id :
  Spec.fires_for_current_text Downloader.step Downloader.normalize s id.
Proof.
  unfold Spec.fires_for_current_text.
  exists (Str.trim (value s)). split; [apply TrimFacts.trim_trims|].
  cbn [Downloader.step]. destruct (dueTimer id s) as [t|]; [|now left].
  destruct (cb t); cbn [Downloader.runCallback]; [|now left].
  rewrite dl_fetchChildren_sent.
  change (value (clearTimeout id s)) with (value s).
  change (sent (clearTimeout id s)) with (sent s).
  destruct (Str.blank (Str.trim (value s))); [now left | right; now split].
Qed.

Lemma pu_timer_lookup (s : PathUploader.State) id :
  Spec.fires_for_current_text PathUploader.step PathUploader.normalizePath s id.
Proof.
  unfold Spec.fires_for_current_text.
  exists (Str.trim (value s)). split; [apply TrimFacts.trim_trims|].
  cbn [PathUploader.step]. destruct (dueTimer id s) as [t|]; [|now left].
  destruct (cb t); cbn [PathUploader.runCallback].
  - rewrite pu_fetchChildren_sent.
    change (value (clearTimeout id s)) with (value s).
    change (sent (clearTimeout id s)) with (sent s).
    destruct (Str.blank (Str.trim (value s))); [now left | right; now split].
  - left. destruct (DebounceFacts.pu_onInput_shape (clearTimeout id s))
      as (y & -> & _ & _ & Hsent & _).
    destruct (DebounceFacts.arm_frame 200 y) as (_ & -> & _). exact Hsent.
Qed.

(** C5.  Two calls of [scheduleFetch] within the debounce delay (two
    edits less than 180 ms apart in the downloaders, 200 ms in the
    PathUploader) leave one armed timer, that of the second call; the timer
    of the first call was cleared before the second was armed, so it never
    fires; when the remaining timer fires, one lookup is issued, for the
    text of the second edit: that text itself when it is plain, in general
    that text normalized, trimmed and normalized.  Whoever called
    [scheduleFetch], at no time is more than one timer armed for
    [fetchChildren], and a timer that fires looks up the text the box holds
    at that moment, never an earlier one. *)
Theorem C5_debounce :
  ((forall p s raw1 sel1 d raw2 sel2,
      Downloader.reachable p s -> (d < 180)%nat ->
      Spec.debounced Downloader.step 180 Downloader.normalize s raw1 sel1 d raw2 sel2) /\
   (forall p s, Downloader.reachable p s ->
      (List.length (Spec.fetchTimers s) <= 1)%nat) /\
   (forall (s : Downloader.State) id,
      Spec.fires_for_current_text Downloader.step Downloader.normalize s id)) /\
  ((forall p s raw1 sel1 d raw2 sel2,
      PathUploader.reachable p s -> (d < 200)%nat ->
      Spec.debounced PathUploader.step 200 PathUploader.normalizePath
        s raw1 sel1 d raw2 sel2) /\
   (forall p s, PathUploader.reachable p s ->
      (List.length (Spec.fetchTimers s) <= 1)%nat) /\
   (forall (s : PathUploader.State) id,
      Spec.fires_for_current_text PathUploader.step PathUploader.normalizePath s id)).
Proof.
  split; split; [| split | | split].
  - exact dl_debounce.
  - intros p s H. apply one_fetch_timer.
    exact (DownloaderTimers.dl_reachable_timers_ok p s H).
  - exact dl_timer_lookup.
  - exact pu_debounce.
  - intros p s H. apply one_fetch_timer.
    exact (PathUploaderTimers.pu_reachable_timers_ok p s H).
  - exact pu_timer_lookup.
Qed.

(** C5 on the Aria2 field after a focus: [/s] is typed, then [/srv]
    100 ms later; the timer of the first edit, id 1, does not fire, and 180 ms
    after the second edit the timer with id 2 fires: the requests sent are
    the prefill, the root query of the focus and the one lookup of
    [/srv]. *)
Lemma C5_witness :
  Downloader.step
    (Downloader.step
       (Downloader.step (Downloader.step (Downloader.init EmptyString) Focus)
          (Input "/s" 2))
       (Elapse 100))
    (TimerFire 1)
  = Downloader.step
      (Downloader.step (Downloader.step (Downloader.init EmptyString) Focus)
         (Input "/s" 2))
      (Elapse 100) /\
  sent
    (Downloader.step
       (Downloader.step
          (Downloader.step
             (Downloader.step
                (Downloader.step (Downloader.step (Downloader.init EmptyString) Focus)
                   (Input "/s" 2))
                (Elapse 100))
             (Input "/srv" 4))
          (Elapse 180))
       (TimerFire 2))
  = [Listdir None; Listdir None; Listdir (Some "/srv")].
Proof.
  assert (Hr : Downloader.reachable EmptyString
                 (Downloader.step (Downloader.init EmptyString) Focus))
    by apply Downloader.reach_step, Downloader.reach_init.
  assert (Hd : (100 < 180)%nat) by (apply Nat.ltb_lt; exact (eq_refl true)).
  pose proof (proj1 (proj1 C5_debounce) EmptyString
                (Downloader.step (Downloader.init EmptyString) Focus)
                "/s" 2 100%nat "/srv" 4 Hr Hd) as H.
  split.
  - exact (proj1 (proj2 (proj2 H))).
  - exact (proj2 (proj2 (proj2 (proj2 (proj2 (proj2 H))) 180%nat (le_n 180)))
             (eq_refl true)).
Defined.

(** ** Blur and Escape *)

Section Dismissal.
Context {K : Type}.
Implicit Type s : State K.

(** What both listeners do after the timer: [items = []; active = -1;
    dropdown.style.display = "none"]. *)
Lemma blur_body s :
  Spec.timers_ok s ->
  let s' := set_display false (set_active (-1) (set_items [] (cancelDebounce s))) in
  Spec.hidden s' /\ Spec.fetchTimers s' = [] /\ debounceTimer s' = None /\
  inflight s' = inflight s.
Proof.
  intros Hok. cbn zeta. split; [repeat split|].
  split; [exact (TimerFacts.cancelDebounce_fetchTimers s Hok)|].
  unfold cancelDebounce. destruct (debounceTimer s) eqn:E; cbn; auto.
Qed.

End Dismissal.

(** C6 (as amended).  Blur clears the armed debounce timer, empties the
    suggestions, puts [active] at [-1] and hides the overlay, at once.
    Escape does the last three and leaves the timer armed; it is acted on
    only while there are suggestions (and, in the downloaders, the overlay
    is shown), and is ignored otherwise.  Neither touches the requests in
    flight. *)
Theorem C6_blur_and_escape :
  (forall p (s : Downloader.State), Downloader.reachable p s ->
     let s' := Downloader.step s Blur in
     Spec.hidden s' /\ Spec.fetchTimers s' = [] /\ debounceTimer s' = None /\
     inflight s' = inflight s) /\
  (forall p (s : PathUploader.State), PathUploader.reachable p s ->
     let s' := PathUploader.step s Blur in
     Spec.hidden s' /\ Spec.fetchTimers s' = [] /\ debounceTimer s' = None /\
     inflight s' = inflight s) /\
  (forall s : Downloader.State,
     let s' := Downloader.step s (KeyDown Escape) in
     (display s = true -> items s <> [] ->
      Spec.hidden s' /\ timers s' = timers s /\ debounceTimer s' = debounceTimer s /\
      inflight s' = inflight s) /\
     (display s = false \/ items s = [] -> s' = s)) /\
  (forall s : PathUploader.State,
     let s' := PathUploader.step s (KeyDown Escape) in
     (items s <> [] ->
      Spec.hidden s' /\ timers s' = timers s /\ debounceTimer s' = debounceTimer s /\
      inflight s' = inflight s) /\
     (items s = [] -> s' = s)).
Proof.
  split; [|split; [|split]].
  - intros p s Hr.
    apply (blur_body (set_focused false s)).
    exact (DownloaderTimers.dl_reachable_timers_ok p s Hr).
  - intros p s Hr.
    apply (blur_body (set_focused false s)).
    exact (PathUploaderTimers.pu_reachable_timers_ok p s Hr).
  - intros s. cbn [Downloader.step]. unfold Downloader.onKeyDown. split.
    + intros Hd Hi. rewrite Hd. destruct (items s) eqn:E; [congruence|].
      cbn. repeat split.
    + intros [Hd|Hi]; [now rewrite Hd | now rewrite Hi, orb_true_r].
  - intros s. cbn [PathUploader.step]. unfold PathUploader.onKeyDown.
    cbn [PathUploader.isArrow andb]. unfold PathUploader.onKeyDown_rest. split.
    + intros Hi. destruct (items s) eqn:E; [congruence|].
      cbn. repeat split.
    + intros Hi. now rewrite Hi.
Qed.

(** C6 on the Aria2 field: a blur while the debounce timer is armed. *)
Lemma C6_witness :
  Spec.fetchTimers
    (Downloader.step (Downloader.step (Downloader.init "/srv") Focus) Blur) = [].
Proof.
  apply (proj1 C6_blur_and_escape "/srv").
  apply Downloader.reach_step, Downloader.reach_init.
Defined.

(** C6, as stated, fails for Escape: the timer armed by the edit before
    it stays armed, fires, and the lookup goes out. *)
Lemma C6_counterexample :
  let s := Downloader.run (Downloader.init "/srv")
             [Focus; Elapse 180; TimerFire 1;
              Response 1 (Http 200 (Some (Spec.listdirOk None ["a"])));
              Input "/srv/a" 6; KeyDown Escape] in
  Spec.fetchTimers s = [mkTimer 2 360 CbFetchChildren] /\
  sent (Downloader.run s [Elapse 180; TimerFire 2])
  = (sent s ++ [Listdir (Some "/srv/a")])%list.
Proof. vm_compute. split; reflexivity. Qed.

(** ** The entries of a listing *)

Lemma replaceBackslashes_app a b :
  Str.replaceBackslashes (a ++ b) = Str.replaceBackslashes a ++ Str.replaceBackslashes b.
Proof. induction a as [|c a IH]; cbn; [reflexivity | now rewrite IH]. Qed.

Lemma joinPath_strings base seg :
  PathUploader.joinPath (Some (Js.JStr base)) (Some (Js.JStr seg))
  = inr (PathUploader.joinPath_str base seg).
Proof.
  unfold PathUploader.joinPath, PathUploader.joinPath_str,
    PathUploader.normalizePath_js, PathUploader.normalizePath, Js.or_else.
  destruct base as [|c base]; destruct seg as [|c' seg]; cbn;
    repeat match goal with |- context [if ?b then _ else _] => destruct b end;
    reflexivity.
Qed.

Lemma dl_listing_ok val st data parent folders names :
  Spec.lists val data parent folders names ->
  Downloader.listing val (Http st (Some data))
  = inr (map (fun n => mkItem (Some (Js.JStr n))
                         (Downloader.normalize (parent ++ "/" ++ n))) names).
Proof.
  intros (Hok & Hf & Hnames & Hroot).
  unfold Downloader.listing.
  cbn [awaitFetch awaitJson Js.bind Js.ret snd].
  assert (Hd : Js.truthy (Some data) = true).
  { destruct data; cbn in Hok; try discriminate. reflexivity. }
  rewrite Hd, Hok, Hf, Hroot. cbn [Js.isArray andb].
  match goal with |- Js.mapM ?g _ = _ => set (entry := g) end.
  clear Hf. induction Hnames as [|f n fs ns Hfn _ IH]; [reflexivity|].
  cbn [Js.mapM map]. rewrite IH.
  assert (Hm : Js.member (Some f) "name" = inr (Some (Js.JStr n))).
  { destruct f; cbn in Hfn; try discriminate. cbn. now rewrite Hfn. }
  unfold entry. rewrite Hm. reflexivity.
Qed.

Lemma pu_listing_ok val st data parent folders names :
  Spec.lists val data parent folders names ->
  PathUploader.listing val (Http st (Some data))
  = inr (map (fun n => mkItem (Some (Js.JStr n))
                         (PathUploader.joinPath_str parent n)) names).
Proof.
  intros (Hok & Hf & Hnames & Hroot).
  unfold PathUploader.listing.
  cbn [awaitFetch awaitJson Js.bind Js.ret snd].
  assert (Hd : Js.optMember (Some data) "ok" = Js.prop data "ok").
  { destruct data; reflexivity. }
  rewrite Hd, Hok, Hf, Hroot. cbn [Js.truthy andb].
  clear Hf. induction Hnames as [|f n fs ns Hfn _ IH]; [reflexivity|].
  cbn [Js.mapM map].
  assert (Hm : Js.member (Some f) "name" = inr (Some (Js.JStr n))).
  { destruct f; cbn in Hfn; try discriminate. cbn. now rewrite Hfn. }
  rewrite Hm. cbn [Js.bind Js.ret]. rewrite joinPath_strings.
  cbn [Js.bind Js.ret]. rewrite IH. reflexivity.
Qed.

Lemma blank_false_cons s : Str.blank s = false -> exists c rest, s = String c rest.
Proof. destruct s as [|c rest]; [discriminate | eauto]. Qed.

Lemma joinPath_str_plain parent n :
  Str.blank parent = false -> Str.blank n = false ->
  Str.endsWithSlash (PathUploader.normalizePath parent) = false ->
  PathUploader.joinPath_str parent n = PathUploader.normalizePath (parent ++ "/" ++ n).
Proof.
  intros Hp Hn Hs. unfold PathUploader.joinPath_str. rewrite Hs.
  unfold PathUploader.normalizePath in *.
  rewrite !replaceBackslashes_app.
  apply blank_false_cons in Hp as (c & r & ->).
  apply blank_false_cons in Hn as (c' & r' & ->).
  reflexivity.
Qed.

(** C8 (as amended).  A response with a truthy [ok] and an array of named
    folders replaces the suggestions by one entry per folder, in the order
    of the response, and [active] is 0 unless there is none.  With [parent]
    the response's root, or the path looked up when it has none, the path
    of an entry is, in the downloaders, [parent + "/" + name] normalized
    (backslashes to slashes, runs of slashes to one); in the PathUploader
    it is [joinPath(parent, name)]: backslashes to slashes in both, and one
    slash between them unless [parent] ends with one, which is
    [parent + "/" + name] with backslashes replaced whenever [parent] does
    not end with a slash.  In every copy, [C:\Users\me] typed leaves
    [C:/Users/me] in the box and the folders [Downloads] and [Desktop] give
    the paths [C:/Users/me/Downloads] and [C:/Users/me/Desktop]. *)
Theorem C8_listing_entries :
  (forall (s : Downloader.State) val st data parent folders names,
     Spec.lists val data parent folders names ->
     let s' := Downloader.fetchChildren_resume val (Http st (Some data)) s in
     items s' = map (fun n => mkItem (Some (Js.JStr n))
                                (Downloader.normalize (parent ++ "/" ++ n))) names /\
     active s' = match names with [] => -1 | _ :: _ => 0 end) /\
  (forall (s : PathUploader.State) val st data parent folders names,
     Spec.lists val data parent folders names ->
     let s' := PathUploader.fetchChildren_resume val (Http st (Some data)) s in
     items s' = map (fun n => mkItem (Some (Js.JStr n))
                                (PathUploader.joinPath_str parent n)) names /\
     active s' = match names with [] => -1 | _ :: _ => 0 end) /\
  (forall parent n,
     Str.blank parent = false -> Str.blank n = false ->
     Str.endsWithSlash (PathUploader.normalizePath parent) = false ->
     PathUploader.joinPath_str parent n
     = PathUploader.normalizePath (parent ++ "/" ++ n)) /\
  (let listed := Http 200 (Some (Spec.listdirOk None ["Downloads"; "Desktop"])) in
   let entries := [mkItem (Some (Js.JStr "Downloads")) "C:/Users/me/Downloads";
                   mkItem (Some (Js.JStr "Desktop")) "C:/Users/me/Desktop"] in
   let typed := Downloader.run (Downloader.init EmptyString)
                  [Focus; Input "C:\Users\me" 11] in
   let s := Downloader.run typed [Elapse 180; TimerFire 1; Response 2 listed] in
   let typed' := PathUploader.run (PathUploader.init EmptyString)
                   [Focus; Input "C:\Users\me" 11] in
   let s' := PathUploader.run typed' [Elapse 200; TimerFire 1; Response 2 listed] in
   (value typed = "C:/Users/me" /\ items s = entries /\ active s = 0) /\
   (value typed' = "C:/Users/me" /\ items s' = entries /\ active s' = 0)).
Proof.
  split; [|split; [|split]].
  - intros s val st data parent folders names H.
    unfold Downloader.fetchChildren_resume, Downloader.renderDropdown.
    rewrite (dl_listing_ok val st data parent folders names H).
    cbn [Js.try_catch]. destruct names; cbn; destruct (focused s); cbn; split; reflexivity.
  - intros s val st data parent folders names H.
    unfold PathUploader.fetchChildren_resume, PathUploader.renderDropdown.
    rewrite (pu_listing_ok val st data parent folders names H).
    cbn [Js.try_catch]. destruct names; cbn; destruct (focused s); cbn; split; reflexivity.
  - exact joinPath_str_plain.
  - vm_compute. repeat split; reflexivity.
Qed.

(** C8 on the folders of the example. *)
Lemma C8_witness :
  map path
    (items (Downloader.fetchChildren_resume "C:/Users/me"
              (Http 200 (Some (Spec.listdirOk None ["Downloads"; "Desktop"])))
              (Downloader.init EmptyString)))
  = ["C:/Users/me/Downloads"; "C:/Users/me/Desktop"].
Proof.
  rewrite (proj1 (proj1 C8_listing_entries (Downloader.init EmptyString)
             "C:/Users/me" 200%nat (Spec.listdirOk None ["Downloads"; "Desktop"])
             "C:/Users/me" (map Spec.folderOf ["Downloads"; "Desktop"])
             ["Downloads"; "Desktop"]
             ltac:(repeat split; repeat constructor))).
  reflexivity.
Defined.

(** C8, as stated, fails in the PathUploader copy: for the parent
    [//nas/] and the folder [x] the entry's path is [//nas/x], which is
    [parent + "/" + name] under neither normalization. *)
Lemma C8_counterexample :
  let s := PathUploader.run (PathUploader.init "/srv")
             [Focus; Elapse 200; TimerFire 2;
              Response 1 (Http 200 (Some (Spec.listdirOk (Some "//nas/") ["x"])))] in
  map path (items s) = ["//nas/x"] /\
  PathUploader.normalizePath ("//nas/" ++ "/" ++ "x") <> "//nas/x" /\
  Downloader.normalize ("//nas/" ++ "/" ++ "x") <> "//nas/x".
Proof. vm_compute. repeat split; discriminate. Qed.

(** ** Focus *)




Section Seeding.
Context {K : Type}.
Implicit Type s : State K.



End Seeding.




(** ** Enter without a highlighted suggestion *)





(** * Further properties of the code *)

(** ** Durations and sizes *)

Module FormatFacts.
Import Stdlib.QArith.QArith Stdlib.QArith.Qround Stdlib.micromega.Lqa.
Import Format.
Local Open Scope Z_scope.

Lemma wholeSeconds_int n :
  0 <= n < 2147483648 -> wholeSeconds (inject_Z n) = n.
Proof.
  intros H. unfold wholeSeconds, truncQ, toInt32. cbn [Qnum Qden inject_Z].
  rewrite Z.quot_1_r, Z.mod_small by lia. lia.
Qed.

Lemma wholeSeconds_negative n :
  -2147483648 <= n < 0 -> wholeSeconds (inject_Z n) = 0.
Proof.
  intros H. unfold wholeSeconds, truncQ, toInt32. cbn [Qnum Qden inject_Z].
  rewrite Z.quot_1_r, Z.mod_small by lia. lia.
Qed.

Lemma wholeSeconds_range sec : 0 <= wholeSeconds sec < 2147483648.
Proof.
  unfold wholeSeconds, toInt32.
  pose proof (Z.mod_pos_bound (truncQ sec + 2147483648) 4294967296 eq_refl). lia.
Qed.

End FormatFacts.

Module BytesFacts.
Import Stdlib.QArith.QArith Stdlib.QArith.Qround Stdlib.micromega.Lqa.
Import Format.
Local Open Scope Q_scope.

Lemma kibi_pos i : 0 < kibi i.
Proof. induction i as [|i IH]; cbn [kibi]; lra. Qed.

(** What the loop keeps: [v] is [bytes] in units of [1024^i], and at
    least one such unit once the loop has run. *)
Lemma scale_spec bytes fuel :
  forall v i,
    (i + fuel = 4)%nat ->
    v * kibi i == bytes ->
    ((0 < i)%nat -> 1 <= v) ->
    let '(v', i') := scale fuel v i in
    v' * kibi i' == bytes /\ (i' <= 4)%nat /\
    ((i' < 4)%nat -> v' < 1024 # 1) /\ ((0 < i')%nat -> 1 <= v').
Proof.
  induction fuel as [|fuel IH]; intros v i Hi Hv Hone.
  - cbn [scale]. repeat split; auto; lia.
  - cbn [scale]. destruct (Qle_bool (1024 # 1) v) eqn:Ev.
    + assert (Hlt : (i <? List.length units - 1)%nat = true)
        by (apply Nat.ltb_lt; cbn; lia).
      rewrite Hlt. cbn [andb].
      apply Qle_bool_iff in Ev.
      apply IH; [lia | | intros _].
      * cbn [kibi]. rewrite <- Hv. field.
      * apply Qle_shift_div_l; lra.
    + cbn [andb].
      assert (Hv' : v < 1024 # 1).
      { apply Qnot_le_lt. intros H. apply Qle_bool_iff in H. congruence. }
      repeat split; auto; lia.
Qed.

Lemma Qfloor_half n : Qfloor (inject_Z n * inject_Z (10 ^ Z.of_nat 0) + (1 # 2)) = n.
Proof.
  unfold Qfloor, Qplus, Qmult, inject_Z. cbn.
  symmetry. apply (Z.div_unique _ _ _ 1); lia.
Qed.

End BytesFacts.

Section FormatProps.
Import Stdlib.QArith.QArith.
Local Open Scope Z_scope.

(** Both widgets print a duration the same way: seconds alone below a
    minute, minutes and seconds below an hour, hours and minutes from an
    hour on, the seconds then dropped; a negative whole number of seconds
    from [-2^31] on prints as [0s], and below that [sec | 0] wraps around,
    [-2147483649] printing as [596523h 14m]; whatever the number, the parts
    printed are those of [Math.max(0, sec | 0)], a whole number of seconds
    in [0, 2^31). *)
Theorem fmtETA_thresholds :
  (forall sec, Format.fmtDuration sec = Format.fmtETA sec) /\
  (forall n, 0 <= n < 2147483648 ->
     Format.fmtETA (Some (inject_Z n)) =
     if n <? 60 then Js.showZ n ++ "s"
     else if n <? 3600 then Js.showZ (n / 60) ++ "m " ++ Js.showZ (n mod 60) ++ "s"
     else Js.showZ (n / 3600) ++ "h " ++ Js.showZ (n mod 3600 / 60) ++ "m") /\
  (forall n, -2147483648 <= n < 0 ->
     Format.fmtETA (Some (inject_Z n)) = "0s") /\
  (forall n, Format.wholeSeconds (inject_Z n) = Z.max 0 (Format.toInt32 n)) /\
  Format.fmtETA (Some (inject_Z (-2147483649))) = "596523h 14m" /\
  (forall sec,
     let n := Format.wholeSeconds sec in
     0 <= n < 2147483648 /\
     n = 3600 * (n / 3600) + 60 * (Z.rem n 3600 / 60) + Z.rem n 60 /\
     0 <= Z.rem n 3600 / 60 < 60 /\ 0 <= Z.rem n 60 < 60).
Proof.
  split; [reflexivity|]. split; [|split; [|split; [|split]]].
  - intros n H. unfold Format.fmtETA.
    rewrite (FormatFacts.wholeSeconds_int n H). cbn zeta.
    rewrite !Z.rem_mod_nonneg by lia.
    destruct (n <? 60) eqn:E60.
    + apply Z.ltb_lt in E60.
      rewrite (Z.div_small n 3600), (Z.mod_small n 3600), (Z.div_small n 60),
        (Z.mod_small n 60) by lia.
      reflexivity.
    + apply Z.ltb_ge in E60. destruct (n <? 3600) eqn:E3600.
      * apply Z.ltb_lt in E3600.
        rewrite (Z.div_small n 3600), (Z.mod_small n 3600) by lia. cbn [Z.eqb negb].
        assert (Hm : n / 60 <> 0).
        { intros Hz. apply Z.div_small_iff in Hz; lia. }
        apply Z.eqb_neq in Hm. rewrite Hm. reflexivity.
      * apply Z.ltb_ge in E3600.
        assert (Hh : n / 3600 <> 0).
        { intros Hz. apply Z.div_small_iff in Hz; lia. }
        apply Z.eqb_neq in Hh. rewrite Hh. reflexivity.
  - intros n H. unfold Format.fmtETA.
    rewrite (FormatFacts.wholeSeconds_negative n H). reflexivity.
  - intros n. unfold Format.wholeSeconds, Format.truncQ. cbn [Qnum Qden inject_Z].
    now rewrite Z.quot_1_r.
  - reflexivity.
  - intros sec. cbn zeta.
    pose proof (FormatFacts.wholeSeconds_range sec) as H.
    set (n := Format.wholeSeconds sec) in *.
    rewrite !Z.rem_mod_nonneg by lia.
    split; [exact H|].
    pose proof (Z.div_mod n 3600 ltac:(lia)) as H1.
    pose proof (Z.div_mod (n mod 3600) 60 ltac:(lia)) as H2.
    pose proof (Z.mod_pos_bound n 3600 eq_refl) as B1.
    pose proof (Z.mod_pos_bound n 60 eq_refl) as B2.
    pose proof (Z.mod_pos_bound (n mod 3600) 60 eq_refl) as B3.
    assert (Hmm : (n mod 3600) mod 60 = n mod 60).
    { symmetry. rewrite H1 at 1.
      replace (3600 * (n / 3600) + n mod 3600)
        with (n mod 3600 + (60 * (n / 3600)) * 60) by lia.
      apply Z.mod_add. lia. }
    split; [lia|]. split; [|lia].
    split; [apply Z.div_pos; lia|].
    apply Z.div_lt_upper_bound; lia.
Qed.

(** [fmtETA] on an hour, a minute and five seconds. *)
Lemma fmtETA_thresholds_witness :
  Format.fmtETA (Some (inject_Z 3665)) = "1h 1m".
Proof.
  rewrite (proj1 (proj2 fmtETA_thresholds) 3665 ltac:(lia)). reflexivity.
Defined.


(** [fmtBytes] prints [0 B] for nothing or less; otherwise its loop
    scales the amount to a unit among B, KB, MB, GB, TB: the scaled value
    [v], before any rounding, times [1024^i] is the amount, [v] is at least
    1 in any unit above B and below 1024 in any unit below TB.  The text is
    [v] rounded by [toFixed] to one decimal when [v < 10] in a unit above B
    and to a whole number otherwise, then the unit (for an amount below
    [10^21], where [toFixed] prints digits); the rounding is made after the
    scaling, so it can print 1024 of a unit.  A whole number of bytes below
    1024 is printed as it is. *)
Theorem fmtBytes_unit :
  (forall bytes, (bytes <= 0)%Q -> Format.fmtBytes bytes = "0 B") /\
  (forall bytes, (0 < bytes)%Q ->
     let v := fst (Format.scale 4 bytes 0) in
     let i := snd (Format.scale 4 bytes 0) in
     (v * Format.kibi i == bytes)%Q /\
     (i <= 4)%nat /\
     ((i < 4)%nat -> (v < 1024 # 1)%Q) /\
     ((0 < i)%nat -> (1 <= v)%Q) /\
     ((bytes < inject_Z (10 ^ 21))%Q ->
      Format.fmtBytes bytes =
        Format.toFixed v
          (if negb (Qle_bool (10 # 1) v) && (0 <? i)%nat then 1%nat else 0%nat)
        ++ " " ++ nth i Format.units EmptyString)) /\
  (forall n, 0 < n < 1024 ->
     Format.fmtBytes (inject_Z n) = Js.showZ n ++ " B") /\
  Format.fmtBytes (inject_Z 1048575) = "1024 KB" /\
  Format.fmtBytes (1023999 # 1000) = "1024 B".
Proof.
  split; [|split; [|split; [|split]]].
  - intros bytes H. unfold Format.fmtBytes.
    apply Qle_bool_iff in H. now rewrite H.
  - intros bytes H. cbn zeta.
    pose proof (BytesFacts.scale_spec bytes 4 bytes 0) as S.
    assert (Hfmt : Format.fmtBytes bytes =
                   Format.toFixed (fst (Format.scale 4 bytes 0))
                     (if negb (Qle_bool (10 # 1) (fst (Format.scale 4 bytes 0)))
                         && (0 <? snd (Format.scale 4 bytes 0))%nat
                      then 1%nat else 0%nat)
                   ++ " " ++ nth (snd (Format.scale 4 bytes 0)) Format.units EmptyString).
    { unfold Format.fmtBytes.
      assert (Hb : Qle_bool bytes 0 = false).
      { destruct (Qle_bool bytes 0) eqn:B; [|reflexivity].
        apply Qle_bool_iff in B.
        exfalso. apply (Qlt_not_le _ _ H). exact B. }
      rewrite Hb. change (List.length Format.units - 1)%nat with 4%nat.
      destruct (Format.scale 4 bytes 0) as [v i]. reflexivity. }
    destruct (Format.scale 4 bytes 0) as [v i] eqn:E. cbn [fst snd] in *.
    destruct S as (S1 & S2 & S3 & S4);
      [reflexivity | cbn [Format.kibi]; ring | lia |].
    repeat split; auto.
  - intros n H. unfold Format.fmtBytes.
    assert (Hb : Qle_bool (inject_Z n) 0 = false).
    { unfold Qle_bool. cbn. apply Z.leb_gt. lia. }
    rewrite Hb. change (List.length Format.units - 1)%nat with 4%nat.
    cbn [Format.scale].
    assert (Hs : Qle_bool (1024 # 1) (inject_Z n) = false).
    { unfold Qle_bool. cbn. apply Z.leb_gt. lia. }
    rewrite Hs. cbn [andb Nat.ltb Nat.leb].
    rewrite andb_false_r. unfold Format.toFixed.
    rewrite BytesFacts.Qfloor_half. reflexivity.
  - reflexivity.
  - reflexivity.
Qed.

(** [fmtBytes] on a kibibyte and a half. *)
Lemma fmtBytes_unit_witness :
  (fst (Format.scale 4 (inject_Z 1536) 0)
   * Format.kibi (snd (Format.scale 4 (inject_Z 1536) 0)) == inject_Z 1536)%Q /\
  Format.fmtBytes (inject_Z 1536) = "1.5 KB".
Proof.
  split; [|reflexivity].
  exact (proj1 (proj1 (proj2 fmtBytes_unit) (inject_Z 1536) eq_refl)).
Defined.

End FormatProps.

(** ** The highlighted row and the scroll position *)

(** In a laid-out dropdown, [ensureActiveVisible] brings a row that fits
    into the box fully into view, moving the scroll position only if the
    row was not in view already and never touching the rows; an index
    outside the rows leaves the dropdown as it is. *)
Theorem ensureActiveVisible_in_view (d : Scroll.Box) (idx : Z) :
  (forall el,
     Scroll.laidOut d ->
     0 <= idx ->
     nth_error (Scroll.children d) (Z.to_nat idx) = Some el ->
     Scroll.offsetHeight el <= Scroll.clientHeight d ->
     let d' := Scroll.ensureActiveVisible d idx in
     Scroll.inView el d' /\ Scroll.laidOut d' /\
     Scroll.children d' = Scroll.children d /\
     (Scroll.inView el d -> d' = d)) /\
  (idx < 0 \/ length_Z (Scroll.children d) <= idx ->
   Scroll.ensureActiveVisible d idx = d).
Proof.
  split.
  - intros el (Hc & Hs & Hrows) Hidx Hel Hfit. cbn zeta.
    assert (Hin : In el (Scroll.children d)) by (eapply nth_error_In; eauto).
    pose proof (proj1 (Forall_forall _ _) Hrows el Hin) as (Ht & Hh & Hb).
    assert (Hlen : idx < length_Z (Scroll.children d)).
    { unfold length_Z.
      assert (Z.to_nat idx < List.length (Scroll.children d))%nat
        by (apply nth_error_Some; congruence).
      lia. }
    unfold Scroll.ensureActiveVisible.
    replace (idx <? 0) with false by (symmetry; apply Z.ltb_ge; lia).
    replace (length_Z (Scroll.children d) <=? idx) with false
      by (symmetry; apply Z.leb_gt; lia).
    cbn [orb]. rewrite Hel.
    unfold Scroll.inView, Scroll.laidOut, Scroll.set_scrollTop.
    destruct (Scroll.offsetTop el <? Scroll.scrollTop d) eqn:E1.
    + apply Z.ltb_lt in E1. cbn.
      repeat split; auto; try lia.
    + apply Z.ltb_ge in E1.
      destruct (Scroll.scrollTop d + Scroll.clientHeight d
                <? Scroll.offsetTop el + Scroll.offsetHeight el) eqn:E2.
      * apply Z.ltb_lt in E2. cbn.
        repeat split; auto; try lia.
      * apply Z.ltb_ge in E2. repeat split; auto; lia.
  - intros H. unfold Scroll.ensureActiveVisible.
    destruct H as [H|H].
    + replace (idx <? 0) with true by (symmetry; apply Z.ltb_lt; lia). reflexivity.
    + replace (length_Z (Scroll.children d) <=? idx) with true
        by (symmetry; apply Z.leb_le; lia).
      now rewrite orb_true_r.
Qed.

(** Ten rows of 20 px in a box of 100 px, scrolled to the top: the eighth
    row comes into view. *)
Lemma ensureActiveVisible_in_view_witness :
  Scroll.inView (Scroll.mkRow 140 20)
    (Scroll.ensureActiveVisible
       (Scroll.mkBox (map (fun k => Scroll.mkRow (20 * Z.of_nat k) 20) (seq 0 10))
          0 100 200) 7) /\
  Scroll.scrollTop
    (Scroll.ensureActiveVisible
       (Scroll.mkBox (map (fun k => Scroll.mkRow (20 * Z.of_nat k) 20) (seq 0 10))
          0 100 200) 7) = 60.
Proof.
  split; [|reflexivity].
  apply (proj1 (ensureActiveVisible_in_view
                  (Scroll.mkBox (map (fun k => Scroll.mkRow (20 * Z.of_nat k) 20) (seq 0 10))
                     0 100 200) 7)
               (Scroll.mkRow 140 20)).
  - unfold Scroll.laidOut; cbn; repeat split; try lia.
    repeat constructor; cbn; lia.
  - lia.
  - reflexivity.
  - cbn; lia.
Defined.

(** ** The token box *)

Lemma applyToken_manual r (s : Token.State) :
  Token.autoToken s = false ->
  Str.blank (Str.trim (Token.tokenValue s)) = false ->
  Token.applyToken r s = s.
Proof.
  intros Ha Hb. unfold Token.applyToken.
  destruct (Js.try_catch (Token.tokenOf r) None) as [tok|]; [|reflexivity].
  rewrite Ha, Hb. cbn [orb]. now rewrite andb_false_r.
Qed.

(** A token that holds more than white space, typed by the user or
    persisted with the node, is never replaced by an automatic one: whatever
    responses the token lookups bring, in whatever number, box and property
    keep it.  A box that is blank, also one in which white space was typed,
    or that holds an automatic token takes the token of a response that has
    one; a token of the response that does not convert to a string changes
    nothing. *)
Theorem typed_token_is_kept :
  (forall v s rs,
     Str.blank (Str.trim v) = false ->
     fold_left (fun s r => Token.applyToken r s) rs (Token.onInput v s)
     = Token.mkState v (Js.JStr v) false) /\
  (forall p rs,
     Str.blank (Str.trim p) = false ->
     fold_left (fun s r => Token.applyToken r s) rs (Token.init p) = Token.init p) /\
  (forall s st data tok,
     Token.autoToken s = true \/ Str.blank (Str.trim (Token.tokenValue s)) = true ->
     Js.prop data "token" = Some (Js.JStr tok) ->
     Str.blank tok = false ->
     Token.singleLine tok = true ->
     Token.applyToken (Http st (Some data)) s = Token.mkState tok (Js.JStr tok) true) /\
  (forall v s st data tok,
     Str.blank (Str.trim v) = true ->
     Js.prop data "token" = Some (Js.JStr tok) ->
     Str.blank tok = false ->
     Token.singleLine tok = true ->
     Token.applyToken (Http st (Some data)) (Token.onInput v s)
     = Token.mkState tok (Js.JStr tok) true) /\
  (forall s st data tok e,
     Js.prop data "token" = Some tok ->
     Js.jsonToString tok = inl e ->
     Token.applyToken (Http st (Some data)) s = s).
Proof.
  assert (Hkeep : forall rs s,
            Token.autoToken s = false ->
            Str.blank (Str.trim (Token.tokenValue s)) = false ->
            fold_left (fun s r => Token.applyToken r s) rs s = s).
  { induction rs as [|r rs IH]; intros s Ha Hb; [reflexivity|].
    cbn [fold_left]. rewrite (applyToken_manual r s Ha Hb). now apply IH. }
  assert (Htake : forall s st data tok,
            Token.autoToken s = true \/ Str.blank (Str.trim (Token.tokenValue s)) = true ->
            Js.prop data "token" = Some (Js.JStr tok) ->
            Str.blank tok = false ->
            Token.applyToken (Http st (Some data)) s
            = Token.mkState tok (Js.JStr tok) true).
  { intros s st data tok Hs Htok Hb.
    unfold Token.applyToken, Token.tokenOf.
    cbn [awaitFetch awaitJson Js.bind Js.ret snd].
    assert (Hd : Js.truthy (Some data) = true).
    { destruct data; cbn in Htok; try discriminate. reflexivity. }
    rewrite Hd, Htok. cbn [Js.truthy andb]. rewrite Hb. cbn [negb].
    unfold Js.ret, Js.try_catch. cbn [Js.truthy]. rewrite Hb. cbn [negb andb].
    assert (Hor : Token.autoToken s || Str.blank (Str.trim (Token.tokenValue s)) = true).
    { destruct Hs as [H|H]; rewrite H; [reflexivity | apply orb_true_r]. }
    rewrite Hor. reflexivity. }
  split; [|split; [|split; [|split]]].
  - intros v s rs Hb. now apply Hkeep.
  - intros p rs Hb. apply Hkeep; [|exact Hb].
    unfold Token.init. cbn [Token.autoToken]. exact Hb.
  - intros s st data tok Hs Htok Hb _. now apply Htake.
  - intros v s st data tok Hv Htok Hb _. apply Htake; auto.
  - intros s st data tok e Htok He.
    unfold Token.applyToken, Token.tokenOf.
    cbn [awaitFetch awaitJson Js.bind Js.ret snd].
    destruct (Js.truthy (Some data) && Js.truthy (Js.prop data "token"));
      unfold Js.ret, Js.try_catch.
    + rewrite Htok, He. now destruct (_ && _).
    + cbn [Js.truthy Str.blank negb andb]. reflexivity.
Qed.

(** A typed token against two automatic ones. *)
Lemma typed_token_is_kept_witness :
  Token.tokenValue
    (fold_left (fun s r => Token.applyToken r s)
       [Http 200 (Some (Js.JObj [("token", Js.JStr "hf_auto")]));
        Http 200 (Some (Js.JObj [("token", Js.JStr "other")]))]
       (Token.onInput "mine" (Token.init EmptyString))) = "mine".
Proof.
  rewrite (proj1 typed_token_is_kept "mine" (Token.init EmptyString) _ eq_refl).
  reflexivity.
Defined.

(** ** Moving the highlight *)

Lemma rem_next_eq n a : 0 <= a < n -> Z.rem (a + 1) n = Props.next n a.
Proof.
  intros H. unfold Props.next. rewrite Z.rem_mod_nonneg by lia.
  destruct (a =? n - 1) eqn:E.
  - apply Z.eqb_eq in E. replace (a + 1) with n by lia. apply Z.mod_same. lia.
  - apply Z.eqb_neq in E. apply Z.mod_small. lia.
Qed.

Lemma rem_prev_eq n a : 0 <= a < n -> Z.rem (a - 1 + n) n = Props.prev n a.
Proof.
  intros H. unfold Props.prev. rewrite Z.rem_mod_nonneg by lia.
  destruct (a =? 0) eqn:E.
  - apply Z.eqb_eq in E. subst a. rewrite Z.mod_small by lia. lia.
  - apply Z.eqb_neq in E.
    replace (a - 1 + n) with (a - 1 + 1 * n) by lia.
    rewrite Z.mod_add by lia. apply Z.mod_small. lia.
Qed.

Lemma next_prev n a : 0 <= a < n -> Props.prev n (Props.next n a) = a.
Proof.
  intros H. unfold Props.prev, Props.next.
  destruct (a =? n - 1) eqn:E.
  - apply Z.eqb_eq in E. cbn. lia.
  - apply Z.eqb_neq in E.
    replace (a + 1 =? 0) with false by (symmetry; apply Z.eqb_neq; lia). lia.
Qed.

Lemma prev_next n a : 0 <= a < n -> Props.next n (Props.prev n a) = a.
Proof.
  intros H. unfold Props.prev, Props.next.
  destruct (a =? 0) eqn:E.
  - apply Z.eqb_eq in E. rewrite Z.eqb_refl. lia.
  - apply Z.eqb_neq in E.
    replace (a - 1 =? n - 1) with false by (symmetry; apply Z.eqb_neq; lia). lia.
Qed.

Lemma next_range n a : 0 <= a < n -> 0 <= Props.next n a < n.
Proof. unfold Props.next. destruct (a =? n - 1) eqn:E; lia. Qed.

Lemma prev_range n a : 0 <= a < n -> 0 <= Props.prev n a < n.
Proof. unfold Props.prev. destruct (a =? 0) eqn:E; lia. Qed.

Lemma dl_arrow (s : Downloader.State) k :
  display s = true -> 0 <= active s < length_Z (items s) ->
  k = ArrowDown \/ k = ArrowUp ->
  let s' := Downloader.step s (KeyDown k) in
  active s' = (match k with
               | ArrowDown => Props.next
               | _ => Props.prev
               end) (length_Z (items s)) (active s) /\
  items s' = items s /\ rows s' = items s /\ display s' = true.
Proof.
  intros Hd Ha Hk. cbn zeta. cbn [Downloader.step]. unfold Downloader.onKeyDown.
  rewrite Hd. cbn [negb orb].
  replace (length_Z (items s) =? 0) with false by (symmetry; apply Z.eqb_neq; lia).
  unfold Downloader.renderDropdown.
  destruct (items s) as [|it its] eqn:E; [cbn in Ha; lia|].
  destruct Hk as [-> | ->]; cbn [items active rows display set_active set_rows set_display];
    rewrite E; cbn [items active rows display set_active set_rows set_display];
    rewrite E; repeat split; auto using rem_next_eq, rem_prev_eq.
Qed.

Lemma pu_arrow (s : PathUploader.State) k :
  display s = true -> 0 <= active s < length_Z (items s) ->
  k = ArrowDown \/ k = ArrowUp ->
  let s' := PathUploader.step s (KeyDown k) in
  active s' = (match k with
               | ArrowDown => Props.next
               | _ => Props.prev
               end) (length_Z (items s)) (active s) /\
  items s' = items s /\ rows s' = items s /\ display s' = true.
Proof.
  intros Hd Ha Hk. cbn zeta. cbn [PathUploader.step]. unfold PathUploader.onKeyDown.
  rewrite Hd. cbn [negb]. rewrite andb_false_r. unfold PathUploader.onKeyDown_rest.
  replace (length_Z (items s) =? 0) with false by (symmetry; apply Z.eqb_neq; lia).
  unfold PathUploader.renderDropdown.
  destruct (items s) as [|it its] eqn:E; [cbn in Ha; lia|].
  destruct Hk as [-> | ->]; cbn [items active rows display set_active set_rows set_display];
    rewrite E; cbn [items active rows display set_active set_rows set_display];
    rewrite E; repeat split; auto using rem_next_eq, rem_prev_eq.
Qed.

(** While the overlay is shown, ArrowDown moves the highlight one row
    down and from the last row to the first, ArrowUp one row up and from the
    first row to the last; the suggestions stay and stay shown, and each key
    undoes the other.  In every copy. *)
Theorem arrows_cycle :
  (forall s : Downloader.State,
     display s = true -> 0 <= active s < length_Z (items s) ->
     let n := length_Z (items s) in
     let down := Downloader.step s (KeyDown ArrowDown) in
     let up := Downloader.step s (KeyDown ArrowUp) in
     (active down = Props.next n (active s) /\ items down = items s /\ display down = true) /\
     (active up = Props.prev n (active s) /\ items up = items s /\ display up = true) /\
     active (Downloader.step down (KeyDown ArrowUp)) = active s /\
     active (Downloader.step up (KeyDown ArrowDown)) = active s) /\
  (forall s : PathUploader.State,
     display s = true -> 0 <= active s < length_Z (items s) ->
     let n := length_Z (items s) in
     let down := PathUploader.step s (KeyDown ArrowDown) in
     let up := PathUploader.step s (KeyDown ArrowUp) in
     (active down = Props.next n (active s) /\ items down = items s /\ display down = true) /\
     (active up = Props.prev n (active s) /\ items up = items s /\ display up = true) /\
     active (PathUploader.step down (KeyDown ArrowUp)) = active s /\
     active (PathUploader.step up (KeyDown ArrowDown)) = active s).
Proof.
  split; intros s Hd Ha; cbn zeta.
  - destruct (dl_arrow s ArrowDown Hd Ha (or_introl eq_refl)) as (D1 & D2 & _ & D4).
    destruct (dl_arrow s ArrowUp Hd Ha (or_intror eq_refl)) as (U1 & U2 & _ & U4).
    split; [auto|]. split; [auto|].
    pose proof (next_range _ _ Ha) as Hn. pose proof (prev_range _ _ Ha) as Hp.
    rewrite <- D1, <- D2 in Hn. rewrite <- U1, <- U2 in Hp.
    destruct (dl_arrow _ ArrowUp D4 Hn (or_intror eq_refl)) as (X1 & _).
    destruct (dl_arrow _ ArrowDown U4 Hp (or_introl eq_refl)) as (Y1 & _).
    rewrite X1, Y1, D1, D2, U1, U2. split; [now apply next_prev | now apply prev_next].
  - destruct (pu_arrow s ArrowDown Hd Ha (or_introl eq_refl)) as (D1 & D2 & _ & D4).
    destruct (pu_arrow s ArrowUp Hd Ha (or_intror eq_refl)) as (U1 & U2 & _ & U4).
    split; [auto|]. split; [auto|].
    pose proof (next_range _ _ Ha) as Hn. pose proof (prev_range _ _ Ha) as Hp.
    rewrite <- D1, <- D2 in Hn. rewrite <- U1, <- U2 in Hp.
    destruct (pu_arrow _ ArrowUp D4 Hn (or_intror eq_refl)) as (X1 & _).
    destruct (pu_arrow _ ArrowDown U4 Hp (or_introl eq_refl)) as (Y1 & _).
    rewrite X1, Y1, D1, D2, U1, U2. split; [now apply next_prev | now apply prev_next].
Qed.

(** Two suggestions shown, the second highlighted: ArrowDown wraps to the
    first. *)
Lemma arrows_cycle_witness :
  active
    (Downloader.step
       (Downloader.run (Downloader.init "/srv")
          [Focus; Elapse 180; TimerFire 1;
           Response 1 (Http 200 (Some (Spec.listdirOk None ["a"; "b"])));
           KeyDown ArrowDown])
       (KeyDown ArrowDown)) = 0.
Proof.
  assert (Hd : display
                 (Downloader.run (Downloader.init "/srv")
                    [Focus; Elapse 180; TimerFire 1;
                     Response 1 (Http 200 (Some (Spec.listdirOk None ["a"; "b"])));
                     KeyDown ArrowDown]) = true)
    by exact (eq_refl true).
  assert (Ha : 0 <= active
                      (Downloader.run (Downloader.init "/srv")
                         [Focus; Elapse 180; TimerFire 1;
                          Response 1 (Http 200 (Some (Spec.listdirOk None ["a"; "b"])));
                          KeyDown ArrowDown])
               < length_Z
                   (items
                      (Downloader.run (Downloader.init "/srv")
                         [Focus; Elapse 180; TimerFire 1;
                          Response 1 (Http 200 (Some (Spec.listdirOk None ["a"; "b"])));
                          KeyDown ArrowDown])))
    by (split; [apply Z.leb_le | apply Z.ltb_lt]; exact (eq_refl true)).
  exact (proj1 (proj1 (proj1 arrows_cycle _ Hd Ha))).
Defined.

(** ** What an armed lookup does when it fires *)

Section Armed.
Context {K : Type}.
Implicit Type y : State K.


End Armed.



(** ** Choosing a suggestion *)







(** ** The persisted property and the text of the box *)

Module TextFacts.
Import Spec DomFacts.

(** Unfolds the handlers down to the setters, splits on what they branch
    on, and closes what is left by computation. *)
Ltac handlers :=
  unfold Downloader.onInput, Downloader.onFocus, Downloader.onBlur,
    Downloader.onKeyDown, Downloader.docHandler, Downloader.onMouseEnter,
    Downloader.choose, Downloader.scheduleFetch, Downloader.fetchChildren,
    Downloader.fetchChildren_resume, Downloader.onFocus_resume,
    Downloader.prefill_resume, Downloader.seed, Downloader.renderDropdown,
    Downloader.resume, Downloader.runCallback,
    PathUploader.onInput, PathUploader.onFocus, PathUploader.onBlur,
    PathUploader.onKeyDown, PathUploader.onKeyDown_rest, PathUploader.docHandler,
    PathUploader.onMouseEnter, PathUploader.choose, PathUploader.scheduleFetch,
    PathUploader.fetchChildren, PathUploader.fetchChildren_resume,
    PathUploader.onFocus_resume, PathUploader.prefill_resume, PathUploader.seed,
    PathUploader.renderDropdown, PathUploader.resume, PathUploader.runCallback,
    arm, clearDebounce, cancelDebounce, assign_value, setSelectionRange,
    setTimeout, clearTimeout, fetchApi in *.

Ltac cases :=
  repeat match goal with
  | |- context [match ?x with _ => _ end] =>
      lazymatch x with
      | context [match _ with _ => _ end] => fail
      | _ => destruct x eqn:?; cbn in *
      end
  end.

Ltac settle :=
  cbn in *; cases; repeat (progress (handlers; cbn in *; cases));
  try reflexivity; try congruence;
  try (repeat match goal with
       | H : negb _ = false |- _ => apply negb_false_iff in H
       | H : String.eqb _ _ = true |- _ => apply String.eqb_eq in H
       end; congruence).

Lemma dl_tracks (s : Downloader.State) e :
  Props.isHostWrite e = false ->
  dest_dir s = value s ->
  dest_dir (Downloader.step s e) = value (Downloader.step s e).
Proof.
  intros He Hs. destruct_state s. cbn in Hs. subst dd.
  destruct e; try discriminate; cbn [Downloader.step]; handlers; settle.
Qed.

Lemma pu_tracks (s : PathUploader.State) e :
  Props.isHostWrite e = false ->
  dest_dir s = value s ->
  dest_dir (PathUploader.step s e) = value (PathUploader.step s e).
Proof.
  intros He Hs. destruct_state s. cbn in Hs. subst dd.
  destruct e; try discriminate; cbn [PathUploader.step]; handlers; settle.
Qed.

End TextFacts.

Lemma run_tracks_dl es : forall s : Downloader.State,
  Forall (fun e => Props.isHostWrite e = false) es ->
  dest_dir s = value s ->
  dest_dir (Downloader.run s es) = value (Downloader.run s es).
Proof.
  induction es as [|e es IH]; intros s Hes Hs; [exact Hs|].
  inversion Hes; subst. cbn [Downloader.run fold_left].
  apply IH; [assumption|]. now apply TextFacts.dl_tracks.
Qed.

Lemma run_tracks_pu es : forall s : PathUploader.State,
  Forall (fun e => Props.isHostWrite e = false) es ->
  dest_dir s = value s ->
  dest_dir (PathUploader.run s es) = value (PathUploader.run s es).
Proof.
  induction es as [|e es IH]; intros s Hes Hs; [exact Hs|].
  inversion Hes; subst. cbn [PathUploader.run fold_left].
  apply IH; [assumption|]. now apply TextFacts.pu_tracks.
Qed.

(** As long as the host does not write the property itself, the persisted
    [properties.dest_dir] is the text of the box after every event: edits,
    selections, seeding from the server's root, responses and timers keep
    the two the same, from creation on.  (Texts are taken to hold no line
    break, which an input element would strip.) *)
Theorem property_tracks_text :
  (forall p es,
     Forall (fun e => Props.isHostWrite e = false) es ->
     dest_dir (Downloader.run (Downloader.init p) es)
     = value (Downloader.run (Downloader.init p) es)) /\
  (forall p es,
     Forall (fun e => Props.isHostWrite e = false) es ->
     dest_dir (PathUploader.run (PathUploader.init p) es)
     = value (PathUploader.run (PathUploader.init p) es)).
Proof.
  split; intros p es Hes.
  - apply run_tracks_dl; [exact Hes | reflexivity].
  - apply run_tracks_pu; [exact Hes|].
    unfold PathUploader.init. destruct (Str.blank _); reflexivity.
Qed.

(** A focus, an edit with backslashes and the lookup that follows. *)
Lemma property_tracks_text_witness :
  dest_dir
    (Downloader.run (Downloader.init EmptyString)
       [Focus; Input "C:\models" 9; Elapse 180; TimerFire 1]) = "C:/models".
Proof.
  rewrite (proj1 property_tracks_text EmptyString
             [Focus; Input "C:\models" 9; Elapse 180; TimerFire 1]
             ltac:(repeat constructor)).
  reflexivity.
Defined.

(** ** When the overlay is shown *)

Module ShownFacts.
Import Spec DomFacts TextFacts.

Lemma dl_shown_step (s : Downloader.State) e :
  Props.shown_with_focus s -> Props.shown_with_focus (Downloader.step s e).
Proof.
  unfold Props.shown_with_focus. intros Hs. destruct_state s. cbn in Hs.
  destruct disp; destruct f; try (specialize (Hs eq_refl); discriminate); clear Hs;
    destruct e; cbn [Downloader.step]; handlers; settle; intros; congruence.
Qed.

Lemma dl_shown_reachable p s :
  Downloader.reachable p s -> Props.shown_with_focus s.
Proof.
  induction 1; [|now apply dl_shown_step].
  unfold Props.shown_with_focus. cbn. discriminate.
Qed.

End ShownFacts.

(** In the downloaders the overlay is shown only while the field has
    focus and there are suggestions, in every reachable state; in the
    PathUploader it is shown only while there are suggestions. *)
Theorem overlay_needs_focus :
  (forall p s, Downloader.reachable p s ->
     display s = true -> focused s = true /\ items s <> [] /\ rows s = items s) /\
  (forall p s, PathUploader.reachable p s ->
     display s = true -> items s <> [] /\ rows s = items s).
Proof.
  split; intros p s Hr Hd.
  - split; [exact (ShownFacts.dl_shown_reachable p s Hr Hd)|].
    destruct (DownloaderFacts.dl_reachable_Inv p s Hr) as [_ Hrows].
    destruct (Hrows Hd); auto.
  - destruct (PathUploaderFacts.pu_reachable_Inv p s Hr) as [_ Hrows].
    destruct (Hrows Hd); auto.
Qed.

(** The overlay of a focused Aria2 field with two suggestions. *)
Lemma overlay_needs_focus_witness :
  focused
    (Downloader.run (Downloader.init "/srv")
       [Focus; Elapse 180; TimerFire 1;
        Response 1 (Http 200 (Some (Spec.listdirOk None ["a"; "b"])))]) = true.
Proof.
  apply (proj1 overlay_needs_focus "/srv").
  - cbn [Downloader.run fold_left].
    repeat apply Downloader.reach_step. apply Downloader.reach_init.
  - reflexivity.
Defined.

(** ** The requests the field sends *)

Module RequestFacts.
Import Spec DomFacts TextFacts.

Lemma blank_replaceBackslashes t :
  Str.blank (Str.replaceBackslashes t) = Str.blank t.
Proof. destruct t; reflexivity. Qed.

Lemma blank_collapseSlashes t :
  Str.blank (Str.collapseSlashes t) = Str.blank t.
Proof.
  destruct t as [|c rest]; [reflexivity|].
  destruct (StrFacts.collapseSlashes_head c rest) as [tail ->]. reflexivity.
Qed.

Lemma dl_lookup_clean t :
  Str.blank t = false ->
  Props.cleanRequest true (Listdir (Some (Downloader.normalize t))).
Proof.
  intros Hb. unfold Props.cleanRequest, Downloader.normalize.
  rewrite blank_collapseSlashes, blank_replaceBackslashes.
  split; [exact Hb|]. split.
  - apply StrFacts.collapseSlashes_keeps_clean, StrFacts.replaceBackslashes_clean.
  - intros _. apply StrFacts.collapseSlashes_single.
Qed.

Lemma pu_lookup_clean t :
  Str.blank t = false ->
  Props.cleanRequest false (Listdir (Some (PathUploader.normalizePath t))).
Proof.
  intros Hb. unfold Props.cleanRequest, PathUploader.normalizePath.
  rewrite blank_replaceBackslashes.
  split; [exact Hb|]. split; [apply StrFacts.replaceBackslashes_clean | discriminate].
Qed.

Ltac sent_grows :=
  first
    [ exfalso; congruence
    | exists []; split; [now rewrite app_nil_r | constructor]
    | eexists; split; [reflexivity|];
      constructor; [|constructor];
      first [ exact I | apply dl_lookup_clean | apply pu_lookup_clean ];
      repeat match goal with
             | H : _ || _ = false |- _ => apply orb_false_iff in H; destruct H
             end;
      assumption ].

Lemma dl_step_sends (s : Downloader.State) e :
  exists l, sent (Downloader.step s e) = (sent s ++ l)%list /\
            Forall (Props.cleanRequest true) l.
Proof.
  destruct_state s.
  destruct e; cbn [Downloader.step]; handlers; cbn in *; cases;
    repeat (progress (handlers; cbn in *; cases)); sent_grows.
Qed.

Lemma pu_step_sends (s : PathUploader.State) e :
  exists l, sent (PathUploader.step s e) = (sent s ++ l)%list /\
            Forall (Props.cleanRequest false) l.
Proof.
  destruct_state s.
  destruct e; cbn [PathUploader.step]; handlers; cbn in *; cases;
    repeat (progress (handlers; cbn in *; cases)); sent_grows.
Qed.

End RequestFacts.

(** Every request the field ever sends is the one for the root or a
    lookup of a path that is not empty and holds no backslash (and, in the
    downloaders, no doubled slash); requests sent are never taken back, an
    event only adds to them. *)
Theorem requests_are_clean :
  (forall p s, Downloader.reachable p s ->
     Forall (Props.cleanRequest true) (sent s)) /\
  (forall p s, PathUploader.reachable p s ->
     Forall (Props.cleanRequest false) (sent s)) /\
  (forall (s : Downloader.State) e,
     exists l, sent (Downloader.step s e) = (sent s ++ l)%list) /\
  (forall (s : PathUploader.State) e,
     exists l, sent (PathUploader.step s e) = (sent s ++ l)%list).
Proof.
  split; [|split; [|split]].
  - intros p s Hr. induction Hr as [|s e Hr IH].
    + repeat constructor.
    + destruct (RequestFacts.dl_step_sends s e) as (l & -> & Hl).
      apply Forall_app. auto.
  - intros p s Hr. induction Hr as [|s e Hr IH].
    + unfold PathUploader.init. destruct (Str.blank _); repeat constructor.
    + destruct (RequestFacts.pu_step_sends s e) as (l & -> & Hl).
      apply Forall_app. auto.
  - intros s e. destruct (RequestFacts.dl_step_sends s e) as (l & H & _). eauto.
  - intros s e. destruct (RequestFacts.pu_step_sends s e) as (l & H & _). eauto.
Qed.

(** The requests of a field in which [  C:\\models\ ] was typed. *)
Lemma requests_are_clean_witness :
  Forall (Props.cleanRequest true)
    (sent (Downloader.run (Downloader.init EmptyString)
             [Focus; Input "  C:\\models\ " 13; Elapse 180; TimerFire 1])).
Proof.
  apply (proj1 requests_are_clean EmptyString).
  cbn [Downloader.run fold_left].
  repeat apply Downloader.reach_step. apply Downloader.reach_init.
Defined.

(** ** A destination that is set *)

(** Neither the prefill on creation nor the query for the root on focus
    ever changes a destination that is already set: whatever the response,
    text, property and suggestions stay as they are, and the prefill changes
    nothing else either. *)
Theorem set_destination_is_kept :
  (forall (s : Downloader.State) n r,
     Str.blank (dest_dir s) = false ->
     (nth_error (inflight s) n = Some Downloader.PrefillK ->
      Downloader.step s (Response n r) = set_inflight (remove_nth n (inflight s)) s) /\
     (nth_error (inflight s) n = Some Downloader.FocusK ->
      let s' := Downloader.step s (Response n r) in
      value s' = value s /\ dest_dir s' = dest_dir s /\ Spec.same_dropdown s s')) /\
  (forall (s : PathUploader.State) n r,
     Str.blank (dest_dir s) = false ->
     (nth_error (inflight s) n = Some PathUploader.PrefillK ->
      PathUploader.step s (Response n r) = set_inflight (remove_nth n (inflight s)) s) /\
     (nth_error (inflight s) n = Some PathUploader.FocusK ->
      let s' := PathUploader.step s (Response n r) in
      value s' = value s /\ dest_dir s' = dest_dir s /\ Spec.same_dropdown s s')).
Proof.
  split; intros s n r Hb; split; intros Hn; cbn zeta;
    cbn [Downloader.step PathUploader.step]; rewrite Hn;
    cbn [Downloader.resume PathUploader.resume].
  - unfold Downloader.prefill_resume. cbn [dest_dir set_inflight]. rewrite Hb.
    destruct (Js.try_catch _ _); reflexivity.
  - unfold Downloader.onFocus_resume, Downloader.scheduleFetch.
    cbn [dest_dir set_inflight]. rewrite Hb.
    set (y := set_inflight _ s).
    destruct (DebounceFacts.arm_frame 180 y) as (Hv & _ & _ & Hdd & _).
    pose proof (DomFacts.same_arm 180 y) as Hsame.
    destruct (Js.try_catch _ _); rewrite Hv, Hdd; repeat split; apply Hsame.
  - unfold PathUploader.prefill_resume. cbn [dest_dir set_inflight]. rewrite Hb.
    destruct (Js.try_catch _ _); reflexivity.
  - unfold PathUploader.onFocus_resume, PathUploader.scheduleFetch.
    cbn [dest_dir set_inflight]. rewrite Hb.
    set (y := set_inflight _ s).
    destruct (DebounceFacts.arm_frame 200 y) as (Hv & _ & _ & Hdd & _).
    pose proof (DomFacts.same_arm 200 y) as Hsame.
    destruct (Js.try_catch _ _); rewrite Hv, Hdd; repeat split; apply Hsame.
Qed.

(** A node created with the destination [/data]: the prefill's answer
    [/srv/app] leaves the box alone. *)
Lemma set_destination_is_kept_witness :
  value
    (Downloader.step (Downloader.init "/data")
       (Response 0 (Http 200 (Some (Spec.listdirOk (Some "/srv/app") []))))) = "/data".
Proof.
  rewrite (proj1 (proj1 set_destination_is_kept (Downloader.init "/data") 0%nat
                    (Http 200 (Some (Spec.listdirOk (Some "/srv/app") []))) eq_refl)
             eq_refl).
  reflexivity.
Defined.

(** ** Joining paths *)

Module JoinFacts.
Import Str.

Lemma hasBackslash_app a b :
  hasBackslash (a ++ b) = hasBackslash a || hasBackslash b.
Proof.
  induction a as [|c a IH]; [reflexivity|].
  cbn [append]. rewrite !StrFacts.hasBackslash_cons, IH. apply orb_assoc.
Qed.

(** A doubled slash in [a ++ b] is one of [a], one of [b], or the last of
    [a] with the first of [b]. *)
Lemma hasDoubleSlash_app a b :
  hasDoubleSlash (a ++ b) =
  hasDoubleSlash a || hasDoubleSlash b || (endsWithSlash a && Props.startsWithSlash b).
Proof.
  induction a as [|c a IH].
  - cbn. now rewrite orb_false_r.
  - destruct a as [|c' a'].
    + cbn [append endsWithSlash]. destruct b as [|d b'].
      * cbn. now rewrite andb_false_r.
      * change ((String c EmptyString ++ String d b')%string)
          with (String c (String d b')).
        rewrite StrFacts.hasDoubleSlash_cons2.
        change (hasDoubleSlash (String c EmptyString)) with false.
        change (Props.startsWithSlash (String d b')) with (is_slash d).
        destruct (is_slash c && is_slash d); destruct (hasDoubleSlash (String d b'));
          reflexivity.
    + change ((String c (String c' a') ++ b)%string)
        with (String c (String c' (a' ++ b))).
      rewrite !StrFacts.hasDoubleSlash_cons2.
      change (String c' (a' ++ b)) with ((String c' a' ++ b)%string).
      rewrite IH.
      change (endsWithSlash (String c (String c' a'))) with (endsWithSlash (String c' a')).
      rewrite !orb_assoc. reflexivity.
Qed.

Lemma joinPath_str_clean base seg :
  hasBackslash (PathUploader.joinPath_str base seg) = false.
Proof.
  unfold PathUploader.joinPath_str, PathUploader.normalizePath.
  pose proof (StrFacts.replaceBackslashes_clean base) as Hb.
  pose proof (StrFacts.replaceBackslashes_clean seg) as Hs.
  destruct (blank _); [exact Hs|]. destruct (blank _); [exact Hb|].
  destruct (endsWithSlash _); rewrite !hasBackslash_app, ?Hb, ?Hs; reflexivity.
Qed.

Lemma normalizePath_js_returns v t :
  PathUploader.normalizePath_js v = inr t -> exists b, t = replaceBackslashes b.
Proof.
  unfold PathUploader.normalizePath_js, Js.asString. intros H.
  destruct (Js.or_else v (Some (Js.JStr EmptyString))) as [[| | | b | |]|];
    cbn in H; try discriminate.
  injection H as <-. eauto.
Qed.

(** What [joinPath] returns when it returns: the join of two strings. *)
Lemma joinPath_returns base seg p :
  PathUploader.joinPath base seg = inr p ->
  exists b g, p = PathUploader.joinPath_str b g.
Proof.
  unfold PathUploader.joinPath. intros H.
  destruct (PathUploader.normalizePath_js (Js.or_else base _)) as [|b'] eqn:Eb;
    [discriminate|].
  cbn [Js.bind] in H.
  destruct (PathUploader.normalizePath_js (Js.or_else seg _)) as [|g'] eqn:Eg;
    [discriminate|].
  cbn [Js.bind Js.ret] in H.
  apply normalizePath_js_returns in Eb as (b & ->).
  apply normalizePath_js_returns in Eg as (g & ->).
  exists b, g. unfold PathUploader.joinPath_str, PathUploader.normalizePath.
  cbv zeta in H. unfold Js.ret in H.
  destruct (blank (replaceBackslashes b)); [congruence|].
  destruct (blank (replaceBackslashes g)); [congruence|].
  destruct (endsWithSlash (replaceBackslashes b)); congruence.
Qed.

End JoinFacts.

(** [joinPath] never returns a path with a backslash, whatever it is
    given; and it adds no doubled slash: when neither part, backslashes
    replaced, has one and the segment does not begin with a slash, the
    joined path has none, be there a slash at the end of the base or
    not. *)
Theorem joinPath_is_clean :
  (forall base seg p,
     PathUploader.joinPath base seg = inr p -> Str.hasBackslash p = false) /\
  (forall base seg,
     Str.hasDoubleSlash (PathUploader.normalizePath base) = false ->
     Str.hasDoubleSlash (PathUploader.normalizePath seg) = false ->
     Props.startsWithSlash (PathUploader.normalizePath seg) = false ->
     Str.hasDoubleSlash (PathUploader.joinPath_str base seg) = false).
Proof.
  split.
  - intros base seg p H.
    destruct (JoinFacts.joinPath_returns base seg p H) as (b & g & ->).
    apply JoinFacts.joinPath_str_clean.
  - intros base seg Hb Hs Hst. unfold PathUploader.joinPath_str.
    destruct (Str.blank _); [exact Hs|]. destruct (Str.blank _); [exact Hb|].
    destruct (Str.endsWithSlash (PathUploader.normalizePath base)) eqn:E.
    + rewrite JoinFacts.hasDoubleSlash_app, Hb, Hs, Hst. now rewrite andb_false_r.
    + rewrite JoinFacts.hasDoubleSlash_app, Hb, E.
      change ("/" ++ PathUploader.normalizePath seg)%string
        with (String Str.slash (PathUploader.normalizePath seg)).
      destruct (PathUploader.normalizePath seg) as [|c rest] eqn:En; [reflexivity|].
      rewrite StrFacts.hasDoubleSlash_cons2.
      cbn [Props.startsWithSlash] in Hst. rewrite Hst, Hs.
      now rewrite andb_false_r.
Qed.

(** [C:\models/] joined with [sdxl]. *)
Lemma joinPath_is_clean_witness :
  Str.hasDoubleSlash (PathUploader.joinPath_str "C:\models/" "sdxl") = false.
Proof.
  apply (proj2 joinPath_is_clean "C:\models/" "sdxl"); reflexivity.
Defined.

(** ** The paths of the suggestions *)

Module SettledFacts.
Import Dom Spec DomFacts.




















End SettledFacts.



(** ** Mouse and keyboard *)

(** [choose] sets [active] itself and does not read it. *)
Lemma dl_choose_active it a (s : Downloader.State) :
  Downloader.choose it (set_active a s) = Downloader.choose it s.
Proof.
  DomFacts.destruct_state s.
  unfold Downloader.choose, Downloader.scheduleFetch, assign_value. cbn.
  destruct (String.eqb _ _); reflexivity.
Qed.

Lemma pu_choose_active it a (s : PathUploader.State) :
  PathUploader.choose it (set_active a s) = PathUploader.choose it s.
Proof.
  DomFacts.destruct_state s.
  unfold PathUploader.choose, PathUploader.scheduleFetch, assign_value. cbn.
  destruct (String.eqb _ _); reflexivity.
Qed.

Lemma dl_hover_then_enter (s : Downloader.State) idx it :
  display s = true -> rows s = items s -> nth_error (items s) idx = Some it ->
  Downloader.step (Downloader.step s (RowMouseEnter idx)) (KeyDown Enter)
  = Downloader.choose it s.
Proof.
  intros Hd Hr Hit.
  assert (Hlt : (idx < List.length (items s))%nat)
    by (apply nth_error_Some; congruence).
  assert (Hhover : Downloader.step s (RowMouseEnter idx)
                   = set_active (Z.of_nat idx) s).
  { cbn [Downloader.step]. rewrite Hd, Hr.
    replace (idx <? List.length (items s))%nat with true
      by (symmetry; now apply Nat.ltb_lt).
    cbn [andb]. unfold Downloader.onMouseEnter, Downloader.renderDropdown.
    DomFacts.destruct_state s. cbn in *. subst.
    destruct its; [destruct idx; discriminate | reflexivity]. }
  rewrite Hhover. cbn [Downloader.step]. unfold Downloader.onKeyDown.
  cbn [display items active set_active]. rewrite Hd.
  replace (length_Z (items s) =? 0) with false
    by (symmetry; apply Z.eqb_neq; unfold length_Z; lia).
  replace (0 <=? Z.of_nat idx) with true by (symmetry; apply Z.leb_le; lia).
  unfold nth_item.
  replace (Z.of_nat idx <? 0) with false by (symmetry; apply Z.ltb_ge; lia).
  rewrite Nat2Z.id, Hit. cbn [negb orb].
  apply dl_choose_active.
Qed.

Lemma pu_hover_then_enter (s : PathUploader.State) idx it :
  display s = true -> rows s = items s -> nth_error (items s) idx = Some it ->
  PathUploader.step (PathUploader.step s (RowMouseEnter idx)) (KeyDown Enter)
  = PathUploader.choose it s.
Proof.
  intros Hd Hr Hit.
  assert (Hlt : (idx < List.length (items s))%nat)
    by (apply nth_error_Some; congruence).
  assert (Hhover : PathUploader.step s (RowMouseEnter idx)
                   = set_active (Z.of_nat idx) s).
  { cbn [PathUploader.step]. rewrite Hd, Hr.
    replace (idx <? List.length (items s))%nat with true
      by (symmetry; now apply Nat.ltb_lt).
    cbn [andb]. unfold PathUploader.onMouseEnter, PathUploader.renderDropdown.
    DomFacts.destruct_state s. cbn in *. subst.
    destruct its; [destruct idx; discriminate | reflexivity]. }
  rewrite Hhover. cbn [PathUploader.step]. unfold PathUploader.onKeyDown.
  cbn [PathUploader.isArrow andb]. unfold PathUploader.onKeyDown_rest.
  cbn [display items active set_active].
  replace (length_Z (items s) =? 0) with false
    by (symmetry; apply Z.eqb_neq; unfold length_Z; lia).
  replace (0 <=? Z.of_nat idx) with true by (symmetry; apply Z.leb_le; lia).
  unfold nth_item.
  replace (Z.of_nat idx <? 0) with false by (symmetry; apply Z.ltb_ge; lia).
  rewrite Nat2Z.id, Hit.
  apply pu_choose_active.
Qed.

(** Mouse and keyboard select the same way: with the overlay shown,
    moving the pointer onto a row and pressing Enter leaves the field in
    the very state a pointerdown on that row leaves it in, timers and
    requests included; and moving the pointer onto the row highlights it
    and changes nothing else.  In every reachable state of every copy. *)
Theorem click_is_hover_then_enter :
  (forall p (s : Downloader.State) idx,
     Downloader.reachable p s -> display s = true ->
     (idx < List.length (rows s))%nat ->
     Downloader.step s (RowMouseEnter idx) = set_active (Z.of_nat idx) s /\
     Downloader.step (Downloader.step s (RowMouseEnter idx)) (KeyDown Enter)
     = Downloader.step s (RowPointerDown idx)) /\
  (forall p (s : PathUploader.State) idx,
     PathUploader.reachable p s -> display s = true ->
     (idx < List.length (rows s))%nat ->
     PathUploader.step s (RowMouseEnter idx) = set_active (Z.of_nat idx) s /\
     PathUploader.step (PathUploader.step s (RowMouseEnter idx)) (KeyDown Enter)
     = PathUploader.step s (RowPointerDown idx)).
Proof.
  split; intros p s idx Hreach Hd Hidx.
  - destruct (DownloaderFacts.dl_reachable_Inv p s Hreach) as [_ Hrows].
    destruct (Hrows Hd) as [Hr _].
    destruct (nth_error (rows s) idx) as [it|] eqn:Hit;
      [|apply nth_error_None in Hit; lia].
    assert (Hclick : Downloader.step s (RowPointerDown idx) = Downloader.choose it s).
    { cbn [Downloader.step]. rewrite Hd, Hit. reflexivity. }
    rewrite Hclick. rewrite Hr in Hit. split.
    + cbn [Downloader.step]. rewrite Hd, Hr.
      replace (idx <? List.length (items s))%nat with true
        by (symmetry; apply Nat.ltb_lt; congruence).
      cbn [andb]. unfold Downloader.onMouseEnter, Downloader.renderDropdown.
      DomFacts.destruct_state s. cbn in *. subst.
      destruct its; [destruct idx; discriminate | reflexivity].
    + now apply dl_hover_then_enter.
  - destruct (PathUploaderFacts.pu_reachable_Inv p s Hreach) as [_ Hrows].
    destruct (Hrows Hd) as [Hr _].
    destruct (nth_error (rows s) idx) as [it|] eqn:Hit;
      [|apply nth_error_None in Hit; lia].
    assert (Hclick : PathUploader.step s (RowPointerDown idx) = PathUploader.choose it s).
    { cbn [PathUploader.step]. rewrite Hd, Hit. reflexivity. }
    rewrite Hclick. rewrite Hr in Hit. split.
    + cbn [PathUploader.step]. rewrite Hd, Hr.
      replace (idx <? List.length (items s))%nat with true
        by (symmetry; apply Nat.ltb_lt; congruence).
      cbn [andb]. unfold PathUploader.onMouseEnter, PathUploader.renderDropdown.
      DomFacts.destruct_state s. cbn in *. subst.
      destruct its; [destruct idx; discriminate | reflexivity].
    + now apply pu_hover_then_enter.
Qed.

(** Two suggestions shown: the pointer on the second row and Enter, or a
    pointerdown on the second row. *)
Lemma click_is_hover_then_enter_witness :
  Downloader.step
    (Downloader.step
       (Downloader.run (Downloader.init "/srv")
          [Focus; Elapse 180; TimerFire 1;
           Response 1 (Http 200 (Some (Spec.listdirOk None ["a"; "b"])))])
       (RowMouseEnter 1))
    (KeyDown Enter)
  = Downloader.step
      (Downloader.run (Downloader.init "/srv")
         [Focus; Elapse 180; TimerFire 1;
          Response 1 (Http 200 (Some (Spec.listdirOk None ["a"; "b"])))])
      (RowPointerDown 1).
Proof.
  assert (Hr : Downloader.reachable "/srv"
                 (Downloader.run (Downloader.init "/srv")
                    [Focus; Elapse 180; TimerFire 1;
                     Response 1 (Http 200 (Some (Spec.listdirOk None ["a"; "b"])))])).
  { cbn [Downloader.run fold_left].
    repeat apply Downloader.reach_step. apply Downloader.reach_init. }
  assert (Hlt : (1 < List.length
                       (rows
                          (Downloader.run (Downloader.init "/srv")
                             [Focus; Elapse 180; TimerFire 1;
                              Response 1
                                (Http 200 (Some (Spec.listdirOk None ["a"; "b"])))])))%nat)
    by (apply Nat.ltb_lt; exact (eq_refl true)).
  exact (proj2 (proj1 click_is_hover_then_enter _ _ 1%nat Hr (eq_refl true) Hlt)).
Defined.

(** ** A destination persisted with the node *)




(** ** Starting, polling and stopping a download *)

Module TransferFacts.
Import Dom Transfer TransferProps.

Ltac destruct_transfer s :=
  let g := fresh "g" in let dd := fresh "dd" in let sd := fresh "sd" in
  let pt := fresh "pt" in let tms := fresh "tms" in let nt := fresh "nt" in
  let nw := fresh "nw" in let inf := fresh "inf" in let snt := fresh "snt" in
  destruct s as [g dd sd pt tms nt nw inf snt].

Lemma removed_other (l : list Cont) n k k' :
  nth_error l n = Some k -> k <> k' -> In k' l -> In k' (remove_nth n l).
Proof.
  revert n. induction l as [|x l IH]; intros n Hn Hk Hin; [destruct Hin|].
  destruct n as [|n]; cbn in *.
  - injection Hn as ->. destruct Hin as [H|H]; [congruence | exact H].
  - destruct Hin as [H|H]; [now left | right; eauto].
Qed.

Lemma removed_subset (l : list Cont) n k : In k (remove_nth n l) -> In k l.
Proof.
  revert n. induction l as [|x l IH]; intros n H; [destruct n; exact H|].
  destruct n as [|n]; cbn in *; [now right|].
  destruct H as [H|H]; [now left | right; eauto].
Qed.

(** What [poll] does, case by case. *)
Lemma poll_cases retry (s : State) :
  (Js.truthy (gid s) = false /\ poll retry s = s) \/
  (Js.truthy (gid s) = true /\
   ((exists g, Js.toString (gid s) = inr g /\ poll retry s = fetchApi (Status g) PollK s) \/
    (exists e, Js.toString (gid s) = inl e /\ poll retry s = armPoll retry s))).
Proof.
  unfold poll. destruct (Js.truthy (gid s)); [right | left; now split].
  split; [reflexivity|].
  destruct (Js.toString (gid s)) as [e|g]; [right | left]; eauto.
Qed.

Lemma poll_alive retry (s : State) :
  stopDisabled s = negb (downloadDisabled s) -> alive (poll retry s).
Proof.
  intros Hb. unfold alive, polling.
  destruct (poll_cases retry s) as [[Hg ->]|[Hg [(g & _ & ->)|(e & _ & ->)]]];
    destruct_transfer s; cbn -[Js.truthy Js.toString] in *;
    (split; [|exact Hb]); intros H; try congruence.
  - left. apply in_or_app. right. now left.
  - right. now destruct tms.
Qed.

Lemma armPoll_alive d (s : State) :
  stopDisabled s = negb (downloadDisabled s) -> alive (armPoll d s).
Proof.
  intros Hb. destruct_transfer s. unfold alive, polling. cbn in *.
  split; [|exact Hb]. intros _. right. now destruct tms.
Qed.

Lemma ended_alive (s : State) : alive (setDownloading false (set_gid (Some Js.JNull) s)).
Proof. destruct_transfer s. unfold alive. cbn. split; [discriminate | reflexivity]. Qed.

Lemma onStopClick_alive (s : State) : alive s -> alive (onStopClick s).
Proof.
  intros [Hp Hb]. unfold onStopClick.
  destruct (Js.truthy (gid s)) eqn:Eg; destruct_transfer s;
    unfold alive, polling in *; cbn -[Js.truthy] in *;
    (split; [|reflexivity || exact Hb]); intros H; try congruence.
  destruct (Hp eq_refl) as [Hi|Ht]; [left | now right].
  apply in_or_app. now left.
Qed.

(** A start answer whose body starts a download is a response with that
    body. *)
Lemma started_body r data :
  Aria2.started r = inr (Some data) -> exists st, r = Http st (Some data).
Proof.
  unfold Aria2.started. destruct r as [|st [d|]]; try discriminate.
  cbn [awaitFetch awaitJson Js.bind Js.ret snd].
  destruct (negb (respOk (st, Some d))); cbn [Js.bind Js.ret].
  - discriminate.
  - destruct (Js.member (Some d) "error") as [|e]; [discriminate|].
    cbn [Js.bind Js.ret]. destruct (Js.truthy e); [discriminate|].
    intros H. injection H as <-. eauto.
Qed.

Lemma activeLine_plain data :
  printable (Js.prop data "strategy") = true -> exists l, Aria2.activeLine data = inr l.
Proof.
  unfold printable, Aria2.activeLine.
  destruct (Js.truthy (Js.prop data "strategy")); [|intros _; eexists; reflexivity].
  destruct (Js.toString (Js.prop data "strategy"));
    intros H; [discriminate H | eexists; reflexivity].
Qed.

Lemma aria2_step_alive (s : State) e :
  plainEvent e = true -> alive s -> alive (Aria2.step s e).
Proof.
  intros He Ha. pose proof Ha as [Hp Hb]. destruct e; cbn [Aria2.step].
  - destruct (downloadDisabled s) eqn:Ed; [exact Ha|].
    unfold Aria2.onDownloadClick.
    destruct (Js.truthy (gid s)) eqn:Eg; [exact Ha|]. cbn zeta.
    destruct (Str.blank _); [exact Ha|].
    destruct_transfer s. unfold alive. cbn -[Js.truthy] in *.
    split; [congruence | reflexivity].
  - destruct (stopDisabled s); [exact Ha|]. now apply onStopClick_alive.
  - destruct_transfer s. exact Ha.
  - destruct (dueTimer id s); [|exact Ha].
    apply poll_alive. destruct_transfer s. exact Hb.
  - destruct (nth_error (inflight s) n) as [k|] eqn:En; [|exact Ha].
    assert (Hkeep : alive (setDownloading false
                             (set_inflight (remove_nth n (inflight s)) s))
                    \/ k = PollK).
    { destruct k; [left | now right | left].
      - destruct_transfer s. unfold alive, polling in *. cbn -[Js.truthy] in *.
        split; [|reflexivity]. intros H. destruct (Hp H) as [Hi|Ht]; [left | now right].
        eapply removed_other; eauto. discriminate.
      - destruct_transfer s. unfold alive, polling in *. cbn -[Js.truthy] in *.
        split; [|reflexivity]. intros H. destruct (Hp H) as [Hi|Ht]; [left | now right].
        eapply removed_other; eauto. discriminate. }
    destruct k; cbn [Aria2.resume].
    + destruct Hkeep as [Hkeep|]; [|discriminate].
      unfold Aria2.onStartResponse.
      destruct (Aria2.started r) as [|[data|]] eqn:Es; try exact Hkeep.
      destruct (started_body r data Es) as (st & ->).
      cbn [plainEvent plainStrategy] in He.
      destruct (activeLine_plain data He) as (l & ->).
      apply poll_alive. destruct_transfer s. exact Hb.
    + unfold Aria2.onPollResponse.
      destruct (Aria2.polled r) as [|[|]].
      * apply armPoll_alive. destruct_transfer s. exact Hb.
      * apply ended_alive.
      * apply armPoll_alive. destruct_transfer s. exact Hb.
    + apply ended_alive.
Qed.

Lemma hf_step_alive (s : State) e : alive s -> alive (HfHub.step s e).
Proof.
  intros Ha. pose proof Ha as [Hp Hb]. destruct e; cbn [HfHub.step].
  - destruct (downloadDisabled s) eqn:Ed; [exact Ha|].
    unfold HfHub.onDownloadClick.
    destruct (Js.truthy (gid s)) eqn:Eg; [exact Ha|]. cbn zeta.
    destruct (_ || _); [exact Ha|].
    destruct_transfer s. unfold alive. cbn -[Js.truthy] in *.
    split; [congruence | reflexivity].
  - destruct (stopDisabled s); [exact Ha|]. now apply onStopClick_alive.
  - destruct_transfer s. exact Ha.
  - destruct (dueTimer id s); [|exact Ha].
    apply poll_alive. destruct_transfer s. exact Hb.
  - destruct (nth_error (inflight s) n) as [k|] eqn:En; [|exact Ha].
    destruct k; cbn [HfHub.resume].
    + unfold HfHub.onStartResponse.
      destruct (Js.try_catch _ _) as [g'|].
      * apply poll_alive. destruct_transfer s. exact Hb.
      * destruct_transfer s. unfold alive, polling in *. cbn -[Js.truthy] in *.
        split; [|reflexivity]. intros H. destruct (Hp H) as [Hi|Ht]; [left | now right].
        eapply removed_other; eauto. discriminate.
    + unfold HfHub.onPollResponse.
      destruct (HfHub.polled r) as [|[|]].
      * apply armPoll_alive. destruct_transfer s. exact Hb.
      * apply ended_alive.
      * apply armPoll_alive. destruct_transfer s. exact Hb.
    + apply ended_alive.
Qed.

(** The buttons of the Aria2 widget, whatever the responses hold. *)
Lemma poll_buttons retry (s : State) :
  stopDisabled (poll retry s) = stopDisabled s /\
  downloadDisabled (poll retry s) = downloadDisabled s.
Proof.
  destruct (poll_cases retry s) as [[_ ->]|[_ [(g & _ & ->)|(x & _ & ->)]]];
    now split.
Qed.

Lemma aria2_step_buttons (s : State) e :
  stopDisabled s = negb (downloadDisabled s) ->
  stopDisabled (Aria2.step s e) = negb (downloadDisabled (Aria2.step s e)).
Proof.
  intros Hb. destruct e; cbn [Aria2.step].
  - destruct (downloadDisabled s) eqn:Ed; [now rewrite Ed|].
    unfold Aria2.onDownloadClick.
    destruct (Js.truthy (gid s)); [now rewrite Ed|]. cbn zeta.
    destruct (Str.blank _); [now rewrite Ed | reflexivity].
  - destruct (stopDisabled s) eqn:Es; [congruence|].
    unfold onStopClick. destruct (Js.truthy (gid s)); [|reflexivity].
    destruct_transfer s. cbn in *. congruence.
  - exact Hb.
  - destruct (dueTimer id s); [|exact Hb].
    unfold Aria2.poll. destruct (poll_buttons 500 (fired id s)) as [-> ->]. exact Hb.
  - destruct (nth_error (inflight s) n) as [k|]; [|exact Hb].
    destruct k; cbn [Aria2.resume].
    + unfold Aria2.onStartResponse.
      destruct (Aria2.started r) as [|[data|]]; try reflexivity.
      destruct (Aria2.activeLine data); [reflexivity|].
      unfold Aria2.poll.
      match goal with |- context [poll 500 ?t] =>
        destruct (poll_buttons 500 t) as [-> ->] end.
      exact Hb.
    + unfold Aria2.onPollResponse.
      destruct (Aria2.polled r) as [|[|]]; [exact Hb | reflexivity | exact Hb].
    + reflexivity.
Qed.

Lemma init_alive : alive init.
Proof. unfold alive, init. cbn. split; [discriminate | reflexivity]. Qed.

Lemma aria2_run_alive es : forall s,
  Forall (fun e => plainEvent e = true) es -> alive s -> alive (Aria2.run s es).
Proof.
  induction es as [|e es IH]; intros s Hes Ha; [exact Ha|].
  inversion Hes as [|e' es' He Hes']; subst.
  cbn [Aria2.run fold_left]. apply (IH _ Hes'). now apply aria2_step_alive.
Qed.

Lemma poll_idle retry (s : State) :
  Js.truthy (gid s) = false -> poll retry s = s.
Proof. intros H. unfold poll. now rewrite H. Qed.

Lemma aria2_step_idle (s : State) e :
  noDownload e = true -> idle s ->
  idle (Aria2.step s e) /\ sent (Aria2.step s e) = sent s.
Proof.
  intros He [Hg Hs]. destruct e; [discriminate| | | |]; cbn [Aria2.step].
  - destruct (stopDisabled s); [now repeat split|].
    unfold onStopClick. rewrite Hg. destruct_transfer s. now repeat split.
  - destruct_transfer s. now repeat split.
  - destruct (dueTimer id s); [|now repeat split].
    unfold Aria2.poll. rewrite poll_idle by (destruct_transfer s; exact Hg).
    destruct_transfer s. now repeat split.
  - destruct (nth_error (inflight s) n) as [k|] eqn:En; [|now repeat split].
    assert (Hs' : ~ In StartK (remove_nth n (inflight s)))
      by (intros H; apply Hs; eapply removed_subset; eauto).
    destruct k; cbn [Aria2.resume].
    + exfalso. apply Hs. eapply nth_error_In; eauto.
    + unfold Aria2.onPollResponse.
      destruct (Aria2.polled r) as [|[|]]; destruct_transfer s; now repeat split.
    + destruct_transfer s. now repeat split.
Qed.

Lemma hf_step_idle (s : State) e :
  noDownload e = true -> idle s ->
  idle (HfHub.step s e) /\ sent (HfHub.step s e) = sent s.
Proof.
  intros He [Hg Hs]. destruct e; [discriminate| | | |]; cbn [HfHub.step].
  - destruct (stopDisabled s); [now repeat split|].
    unfold onStopClick. rewrite Hg. destruct_transfer s. now repeat split.
  - destruct_transfer s. now repeat split.
  - destruct (dueTimer id s); [|now repeat split].
    unfold HfHub.poll. rewrite poll_idle by (destruct_transfer s; exact Hg).
    destruct_transfer s. now repeat split.
  - destruct (nth_error (inflight s) n) as [k|] eqn:En; [|now repeat split].
    assert (Hs' : ~ In StartK (remove_nth n (inflight s)))
      by (intros H; apply Hs; eapply removed_subset; eauto).
    destruct k; cbn [HfHub.resume].
    + exfalso. apply Hs. eapply nth_error_In; eauto.
    + unfold HfHub.onPollResponse.
      destruct (HfHub.polled r) as [|[|]]; destruct_transfer s; now repeat split.
    + destruct_transfer s. now repeat split.
Qed.

Lemma poll_timers retry (s : State) :
  fresh s -> fresh (poll retry s).
Proof.
  intros H.
  destruct (poll_cases retry s) as [[_ ->]|[_ [(g & _ & ->)|(e & _ & ->)]]];
    [exact H | exact H |].
  unfold fresh in *. destruct_transfer s. cbn in *. intros t Ht.
  apply in_app_or in Ht as [Ht|[<-|[]]]; [specialize (H t Ht)|]; cbn; lia.
Qed.

Lemma fresh_armPoll d (s : State) : fresh s -> fresh (armPoll d s).
Proof.
  unfold fresh. destruct_transfer s. cbn. intros H t Ht.
  apply in_app_or in Ht as [Ht|[<-|[]]]; [specialize (H t Ht)|]; cbn; lia.
Qed.

Lemma fresh_fired id (s : State) : fresh s -> fresh (fired id s).
Proof.
  unfold fresh. destruct_transfer s. cbn. intros H t Ht.
  apply filter_In in Ht as [Ht _]. auto.
Qed.

Lemma fresh_onStopClick (s : State) : fresh s -> fresh (onStopClick s).
Proof. intros H. unfold onStopClick. destruct (Js.truthy (gid s)); exact H. Qed.

Lemma aria2_step_fresh (s : State) e : fresh s -> fresh (Aria2.step s e).
Proof.
  intros H. destruct e; cbn [Aria2.step].
  - destruct (downloadDisabled s); [exact H|]. unfold Aria2.onDownloadClick.
    destruct (Js.truthy _); [exact H|]. cbn zeta. destruct (Str.blank _); exact H.
  - destruct (stopDisabled s); [exact H | now apply fresh_onStopClick].
  - exact H.
  - destruct (dueTimer id s); [|exact H].
    apply poll_timers. now apply fresh_fired.
  - destruct (nth_error _ _) as [k|]; [|exact H].
    destruct k; cbn [Aria2.resume].
    + unfold Aria2.onStartResponse.
      destruct (Aria2.started r) as [|[data|]]; try exact H.
      destruct (Aria2.activeLine data); [exact H|]. apply poll_timers. exact H.
    + unfold Aria2.onPollResponse.
      destruct (Aria2.polled r) as [|[|]]; try (now apply fresh_armPoll). exact H.
    + exact H.
Qed.

Lemma hf_step_fresh (s : State) e : fresh s -> fresh (HfHub.step s e).
Proof.
  intros H. destruct e; cbn [HfHub.step].
  - destruct (downloadDisabled s); [exact H|]. unfold HfHub.onDownloadClick.
    destruct (Js.truthy _); [exact H|]. cbn zeta. destruct (_ || _); exact H.
  - destruct (stopDisabled s); [exact H | now apply fresh_onStopClick].
  - exact H.
  - destruct (dueTimer id s); [|exact H].
    apply poll_timers. now apply fresh_fired.
  - destruct (nth_error _ _) as [k|]; [|exact H].
    destruct k; cbn [HfHub.resume].
    + unfold HfHub.onStartResponse. destruct (Js.try_catch _ _); [|exact H].
      apply poll_timers. exact H.
    + unfold HfHub.onPollResponse.
      destruct (HfHub.polled r) as [|[|]]; try (now apply fresh_armPoll). exact H.
    + exact H.
Qed.

Lemma aria2_reachable_fresh s : Aria2.reachable s -> fresh s.
Proof.
  induction 1 as [|s e Hr IH]; [intros t []|]. now apply aria2_step_fresh.
Qed.

Lemma hf_reachable_fresh s : HfHub.reachable s -> fresh s.
Proof.
  induction 1 as [|s e Hr IH]; [intros t []|]. now apply hf_step_fresh.
Qed.

(** The timer [armPoll] arms is the one that is due under its id. *)
Lemma armed_poll_due delay d (s : State) :
  fresh s -> (delay <= d)%nat ->
  dueTimer (nextTimer s) (set_now (now (armPoll delay s) + d) (armPoll delay s))
  = Some (nextTimer s, (now s + delay)%nat).
Proof.
  intros Hf Hd. unfold dueTimer. destruct_transfer s. unfold fresh in Hf. cbn in *.
  induction tms as [|t tms IH]; cbn.
  - rewrite Nat.eqb_refl. cbn.
    replace (nw + delay <=? nw + d)%nat with true by (symmetry; apply Nat.leb_le; lia).
    reflexivity.
  - assert (Ht : (fst t =? nt)%nat = false).
    { apply Nat.eqb_neq. specialize (Hf t (or_introl eq_refl)). lia. }
    rewrite Ht. cbn. apply IH. intros t' Ht'. apply Hf. now right.
Qed.

(** The next status request, once the timer of a poll fires. *)
Lemma next_poll retry delay d (s : State) g :
  Js.truthy (gid s) = true -> Js.toString (gid s) = inr g ->
  sent (poll retry (fired (nextTimer s)
                      (set_now (now (armPoll delay s) + d) (armPoll delay s))))
  = (sent s ++ [Status g])%list.
Proof.
  intros Ht Hg. unfold poll. destruct_transfer s. cbn -[Js.truthy Js.toString] in *.
  rewrite Ht, Hg. reflexivity.
Qed.

Lemma aria2_unreadable r : unreadable r = true -> exists e, Aria2.polled r = inl e.
Proof.
  destruct r as [|st [[| | | | |]|]]; try discriminate; intros _; eexists; reflexivity.
Qed.

Lemma hf_unreadable r : unreadable r = true -> exists e, HfHub.polled r = inl e.
Proof.
  destruct r as [|st [[| | | | |]|]]; try discriminate; intros _; eexists; reflexivity.
Qed.

End TransferFacts.

(** A download that is on is followed.  In every state the Hugging
    Face widget can reach, while [this.gid] is set a poll is pending (a
    status request in flight or a poll timer armed), and exactly one of
    the two buttons is enabled.  The Aria2 widget has the same buttons in
    every state it can reach, and the pending poll along every run in
    which no response carries a [strategy] that fails to convert to a
    string.  The answer to a start request that carries such a [strategy]
    is the exception: [this.gid] is set to its [gid], no poll is started
    and nothing is sent, Download is enabled and Stop is disabled. *)
Theorem polling_stays_alive :
  (forall es,
     Forall (fun e => TransferProps.plainEvent e = true) es ->
     (Js.truthy (Transfer.gid (Aria2.run Transfer.init es)) = true ->
      TransferProps.polling (Aria2.run Transfer.init es))) /\
  (forall s, Aria2.reachable s ->
     Transfer.stopDisabled s = negb (Transfer.downloadDisabled s)) /\
  (forall s, HfHub.reachable s ->
     (Js.truthy (Transfer.gid s) = true -> TransferProps.polling s) /\
     Transfer.stopDisabled s = negb (Transfer.downloadDisabled s)) /\
  (forall s n st data e,
     nth_error (Transfer.inflight s) n = Some Transfer.StartK ->
     Aria2.started (Http st (Some data)) = inr (Some data) ->
     Js.toString (Js.prop data "strategy") = inl e ->
     let s1 := Aria2.step s (Transfer.Response n (Http st (Some data))) in
     Transfer.gid s1 = Js.prop data "gid" /\
     Transfer.inflight s1 = remove_nth n (Transfer.inflight s) /\
     Transfer.timers s1 = Transfer.timers s /\
     Transfer.sent s1 = Transfer.sent s /\
     Transfer.downloadDisabled s1 = false /\ Transfer.stopDisabled s1 = true).
Proof.
  split; [|split; [|split]].
  - intros es Hes.
    exact (proj1 (TransferFacts.aria2_run_alive es Transfer.init Hes
                    TransferFacts.init_alive)).
  - intros s Hr. induction Hr as [|s e Hr IH]; [reflexivity|].
    now apply TransferFacts.aria2_step_buttons.
  - intros s Hr. induction Hr as [|s e Hr IH].
    + exact TransferFacts.init_alive.
    + exact (TransferFacts.hf_step_alive s e IH).
  - intros s n st data e Hn Hs He. cbn zeta. cbn [Aria2.step]. rewrite Hn.
    cbn [Aria2.resume]. unfold Aria2.onStartResponse. rewrite Hs.
    assert (Hl : exists x, Aria2.activeLine data = inl x).
    { unfold Aria2.activeLine.
      destruct (Js.truthy (Js.prop data "strategy")) eqn:Et.
      - rewrite He. eexists; reflexivity.
      - destruct (Js.prop data "strategy") as [[| | | | |]|]; cbn in He, Et;
          try discriminate He; try discriminate Et.
        subst b. discriminate He. }
    destruct Hl as (x & ->).
    TransferFacts.destruct_transfer s. cbn. repeat split.
Qed.

(** A download that was just started, with a strategy in the answer. *)
Lemma polling_stays_alive_witness :
  TransferProps.polling
    (Aria2.run Transfer.init
       [Transfer.DownloadClick (Aria2.mkBoxes "https://example.org/f.bin" "/data" EmptyString);
        Transfer.Response 0
          (Http 200 (Some (Js.JObj [("gid", Js.JStr "abc");
                                    ("strategy", Js.JStr "direct")])))]).
Proof.
  exact (proj1 polling_stays_alive
           [Transfer.DownloadClick
              (Aria2.mkBoxes "https://example.org/f.bin" "/data" EmptyString);
            Transfer.Response 0
              (Http 200 (Some (Js.JObj [("gid", Js.JStr "abc");
                                        ("strategy", Js.JStr "direct")])))]
           ltac:(repeat constructor) (eq_refl true)).
Defined.

(** Without a download and without a start request under way,
    neither widget sends anything until Download is clicked: whatever
    responses arrive and timers fire, and whenever Stop is clicked, no
    request goes out and [this.gid] stays unset.  The response to a stop
    request, whatever it is, and a poll response that ends the download
    (it reports an error or a final state, and its status line can be
    written) send nothing and leave [this.gid] unset, Download enabled and
    Stop disabled; the widget is then idle in the sense above provided no
    start request is under way. *)
Theorem idle_sends_nothing :
  (forall es s,
     TransferProps.idle s ->
     Forall (fun e => TransferProps.noDownload e = true) es ->
     Transfer.sent (Aria2.run s es) = Transfer.sent s /\
     TransferProps.idle (Aria2.run s es)) /\
  (forall es s,
     TransferProps.idle s ->
     Forall (fun e => TransferProps.noDownload e = true) es ->
     Transfer.sent (HfHub.run s es) = Transfer.sent s /\
     TransferProps.idle (HfHub.run s es)) /\
  (forall s n r k,
     nth_error (Transfer.inflight s) n = Some k ->
     k = Transfer.StopK \/ (k = Transfer.PollK /\ Aria2.polled r = inr true) ->
     let s1 := Aria2.step s (Transfer.Response n r) in
     Transfer.gid s1 = Some Js.JNull /\ Transfer.sent s1 = Transfer.sent s /\
     Transfer.downloadDisabled s1 = false /\ Transfer.stopDisabled s1 = true /\
     (~ In Transfer.StartK (Transfer.inflight s) -> TransferProps.idle s1)) /\
  (forall s n r k,
     nth_error (Transfer.inflight s) n = Some k ->
     k = Transfer.StopK \/ (k = Transfer.PollK /\ HfHub.polled r = inr true) ->
     let s1 := HfHub.step s (Transfer.Response n r) in
     Transfer.gid s1 = Some Js.JNull /\ Transfer.sent s1 = Transfer.sent s /\
     Transfer.downloadDisabled s1 = false /\ Transfer.stopDisabled s1 = true /\
     (~ In Transfer.StartK (Transfer.inflight s) -> TransferProps.idle s1)).
Proof.
  split; [|split; [|split]].
  - induction es as [|e es IH]; intros s Hs Hes; [now split|].
    inversion Hes as [|e' es' He Hes']; subst.
    destruct (TransferFacts.aria2_step_idle s e He Hs) as [Hi Hsent].
    cbn [Aria2.run fold_left]. destruct (IH _ Hi Hes') as [Hrun Hidle].
    split; [|exact Hidle]. unfold Aria2.run in Hrun. now rewrite Hrun.
  - induction es as [|e es IH]; intros s Hs Hes; [now split|].
    inversion Hes as [|e' es' He Hes']; subst.
    destruct (TransferFacts.hf_step_idle s e He Hs) as [Hi Hsent].
    cbn [HfHub.run fold_left]. destruct (IH _ Hi Hes') as [Hrun Hidle].
    split; [|exact Hidle]. unfold HfHub.run in Hrun. now rewrite Hrun.
  - intros s n r k Hn Hk. cbn zeta. cbn [Aria2.step]. rewrite Hn.
    assert (Hs' : ~ In Transfer.StartK (Transfer.inflight s) ->
                  ~ In Transfer.StartK (remove_nth n (Transfer.inflight s)))
      by (intros Hs H; apply Hs; eapply TransferFacts.removed_subset; eauto).
    destruct Hk as [->|[-> Hp]]; cbn [Aria2.resume];
      [|unfold Aria2.onPollResponse; rewrite Hp];
      TransferFacts.destruct_transfer s; unfold TransferProps.idle; cbn in *;
      repeat split; auto.
  - intros s n r k Hn Hk. cbn zeta. cbn [HfHub.step]. rewrite Hn.
    assert (Hs' : ~ In Transfer.StartK (Transfer.inflight s) ->
                  ~ In Transfer.StartK (remove_nth n (Transfer.inflight s)))
      by (intros Hs H; apply Hs; eapply TransferFacts.removed_subset; eauto).
    destruct Hk as [->|[-> Hp]]; cbn [HfHub.resume];
      [|unfold HfHub.onPollResponse; rewrite Hp];
      TransferFacts.destruct_transfer s; unfold TransferProps.idle; cbn in *;
      repeat split; auto.
Qed.

(** After a download that ran to its end, nothing goes out. *)
Lemma idle_sends_nothing_witness :
  Transfer.sent
    (Aria2.run
       (Aria2.run Transfer.init
          [Transfer.DownloadClick
             (Aria2.mkBoxes "https://example.org/f.bin" "/data" EmptyString);
           Transfer.Response 0 (Http 200 (Some (Js.JObj [("gid", Js.JStr "abc")])));
           Transfer.Response 0
             (Http 200 (Some (Js.JObj [("status", Js.JStr "complete")])))])
       [Transfer.StopClick; Transfer.TimerFire 1; Transfer.Elapse 500;
        Transfer.Response 0 NetworkError])
  = Transfer.sent
      (Aria2.run Transfer.init
         [Transfer.DownloadClick
            (Aria2.mkBoxes "https://example.org/f.bin" "/data" EmptyString);
          Transfer.Response 0 (Http 200 (Some (Js.JObj [("gid", Js.JStr "abc")])));
          Transfer.Response 0
            (Http 200 (Some (Js.JObj [("status", Js.JStr "complete")])))]).
Proof.
  exact (proj1 (proj1 idle_sends_nothing
                  [Transfer.StopClick; Transfer.TimerFire 1; Transfer.Elapse 500;
                   Transfer.Response 0 NetworkError]
                  (Aria2.run Transfer.init
                     [Transfer.DownloadClick
                        (Aria2.mkBoxes "https://example.org/f.bin" "/data" EmptyString);
                      Transfer.Response 0
                        (Http 200 (Some (Js.JObj [("gid", Js.JStr "abc")])));
                      Transfer.Response 0
                        (Http 200 (Some (Js.JObj [("status", Js.JStr "complete")])))])
                  (conj (eq_refl false) (fun H : False => H))
                  ltac:(repeat constructor))).
Defined.

(** A poll goes on until a response ends the download.  In a state
    the widget can reach, with a download on whose [this.gid] converts to
    a string, the answer to a status request that does not end the
    download leaves [this.gid] as it is and sends nothing, and the status
    request for the same gid goes out again when the timer it arms fires:
    500 ms later in the Aria2 widget; in the Hugging Face widget 900 ms
    later when the [try] block ran through and 1100 ms later when it
    threw.  An answer that cannot be read (a rejected fetch, a body that
    is not JSON or is [null]) makes the [try] block throw.  When
    [this.gid] does not convert to a string, a poll timer that fires sends
    nothing and arms the next one, 500 ms and 1100 ms ahead. *)
Theorem poll_goes_on :
  (forall s n r d g,
     Aria2.reachable s ->
     nth_error (Transfer.inflight s) n = Some Transfer.PollK ->
     Js.truthy (Transfer.gid s) = true ->
     Js.toString (Transfer.gid s) = inr g ->
     Aria2.polled r <> inr true -> (500 <= d)%nat ->
     let s1 := Aria2.step s (Transfer.Response n r) in
     Transfer.gid s1 = Transfer.gid s /\ Transfer.sent s1 = Transfer.sent s /\
     In (Transfer.nextTimer s, (Transfer.now s + 500)%nat) (Transfer.timers s1) /\
     Transfer.sent
       (Aria2.step (Aria2.step s1 (Transfer.Elapse d))
          (Transfer.TimerFire (Transfer.nextTimer s)))
     = (Transfer.sent s ++ [Transfer.Status g])%list) /\
  (forall s n r d g,
     HfHub.reachable s ->
     nth_error (Transfer.inflight s) n = Some Transfer.PollK ->
     Js.truthy (Transfer.gid s) = true ->
     Js.toString (Transfer.gid s) = inr g ->
     HfHub.polled r <> inr true ->
     (match HfHub.polled r with inl _ => 1100 | inr _ => 900 end <= d)%nat ->
     let s1 := HfHub.step s (Transfer.Response n r) in
     Transfer.gid s1 = Transfer.gid s /\ Transfer.sent s1 = Transfer.sent s /\
     In (Transfer.nextTimer s,
         (Transfer.now s + match HfHub.polled r with inl _ => 1100 | inr _ => 900 end)%nat)
        (Transfer.timers s1) /\
     Transfer.sent
       (HfHub.step (HfHub.step s1 (Transfer.Elapse d))
          (Transfer.TimerFire (Transfer.nextTimer s)))
     = (Transfer.sent s ++ [Transfer.Status g])%list) /\
  (forall r, TransferProps.unreadable r = true ->
     (exists e, Aria2.polled r = inl e) /\ (exists e, HfHub.polled r = inl e)) /\
  (forall s id t e,
     Transfer.dueTimer id s = Some t ->
     Js.truthy (Transfer.gid s) = true ->
     Js.toString (Transfer.gid s) = inl e ->
     (Transfer.sent (Aria2.step s (Transfer.TimerFire id)) = Transfer.sent s /\
      In (Transfer.nextTimer s, (Transfer.now s + 500)%nat)
         (Transfer.timers (Aria2.step s (Transfer.TimerFire id)))) /\
     (Transfer.sent (HfHub.step s (Transfer.TimerFire id)) = Transfer.sent s /\
      In (Transfer.nextTimer s, (Transfer.now s + 1100)%nat)
         (Transfer.timers (HfHub.step s (Transfer.TimerFire id))))).
Proof.
  split; [|split; [|split]].
  - intros s n r d g Hr Hn Ht Hg Hp Hd. cbn zeta.
    set (s' := Transfer.set_inflight (remove_nth n (Transfer.inflight s)) s).
    assert (Hs1 : Aria2.step s (Transfer.Response n r) = Transfer.armPoll 500 s').
    { cbn [Aria2.step]. rewrite Hn. cbn [Aria2.resume]. unfold Aria2.onPollResponse.
      destruct (Aria2.polled r) as [|[|]] eqn:E; [reflexivity | congruence | reflexivity]. }
    assert (Hf : TransferProps.fresh s')
      by exact (TransferFacts.aria2_reachable_fresh s Hr).
    rewrite Hs1. repeat split.
    + cbn [Transfer.armPoll Transfer.timers]. apply in_or_app. right. now left.
    + cbn [Aria2.step].
      change (Transfer.nextTimer s) with (Transfer.nextTimer s').
      rewrite (TransferFacts.armed_poll_due 500 d s' Hf Hd).
      apply (TransferFacts.next_poll 500 500 d s' g Ht Hg).
  - intros s n r d g Hr Hn Ht Hg Hp Hd. cbn zeta.
    set (s' := Transfer.set_inflight (remove_nth n (Transfer.inflight s)) s).
    assert (Hf : TransferProps.fresh s')
      by exact (TransferFacts.hf_reachable_fresh s Hr).
    set (delay := match HfHub.polled r with inl _ => 1100%nat | inr _ => 900%nat end) in *.
    assert (Hs1 : HfHub.step s (Transfer.Response n r) = Transfer.armPoll delay s').
    { cbn [HfHub.step]. rewrite Hn. cbn [HfHub.resume]. unfold HfHub.onPollResponse.
      subst delay.
      destruct (HfHub.polled r) as [|[|]] eqn:E; [reflexivity | congruence | reflexivity]. }
    rewrite Hs1. repeat split.
    + cbn [Transfer.armPoll Transfer.timers]. apply in_or_app. right. now left.
    + cbn [HfHub.step].
      change (Transfer.nextTimer s) with (Transfer.nextTimer s').
      rewrite (TransferFacts.armed_poll_due delay d s' Hf Hd).
      apply (TransferFacts.next_poll 1100 delay d s' g Ht Hg).
  - intros r Hu. split.
    + exact (TransferFacts.aria2_unreadable r Hu).
    + exact (TransferFacts.hf_unreadable r Hu).
  - intros s id t e Hdue Ht Hg.
    cbn [Aria2.step HfHub.step]. rewrite Hdue.
    unfold Aria2.poll, HfHub.poll, Transfer.poll.
    TransferFacts.destruct_transfer s.
    cbn -[Js.truthy Js.toString] in *. rewrite Ht, Hg.
    cbn. repeat split; apply in_or_app; right; now left.
Qed.

(** A download that was just started, a status request that fails, and
    the timer 500 ms later. *)
Lemma poll_goes_on_witness :
  Transfer.sent
    (Aria2.step
       (Aria2.step
          (Aria2.step
             (Aria2.run Transfer.init
                [Transfer.DownloadClick
                   (Aria2.mkBoxes "https://example.org/f.bin" "/data" EmptyString);
                 Transfer.Response 0
                   (Http 200 (Some (Js.JObj [("gid", Js.JStr "abc")])))])
             (Transfer.Response 0 NetworkError))
          (Transfer.Elapse 500))
       (Transfer.TimerFire 1))
  = [Transfer.Start [("url", "https://example.org/f.bin"); ("dest_dir", "/data");
                     ("token", EmptyString)];
     Transfer.Status "abc"; Transfer.Status "abc"].
Proof.
  assert (Hr : Aria2.reachable
                 (Aria2.run Transfer.init
                    [Transfer.DownloadClick
                       (Aria2.mkBoxes "https://example.org/f.bin" "/data" EmptyString);
                     Transfer.Response 0
                       (Http 200 (Some (Js.JObj [("gid", Js.JStr "abc")])))])).
  { cbn [Aria2.run fold_left]. repeat apply Aria2.reach_step. apply Aria2.reach_init. }
  assert (Hp : Aria2.polled NetworkError <> inr true) by discriminate.
  exact (proj2 (proj2 (proj2 (proj1 poll_goes_on _ 0%nat NetworkError 500%nat "abc"
                                Hr (eq_refl (Some Transfer.PollK))
                                (eq_refl true) (eq_refl (inr "abc"))
                                Hp (le_n 500))))).
Defined.
